(** * Jailhouse hypervisor: the multi-CPU initialisation protocol of
      [hypervisor/setup.c]

    The development embeds the four routines of [setup.c]:
    - [init_early], [cpu_init] and [init_late] as state transformers over
      the shared variables of the file, and
    - [entry] as a small-step transition system in which every core owns a
      program counter and every step is one core executing the code between
      two synchronisation points.

    Functions of other compilation units (paging, arch code, units, printk)
    are collaborators: they act on an abstract [World] and every invocation
    is recorded, together with its return value, in a trace.

    Memory is sequentially consistent in this model: the steps of the cores
    interleave and every read sees the last write, so [memory_barrier] has
    no effect of its own and is left out.  Constants, macros and types of
    the headers that [setup.c] includes are gathered in [platform]. *)

From Stdlib Require Import ZArith Lia Bool String.
From stdpp Require Import base list.

Local Open Scope Z_scope.

(** ** Machine integers *)

(** [unsigned int] arithmetic. *)
Definition wrap32 (z : Z) : Z := z mod 2 ^ 32.

(** [unsigned long] and [u64] arithmetic. *)
Definition wrap64 (z : Z) : Z := z mod 2 ^ 64.

(** The C truth value of an integer: [if (error)]. *)
Definition nonzero (z : Z) : bool := negb (z =? 0).

(** ** Data model *)

(** [struct jailhouse_memory]. *)
Record jailhouse_memory := {
  mem_phys_start : Z;
  mem_virt_start : Z;
  mem_size : Z;
  mem_flags : Z
}.

(** The fields of [struct jailhouse_system] that [setup.c] reads. *)
Record jailhouse_system := {
  sys_flags : Z;
  hypervisor_memory : jailhouse_memory;
  debug_console_flags : Z;
  root_mem_regions : list jailhouse_memory
}.

(** The fields of [struct jailhouse_header] that [setup.c] reads. *)
Record jailhouse_header := {
  core_size : Z;
  max_cpus : Z;
  online_cpus : Z;
  debug_console_base : Z
}.

(** [struct paging_structures]. *)
Record paging_structures := {
  hv_paging : bool;
  root_paging : Z;
  root_table : Z
}.

(** A [struct cell *]; the only cell that exists during setup is
    [root_cell]. *)
Inductive cell_ptr := root_cell.

(** The fields of [struct per_cpu] that [setup.c] touches.  [cd_hvirt] is
    the address of the record itself and [root_table_page] the address of
    its embedded root page-table page. *)
Record per_cpu := {
  cd_hvirt : Z;
  cpu_id : Z;
  cell : option cell_ptr;
  root_table_page : Z;
  pg_structs : paging_structures
}.

(** Constants, macros and addresses that [setup.c] uses and other headers
    define. *)
Record platform := {
  PAGE_SIZE : Z;
  JAILHOUSE_BASE : Z;
  sizeof_per_cpu : Z;
  EINVAL : Z;
  INVALID_CPU_ID : Z;
  JAILHOUSE_MEM_READ : Z;
  LOCAL_CPU_BASE : Z;
  TEMPORARY_MAPPING_BASE : Z;
  NUM_TEMPORARY_PAGES : Z;
  PAGE_DEFAULT_FLAGS : Z;
  PAGE_NONPRESENT_FLAGS : Z;
  PAGING_NON_COHERENT : Z;
  PAGING_HUGE : Z;
  PAGING_NO_HUGE : Z;
  CONFIG_PAGE_TABLE_PROTECTION : bool;
  PGP_RO_BUF_VIRT : Z;
  PGP_RO_BUF_BASE : Z;
  PGP_ROBUF_SIZE : Z;
  GPHYS2PHYS_WRITE_MASK : Z;
  GPHYS2PHYS_WRITE_PROTECTION_VALUE : Z;
  text_start : Z;
  console_hvirt : Z;
  empty_page_hvirt : Z;
  paging_hvirt2phys : Z -> Z;
  SYS_FLAGS_VIRTUAL_DEBUG_CONSOLE : Z -> bool;
  CON_IS_MMIO : Z -> bool;
  JAILHOUSE_MEMORY_IS_SUBPAGE : jailhouse_memory -> bool;
  cpu_id_valid : Z -> bool
}.

(** Arguments of [printk]. *)
Inductive printk_arg :=
| PInt (z : Z)
| PStr (s : string).

(** Invocations of collaborators, with their arguments. *)
Inductive call :=
| printk (fmt : string) (args : list printk_arg)
| arch_dbg_write_init
| gcov_init
| paging_init
| cell_init
| arch_init_early
| arch_map_memory_region (mem : jailhouse_memory)
| paging_dump_stats (when : string)
| paging_create_hvpt_link (pg : paging_structures) (virt : Z)
| paging_create (pg : paging_structures) (phys sz virt access_flags paging_flags : Z)
| arch_cpu_init (cpu_data : per_cpu)
| unit_init (name : string)
| mmio_subpage_register (mem : jailhouse_memory)
| paging_set_flag (phys sz paging_flags mask value : Z)
| config_commit
| shutdown
| arch_cpu_restore (cpu : Z) (err : Z)
| arch_cpu_activate_vmm.

(** One trace entry: the call and what it returned ([0] for [void]). *)
Definition event : Type := call * Z.

(** What the rest of the hypervisor provides: the effect of every call on
    the world, the CPU set of [root_cell], [hv_paging_structs.root_paging],
    the configuration found at an address and the registered units. *)
Record collaborators (World : Type) := {
  extern : call -> World -> Z * World;
  root_cell_cpu_set : World -> list Z;
  hv_root_paging : World -> Z;
  config_at : Z -> jailhouse_system;
  units : list string
}.
Arguments extern {World}.
Arguments root_cell_cpu_set {World}.
Arguments hv_root_paging {World}.
Arguments config_at {World}.
Arguments units {World}.

(** The shared variables of [setup.c] ([master_cpu_id], [entered_cpus],
    [initialized_cpus], [error], [activate]), the globals of other units it
    assigns ([system_config], [virtual_console], [root_cell.config]), the
    state of the collaborators and the trace of their invocations. *)
Record shared (World : Type) := {
  master_cpu_id : Z;
  entered_cpus : Z;
  initialized_cpus : Z;
  error : Z;
  activate : bool;
  system_config : Z;
  virtual_console : bool;
  root_cell_config : Z;
  world : World;
  trace : list event
}.
Arguments master_cpu_id {World}.
Arguments entered_cpus {World}.
Arguments initialized_cpus {World}.
Arguments error {World}.
Arguments activate {World}.
Arguments system_config {World}.
Arguments virtual_console {World}.
Arguments root_cell_config {World}.
Arguments world {World}.
Arguments trace {World}.

(** Control flow of a function body that may [return] from inside a loop. *)
Inductive flow (A : Type) :=
| Next (a : A)
| Return (a : A).
Arguments Next {A}.
Arguments Return {A}.

(** Program points of [entry]: each names the code a core executes next. *)
Inductive label :=
| Start
| Lock1
| IncEntered
| WaitEntered
| Lock2
| Elect
| CpuInit
| WaitInitialized
| Late
| WaitActivate
| Finish
| Shutdown
| Restore
| Returned (e : Z)
| Activated.

(** A core inside [entry]: its arguments, its local [master] and where it
    is. *)
Record core := {
  arg_cpu_id : Z;
  cpu_data : per_cpu;
  master : bool;
  pc : label
}.

(** The whole machine: shared variables, whether [init_lock] is taken and
    the cores. *)
Record state (World : Type) := {
  sh : shared World;
  init_lock : bool;
  cores : list core
}.
Arguments sh {World}.
Arguments init_lock {World}.
Arguments cores {World}.

(** How far a program point is into [entry]. *)
Definition rank (l : label) : nat :=
  match l with
  | Start => 0
  | Lock1 => 1
  | IncEntered => 2
  | WaitEntered => 3
  | Lock2 => 4
  | Elect => 5
  | CpuInit => 6
  | WaitInitialized => 7
  | Late => 8
  | WaitActivate => 9
  | Finish => 10
  | Shutdown => 11
  | Restore => 12
  | Returned _ => 13
  | Activated => 13
  end%nat.

(** Program points inside a [spin_lock]/[spin_unlock] section. *)
Definition locked (l : label) : bool :=
  match l with
  | IncEntered | Elect | CpuInit => true
  | _ => false
  end.

(** Program points after which [entry] executes nothing more. *)
Definition terminal (l : label) : bool :=
  match l with
  | Returned _ | Activated => true
  | _ => false
  end.

(** Number of elements satisfying a test. *)
Fixpoint count_if {A : Type} (p : A -> bool) (l : list A) : nat :=
  match l with
  | [] => 0
  | x :: l' => ((if p x then 1 else 0) + count_if p l')%nat
  end.

Definition past (r : nat) (c : core) : bool := (r <=? rank (pc c))%nat.

(** ** A concrete machine

    An x86-like platform, a header and collaborators whose calls fail
    exactly when [fails] says so; the world counts the calls made. *)

Definition demo_platform : platform :=
  {| PAGE_SIZE := 4096;
     JAILHOUSE_BASE := 0xfffffffff0000000;
     sizeof_per_cpu := 0x8000;
     EINVAL := 22;
     INVALID_CPU_ID := 0xffffffff;
     JAILHOUSE_MEM_READ := 1;
     LOCAL_CPU_BASE := 0xffffff0000000000;
     TEMPORARY_MAPPING_BASE := 0xffffff8000000000;
     NUM_TEMPORARY_PAGES := 16;
     PAGE_DEFAULT_FLAGS := 3;
     PAGE_NONPRESENT_FLAGS := 0;
     PAGING_NON_COHERENT := 0;
     PAGING_HUGE := 0x100;
     PAGING_NO_HUGE := 0;
     CONFIG_PAGE_TABLE_PROTECTION := false;
     PGP_RO_BUF_VIRT := 0xffffff4000000000;
     PGP_RO_BUF_BASE := 0x40000000;
     PGP_ROBUF_SIZE := 0x200000;
     GPHYS2PHYS_WRITE_MASK := 2;
     GPHYS2PHYS_WRITE_PROTECTION_VALUE := 0;
     text_start := 0xfffffffff0000000;
     console_hvirt := 0xfffffffff0001000;
     empty_page_hvirt := 0xfffffffff0002000;
     paging_hvirt2phys := fun a => a - 0xfffffffff0000000 + 0x1000;
     SYS_FLAGS_VIRTUAL_DEBUG_CONSOLE := fun f => Z.testbit f 0;
     CON_IS_MMIO := fun f => Z.testbit f 1;
     JAILHOUSE_MEMORY_IS_SUBPAGE :=
       fun m => nonzero (Z.land (mem_virt_start m) 0xfff)
                || nonzero (Z.land (mem_size m) 0xfff);
     cpu_id_valid := fun c => c <? 4 |}.

Definition demo_header (online : Z) : jailhouse_header :=
  {| core_size := 0x4000; max_cpus := 4; online_cpus := online;
     debug_console_base := 0 |}.

Definition demo_system (flags : Z) (regions : list jailhouse_memory)
  : jailhouse_system :=
  {| sys_flags := flags;
     hypervisor_memory :=
       {| mem_phys_start := 0x1000; mem_virt_start := 0xfffffffff0000000;
          mem_size := 0x3000; mem_flags := 1 |};
     debug_console_flags := 0;
     root_mem_regions := regions |}.

Definition demo_collaborators (fails : call -> bool) (flags : Z)
    (cpu_set : list Z) (regions : list jailhouse_memory) (us : list string)
  : collaborators nat :=
  {| extern := fun c w => (if fails c then -12 else 0, S w);
     root_cell_cpu_set := fun _ => cpu_set;
     hv_root_paging := fun _ => 0x7000;
     config_at := fun _ => demo_system flags regions;
     units := us |}.

Definition demo_per_cpu (n : Z) : per_cpu :=
  {| cd_hvirt := 0xfffffffff0004000 + n * 0x8000; cpu_id := 0; cell := None;
     root_table_page := 0xfffffffff0005000 + n * 0x8000;
     pg_structs := {| hv_paging := false; root_paging := 0; root_table := 0 |} |}.

Definition demo_regions : list jailhouse_memory :=
  [ {| mem_phys_start := 0x100000; mem_virt_start := 0x100000;
       mem_size := 0x2000; mem_flags := 3 |};
    {| mem_phys_start := 0xfed00000; mem_virt_start := 0xfed00020;
       mem_size := 0x10; mem_flags := 3 |} ].

Definition is_arch_cpu_init (c : call) : bool :=
  match c with arch_cpu_init _ => true | _ => false end.

Definition is_region_call (c : call) : bool :=
  match c with
  | arch_map_memory_region _ | mmio_subpage_register _ => true
  | _ => false
  end.

Definition is_activate_vmm (c : call) : bool :=
  match c with arch_cpu_activate_vmm => true | _ => false end.

Definition is_dbg_write_init (c : call) : bool :=
  match c with arch_dbg_write_init => true | _ => false end.

(** The last call of [init_late]. *)
Definition is_late_done (c : call) : bool :=
  match c with
  | paging_dump_stats w => String.eqb w "after late setup"
  | _ => false
  end.

Definition is_activated (c : core) : bool :=
  match pc c with Activated => true | _ => false end.

Definition is_returned (c : core) : bool :=
  match pc c with Returned _ => true | _ => false end.

Definition is_shutdown (c : call) : bool :=
  match c with shutdown => true | _ => false end.

Definition is_restore (c : call) : bool :=
  match c with arch_cpu_restore _ _ => true | _ => false end.

Definition is_config_commit (c : call) : bool :=
  match c with config_commit => true | _ => false end.

Definition is_printk (c : call) : bool :=
  match c with printk _ _ => true | _ => false end.

(** The trace without the console messages. *)
Definition work (t : list event) : list event :=
  List.filter (fun e => negb (is_printk (fst e))) t.

(** The core is master and has called [shutdown]. *)
Definition has_shut_down (c : core) : bool :=
  master c && match pc c with Restore | Returned _ => true | _ => false end.

Definition is_unit_init (c : call) : bool :=
  match c with unit_init _ => true | _ => false end.

(** The calls that occur in the body of [init_early]. *)
Definition early_call (c : call) : bool :=
  match c with
  | printk _ _ | arch_dbg_write_init | gcov_init | paging_init | cell_init
  | arch_init_early | arch_map_memory_region _ | paging_dump_stats _ => true
  | _ => false
  end.

(** The calls that occur in the body of [cpu_init]. *)
Definition cpu_call (c : call) : bool :=
  match c with
  | printk _ _ | paging_create_hvpt_link _ _ | paging_create _ _ _ _ _ _
  | arch_cpu_init _ => true
  | _ => false
  end.

(** The calls that occur in the body of [init_late]. *)
Definition late_call (c : call) : bool :=
  match c with
  | printk _ _ | unit_init _ | mmio_subpage_register _
  | arch_map_memory_region _ | paging_set_flag _ _ _ _ _ | config_commit
  | paging_dump_stats _ => true
  | _ => false
  end.

(** The calls that occur in the body of [entry] itself. *)
Definition entry_call (c : call) : bool :=
  match c with
  | printk _ _ | shutdown | arch_cpu_restore _ _ | arch_cpu_activate_vmm => true
  | _ => false
  end.

(** The calls that only [init_early] makes, ... *)
Definition early_only (c : call) : bool :=
  match c with
  | arch_dbg_write_init | gcov_init | paging_init | cell_init
  | arch_init_early => true
  | _ => false
  end.

(** ... that only [cpu_init] makes, ... *)
Definition cpu_only (c : call) : bool :=
  match c with
  | paging_create_hvpt_link _ _ | paging_create _ _ _ _ _ _
  | arch_cpu_init _ => true
  | _ => false
  end.

(** ... and that only [init_late] makes. *)
Definition late_only (c : call) : bool :=
  match c with
  | unit_init _ | mmio_subpage_register _ | paging_set_flag _ _ _ _ _
  | config_commit => true
  | _ => false
  end.

(** A successful [arch_cpu_init]. *)
Definition arch_cpu_init_ok (e : event) : bool :=
  is_arch_cpu_init (fst e) && (snd e =? 0).

(** Every call is one of [R]. *)
Definition only_calls (R : call -> bool) (evs : list event) : Prop :=
  Forall (fun e => R (fst e) = true) evs.

(** No call is one of [R]. *)
Definition no_calls (R : call -> bool) (evs : list event) : Prop :=
  Forall (fun e => R (fst e) = false) evs.

(** The core is master and past the point where it runs [init_late]. *)
Definition late_run (c : core) : bool := master c && past 9 c.

(** What [cpu_init] leaves in a per-CPU record when it succeeds. *)
Definition record_ready (cd : per_cpu) : Prop :=
  cell cd = Some root_cell /\
  hv_paging (pg_structs cd) = true /\
  root_table (pg_structs cd) = root_table_page cd.

Definition never (c : call) : bool := false.

(** Two cores, every collaborator succeeding. *)
Definition demo_cpus : list (Z * per_cpu) :=
  [(0, demo_per_cpu 0); (1, demo_per_cpu 1)].

Definition demo_ok : collaborators nat :=
  demo_collaborators never 0 [0; 1] demo_regions ["vtd"; "ioapic"]%string.

(** Two cores, [arch_cpu_init] failing. *)
Definition demo_fail : collaborators nat :=
  demo_collaborators is_arch_cpu_init 0 [0; 1] demo_regions
    ["vtd"; "ioapic"]%string.

(** The virtual console enabled (bit 0 of the flags), every collaborator
    succeeding. *)
Definition demo_console : collaborators nat :=
  demo_collaborators never 1 [0; 1] demo_regions ["vtd"; "ioapic"]%string.

(** A configuration whose hypervisor memory region is empty. *)
Definition demo_empty : collaborators nat :=
  {| extern := fun c w => (0, S w);
     root_cell_cpu_set := fun _ => [0; 1];
     hv_root_paging := fun _ => 0x7000;
     config_at := fun _ =>
       {| sys_flags := 0;
          hypervisor_memory :=
            {| mem_phys_start := 0x1000; mem_virt_start := 0xfffffffff0000000;
               mem_size := 0; mem_flags := 1 |};
          debug_console_flags := 0;
          root_mem_regions := demo_regions |};
     units := ["vtd"; "ioapic"]%string |}.

(** Three CPUs in the CPU set of the root cell. *)
Definition demo_three : collaborators nat :=
  demo_collaborators never 0 [0; 1; 2] demo_regions ["vtd"; "ioapic"]%string.

(** The regions of the [arch_map_memory_region] calls of a trace. *)
Definition mappings (t : list event) : list jailhouse_memory :=
  flat_map (fun e => match fst e with
                     | arch_map_memory_region m => [m]
                     | _ => []
                     end) t.

(** The cores take turns, [n] rounds. *)
Definition round_robin (n : nat) : list nat := List.concat (List.repeat [0; 1]%nat n).

Section Setup.

Context {World : Type}.
Variable P : platform.
Variable H : jailhouse_header.
Variable X : collaborators World.

(** *** Assignments to the shared variables *)

Definition set_master_cpu_id (v : Z) (s : shared World) : shared World :=
  {| master_cpu_id := v; entered_cpus := entered_cpus s;
     initialized_cpus := initialized_cpus s; error := error s;
     activate := activate s; system_config := system_config s;
     virtual_console := virtual_console s;
     root_cell_config := root_cell_config s;
     world := world s; trace := trace s |}.

Definition set_entered_cpus (v : Z) (s : shared World) : shared World :=
  {| master_cpu_id := master_cpu_id s; entered_cpus := v;
     initialized_cpus := initialized_cpus s; error := error s;
     activate := activate s; system_config := system_config s;
     virtual_console := virtual_console s;
     root_cell_config := root_cell_config s;
     world := world s; trace := trace s |}.

Definition set_initialized_cpus (v : Z) (s : shared World) : shared World :=
  {| master_cpu_id := master_cpu_id s; entered_cpus := entered_cpus s;
     initialized_cpus := v; error := error s;
     activate := activate s; system_config := system_config s;
     virtual_console := virtual_console s;
     root_cell_config := root_cell_config s;
     world := world s; trace := trace s |}.

Definition set_error (v : Z) (s : shared World) : shared World :=
  {| master_cpu_id := master_cpu_id s; entered_cpus := entered_cpus s;
     initialized_cpus := initialized_cpus s; error := v;
     activate := activate s; system_config := system_config s;
     virtual_console := virtual_console s;
     root_cell_config := root_cell_config s;
     world := world s; trace := trace s |}.

Definition set_activate (v : bool) (s : shared World) : shared World :=
  {| master_cpu_id := master_cpu_id s; entered_cpus := entered_cpus s;
     initialized_cpus := initialized_cpus s; error := error s;
     activate := v; system_config := system_config s;
     virtual_console := virtual_console s;
     root_cell_config := root_cell_config s;
     world := world s; trace := trace s |}.

Definition set_system_config (v : Z) (s : shared World) : shared World :=
  {| master_cpu_id := master_cpu_id s; entered_cpus := entered_cpus s;
     initialized_cpus := initialized_cpus s; error := error s;
     activate := activate s; system_config := v;
     virtual_console := virtual_console s;
     root_cell_config := root_cell_config s;
     world := world s; trace := trace s |}.

Definition set_virtual_console (v : bool) (s : shared World) : shared World :=
  {| master_cpu_id := master_cpu_id s; entered_cpus := entered_cpus s;
     initialized_cpus := initialized_cpus s; error := error s;
     activate := activate s; system_config := system_config s;
     virtual_console := v;
     root_cell_config := root_cell_config s;
     world := world s; trace := trace s |}.

Definition set_root_cell_config (v : Z) (s : shared World) : shared World :=
  {| master_cpu_id := master_cpu_id s; entered_cpus := entered_cpus s;
     initialized_cpus := initialized_cpus s; error := error s;
     activate := activate s; system_config := system_config s;
     virtual_console := virtual_console s;
     root_cell_config := v;
     world := world s; trace := trace s |}.

(** *** Calling a collaborator *)

(** [r = f(...)]: the world moves on and the call is appended to the
    trace. *)
Definition invoke (c : call) (s : shared World) : Z * shared World :=
  let r := fst (extern X c (world s)) in
  (r,
   {| master_cpu_id := master_cpu_id s; entered_cpus := entered_cpus s;
      initialized_cpus := initialized_cpus s; error := error s;
      activate := activate s; system_config := system_config s;
      virtual_console := virtual_console s;
      root_cell_config := root_cell_config s;
      world := snd (extern X c (world s));
      trace := trace s ++ [(c, r)] |}).

(** [f(...);] with the result dropped. *)
Definition invoke_ (c : call) (s : shared World) : shared World := snd (invoke c s).

(** [error = f(...);] *)
Definition error_from (c : call) (s : shared World) : shared World :=
  set_error (fst (invoke c s)) (snd (invoke c s)).

(** [system_config], dereferenced. *)
Definition the_config (s : shared World) : jailhouse_system :=
  config_at X (system_config s).

(** *** [init_early] *)

(** The [hv_page] descriptor of one loop iteration (lines 81-89). *)
Definition hv_page_at (vc : bool) (virt : Z) : jailhouse_memory :=
  {| mem_phys_start :=
       if vc && (virt =? paging_hvirt2phys P (console_hvirt P))
       then paging_hvirt2phys P (console_hvirt P)
       else paging_hvirt2phys P (empty_page_hvirt P);
     mem_virt_start := virt;
     mem_size := PAGE_SIZE P;
     mem_flags := JAILHOUSE_MEM_READ P |}.

(** The [while] loop of lines 84-94.  [Return] is the [return] of line 92,
    [Next] the normal loop exit; [None] means the fuel ran out. *)
Fixpoint map_hv_pages (fuel : nat) (hyp_phys_end virt : Z) (s : shared World)
  : option (flow (shared World)) :=
  match fuel with
  | O => None
  | S fuel' =>
      if virt <? hyp_phys_end then
        let s := error_from
                   (arch_map_memory_region (hv_page_at (virtual_console s) virt))
                   s in
        if nonzero (error s) then Some (Return s)
        else map_hv_pages fuel' hyp_phys_end (wrap64 (virt + PAGE_SIZE P)) s
      else Some (Next s)
  end.

(** Lines 78-97: backing the hypervisor region with empty pages. *)
Definition init_early_backing (fuel : nat) (s : shared World) : option (shared World) :=
  let hyp_phys_start := mem_phys_start (hypervisor_memory (the_config s)) in
  let hyp_phys_end :=
    wrap64 (hyp_phys_start + mem_size (hypervisor_memory (the_config s))) in
  match map_hv_pages fuel hyp_phys_end hyp_phys_start s with
  | None => None
  | Some (Return s) => Some s
  | Some (Next s) =>
      let s := invoke_ (paging_dump_stats "after early setup") s in
      Some (invoke_ (printk "Initializing processors:\n" []) s)
  end.

Definition init_early (fuel : nat) (cpu : Z) (s : shared World) : option (shared World) :=
  let core_and_percpu_size :=
    wrap64 (core_size H + wrap64 (sizeof_per_cpu P * max_cpus H)) in
  let s := set_master_cpu_id cpu s in
  let s := set_system_config (wrap64 (JAILHOUSE_BASE P + core_and_percpu_size)) s in
  let s := set_virtual_console
             (SYS_FLAGS_VIRTUAL_DEBUG_CONSOLE P (sys_flags (the_config s))) s in
  let s := invoke_ arch_dbg_write_init s in
  let s := invoke_ (printk "\nInitializing Jailhouse hypervisor %s on CPU %d\n"
                      [PStr "JAILHOUSE_VERSION"; PInt cpu]) s in
  let s := invoke_ (printk "Code location: %p\n" [PInt (text_start P)]) s in
  let s := invoke_ gcov_init s in
  let s := error_from paging_init s in
  if nonzero (error s) then Some s else
  let s := set_root_cell_config (system_config s) s in
  let s := error_from cell_init s in
  if nonzero (error s) then Some s else
  let s := error_from arch_init_early s in
  if nonzero (error s) then Some s else
  init_early_backing fuel s.

(** *** [cpu_init] *)

(** The [failed:] label. *)
Definition cpu_init_failed (err : Z) (s : shared World) : shared World :=
  set_error err (invoke_ (printk "FAILED\n" []) s).

Definition set_cell (v : option cell_ptr) (cd : per_cpu) : per_cpu :=
  {| cd_hvirt := cd_hvirt cd; cpu_id := cpu_id cd; cell := v;
     root_table_page := root_table_page cd; pg_structs := pg_structs cd |}.

Definition set_pg_structs (v : paging_structures) (cd : per_cpu) : per_cpu :=
  {| cd_hvirt := cd_hvirt cd; cpu_id := cpu_id cd; cell := cell cd;
     root_table_page := root_table_page cd; pg_structs := v |}.

Definition set_cpu_id (v : Z) (cd : per_cpu) : per_cpu :=
  {| cd_hvirt := cd_hvirt cd; cpu_id := v; cell := cell cd;
     root_table_page := root_table_page cd; pg_structs := pg_structs cd |}.

(** Lines 140-170, after the optional links. *)
Definition cpu_init_mappings (cd : per_cpu) (s : shared World) : shared World :=
  let (err, s) :=
    invoke (paging_create (pg_structs cd) (paging_hvirt2phys P (cd_hvirt cd))
              (sizeof_per_cpu P) (LOCAL_CPU_BASE P) (PAGE_DEFAULT_FLAGS P)
              (Z.lor (PAGING_NON_COHERENT P) (PAGING_HUGE P))) s in
  if nonzero err then cpu_init_failed err s else
  let (err, s) := invoke (arch_cpu_init cd) s in
  if nonzero err then cpu_init_failed err s else
  let (err, s) :=
    invoke (paging_create (pg_structs cd) 0
              (wrap64 (NUM_TEMPORARY_PAGES P * PAGE_SIZE P))
              (TEMPORARY_MAPPING_BASE P) (PAGE_NONPRESENT_FLAGS P)
              (Z.lor (PAGING_NON_COHERENT P) (PAGING_NO_HUGE P))) s in
  if nonzero err then cpu_init_failed err s else
  let s := invoke_ (printk "OK\n" []) s in
  set_initialized_cpus (wrap32 (initialized_cpus s + 1)) s.

(** Lines 133-138 and what follows. *)
Definition cpu_init_console (cd : per_cpu) (s : shared World) : shared World :=
  if CON_IS_MMIO P (debug_console_flags (the_config s)) then
    let (err, s) :=
      invoke (paging_create_hvpt_link (pg_structs cd) (debug_console_base H)) s in
    if nonzero err then cpu_init_failed err s else cpu_init_mappings cd s
  else cpu_init_mappings cd s.

(** Lines 121-131 and what follows. *)
Definition cpu_init_protection (cd : per_cpu) (s : shared World) : shared World :=
  if CONFIG_PAGE_TABLE_PROTECTION P then
    let (err, s) :=
      invoke (paging_create_hvpt_link (pg_structs cd) (PGP_RO_BUF_VIRT P)) s in
    if nonzero err then
      let s := invoke_ (printk "error in mapping pgp ro buf hvpt link" []) s in
      cpu_init_failed err s
    else
      let s := invoke_ (printk "sucess in mapping pgp ro buf hvpt link" []) s in
      cpu_init_console cd s
  else cpu_init_console cd s.

Definition cpu_init (cd : per_cpu) (s : shared World) : per_cpu * shared World :=
  let err := - EINVAL P in
  let s := invoke_ (printk " CPU %d... " [PInt (cpu_id cd)]) s in
  if negb (cpu_id_valid P (cpu_id cd)) then (cd, cpu_init_failed err s) else
  let cd := set_cell (Some root_cell) cd in
  let cd := set_pg_structs
              {| hv_paging := true;
                 root_paging := hv_root_paging X (world s);
                 root_table := root_table_page cd |} cd in
  let (err, s) :=
    invoke (paging_create_hvpt_link (pg_structs cd) (JAILHOUSE_BASE P)) s in
  if nonzero err then (cd, cpu_init_failed err s) else
  (cd, cpu_init_protection cd s).

(** *** [init_late] *)

(** Modelled from the spec: the macro [trace_error] is defined in another
    header; it reports the code on the console and yields it. *)
Definition trace_error (code : Z) (s : shared World) : Z * shared World :=
  (code, invoke_ (printk "%s:%d: returning error %s\n"
                    [PStr "setup.c"; PInt 186; PStr "-EINVAL"]) s).

(** Modelled from the spec: [for_each_cpu] is defined in another header; it
    visits every CPU present in the set, so the loop of lines 183-184
    counts them in an [unsigned int]. *)
Definition count_cpus (cpu_set : list Z) : Z :=
  fold_left (fun expected_cpus _ => wrap32 (expected_cpus + 1)) cpu_set 0.

(** Lines 190-195. *)
Fixpoint init_units (us : list string) (s : shared World) : flow (shared World) :=
  match us with
  | [] => Next s
  | u :: us' =>
      let s := invoke_ (printk "Initializing unit: %s\n" [PStr u]) s in
      let s := error_from (unit_init u) s in
      if nonzero (error s) then Return s else init_units us' s
  end.

(** What line 198-201 invokes for one region. *)
Definition region_call (mem : jailhouse_memory) : call :=
  if JAILHOUSE_MEMORY_IS_SUBPAGE P mem
  then mmio_subpage_register mem
  else arch_map_memory_region mem.

(** Lines 197-204. *)
Fixpoint map_regions (mems : list jailhouse_memory) (s : shared World) : flow (shared World) :=
  match mems with
  | [] => Next s
  | mem :: mems' =>
      let s := error_from (region_call mem) s in
      if nonzero (error s) then Return s else map_regions mems' s
  end.

(** Lines 206-214. *)
Definition init_late_commit (s : shared World) : shared World :=
  let s :=
    if CONFIG_PAGE_TABLE_PROTECTION P then
      invoke_ (paging_set_flag (PGP_RO_BUF_BASE P) (PGP_ROBUF_SIZE P)
                 (Z.lor (PAGING_NON_COHERENT P) (PAGING_HUGE P))
                 (GPHYS2PHYS_WRITE_MASK P)
                 (GPHYS2PHYS_WRITE_PROTECTION_VALUE P)) s
    else s in
  let s := invoke_ config_commit s in
  invoke_ (paging_dump_stats "after late setup") s.

Definition init_late (s : shared World) : shared World :=
  let expected_cpus := count_cpus (root_cell_cpu_set X (world s)) in
  if negb (online_cpus H =? expected_cpus) then
    let (e, s) := trace_error (- EINVAL P) s in set_error e s
  else
  match init_units (units X) s with
  | Return s => s
  | Next s =>
      match map_regions
              (root_mem_regions (config_at X (root_cell_config s))) s with
      | Return s => s
      | Next s => init_late_commit s
      end
  end.

(** *** [entry] *)

Definition at_pc (l : label) (c : core) : core :=
  {| arg_cpu_id := arg_cpu_id c; cpu_data := cpu_data c;
     master := master c; pc := l |}.

Definition with_master (b : bool) (c : core) : core :=
  {| arg_cpu_id := arg_cpu_id c; cpu_data := cpu_data c;
     master := b; pc := pc c |}.

Definition with_cpu_data (cd : per_cpu) (c : core) : core :=
  {| arg_cpu_id := arg_cpu_id c; cpu_data := cd;
     master := master c; pc := pc c |}.

(** The result of a step of core [i]: new shared variables, new state of
    the lock and the new local state of the core. *)
Definition update (i : nat) (s : shared World) (l : bool) (c : core)
    (st : state World) : state World :=
  {| sh := s; init_lock := l; cores := <[i := c]> (cores st) |}.

(** One step of core [i] inside [entry].  A core that spins ([spin_lock] on
    a taken lock, [cpu_relax] in a wait loop) steps to the same state; a
    core that left [entry] has no step.

    Granularity.  The other cores can observe the stepping core only
    through the variables they read outside [init_lock]: [entered_cpus],
    [initialized_cpus], [error] and [activate].  [init_early] runs before
    any core reads [error]; [cpu_init] writes a counter or [error] once, as
    its last action; [init_late] runs while the other cores only poll
    [error] and [activate], and it returns right after the first non-zero
    value it assigns to [error].  So each of them is one step.  The
    condition of a wait loop is evaluated in one step: each of its
    conjuncts, once false, stays false ([step_keeps_error],
    [step_counters]).  The statements after the last wait are
    separate steps.

    - [Start]: lines 223-227;  [Lock1]: line 229;  [IncEntered]: lines
      236-239;  [WaitEntered]: lines 241-242;  [Lock2]: line 244;
    - [Elect]: lines 246-251;  [CpuInit]: lines 253-256;
    - [WaitInitialized]: lines 258-259;  [Late]: lines 261-271;
      [WaitActivate]: lines 272-273;
    - [Finish]: lines 276-277 and 283-287;  [Shutdown]: line 278;
      [Restore]: lines 279-280. *)
Definition step (fuel : nat) (i : nat) (st : state World) : option (state World) :=
  match cores st !! i with
  | None => None
  | Some c =>
      let s := sh st in
      match pc c with
      | Start =>
          let s := invoke_ (printk "[PGP]: %d cpu get in entry...\n"
                              [PInt (arg_cpu_id c)]) s in
          let c := with_cpu_data (set_cpu_id (arg_cpu_id c) (cpu_data c)) c in
          Some (update i s (init_lock st) (at_pc Lock1 c) st)
      | Lock1 =>
          if init_lock st then Some st
          else Some (update i s true (at_pc IncEntered c) st)
      | IncEntered =>
          let s := set_entered_cpus (wrap32 (entered_cpus s + 1)) s in
          Some (update i s false (at_pc WaitEntered c) st)
      | WaitEntered =>
          if entered_cpus s <? online_cpus H then Some st
          else Some (update i s (init_lock st) (at_pc Lock2 c) st)
      | Lock2 =>
          if init_lock st then Some st
          else Some (update i s true (at_pc Elect c) st)
      | Elect =>
          if master_cpu_id s =? INVALID_CPU_ID P then
            match init_early fuel (arg_cpu_id c) s with
            | None => None
            | Some s =>
                Some (update i s (init_lock st)
                        (at_pc CpuInit (with_master true c)) st)
            end
          else Some (update i s (init_lock st) (at_pc CpuInit c) st)
      | CpuInit =>
          if negb (nonzero (error s)) then
            let (cd, s) := cpu_init (cpu_data c) s in
            Some (update i s false (at_pc WaitInitialized (with_cpu_data cd c)) st)
          else Some (update i s false (at_pc WaitInitialized c) st)
      | WaitInitialized =>
          if negb (nonzero (error s)) && (initialized_cpus s <? online_cpus H)
          then Some st
          else Some (update i s (init_lock st) (at_pc Late c) st)
      | Late =>
          if negb (nonzero (error s)) && master c then
            let s := init_late s in
            let s := if negb (nonzero (error s)) then set_activate true s else s in
            Some (update i s (init_lock st) (at_pc Finish c) st)
          else Some (update i s (init_lock st) (at_pc WaitActivate c) st)
      | WaitActivate =>
          if negb (nonzero (error s)) && negb (activate s) then Some st
          else Some (update i s (init_lock st) (at_pc Finish c) st)
      | Finish =>
          if nonzero (error s) then
            Some (update i s (init_lock st)
                    (at_pc (if master c then Shutdown else Restore) c) st)
          else
            let s := if master c
                     then invoke_ (printk "Activating hypervisor\n" []) s
                     else s in
            let s := invoke_ arch_cpu_activate_vmm s in
            Some (update i s (init_lock st) (at_pc Activated c) st)
      | Shutdown =>
          Some (update i (invoke_ shutdown s) (init_lock st) (at_pc Restore c) st)
      | Restore =>
          let s' := invoke_ (arch_cpu_restore (arg_cpu_id c) (error s)) s in
          Some (update i s' (init_lock st) (at_pc (Returned (error s')) c) st)
      | Returned _ => None
      | Activated => None
      end
  end.

(** The values the static initialisers of [setup.c] give the shared
    variables, in a world [w]. *)
Definition boot_shared (w : World) : shared World :=
  {| master_cpu_id := INVALID_CPU_ID P; entered_cpus := 0;
     initialized_cpus := 0; error := 0; activate := false;
     system_config := 0; virtual_console := false; root_cell_config := 0;
     world := w; trace := [] |}.

(** A core about to call [entry (cpu, cd)]. *)
Definition boot_core (a : Z * per_cpu) : core :=
  {| arg_cpu_id := fst a; cpu_data := snd a; master := false; pc := Start |}.

(** The machine when the cores are about to call [entry], each with its
    identifier and its own per-CPU record. *)
Definition boot (w : World) (cpus : list (Z * per_cpu)) : state World :=
  {| sh := boot_shared w; init_lock := false; cores := map boot_core cpus |}.

(** Running a schedule: the cores step in the order the list gives. *)
Fixpoint run (fuel : nat) (sched : list nat) (st : state World)
  : option (state World) :=
  match sched with
  | [] => Some st
  | i :: sched' =>
      match step fuel i st with
      | None => None
      | Some st' => run fuel sched' st'
      end
  end.

(** The states some interleaving of the cores reaches from [boot]. *)
Inductive reachable (w : World) (cpus : list (Z * per_cpu)) : state World -> Prop :=
| reachable_boot : reachable w cpus (boot w cpus)
| reachable_step st fuel i st' :
    reachable w cpus st -> step fuel i st = Some st' -> reachable w cpus st'.

(** The calls of a trace, without their results. *)
Definition calls (t : list event) : list call := map fst t.

(** Number of cores whose local [master] is set. *)
Definition masters (st : state World) : nat := count_if master (cores st).

(** *** Specification vocabulary *)

(** A run of calls, each assigned to [error], that stops at the first
    non-zero result: the shape shared by the loops of lines 84-94 and
    197-204. *)
Fixpoint call_each (cs : list call) (s : shared World) : flow (shared World) :=
  match cs with
  | [] => Next s
  | c :: cs' =>
      let s := error_from c s in
      if nonzero (error s) then Return s else call_each cs' s
  end.

(** Trace entries of calls that all returned [0]. *)
Definition succeeded (cs : list call) : list event := map (fun c => (c, 0)) cs.

(** The addresses [virt], [virt + PAGE_SIZE], ... of [n] consecutive
    pages. *)
Definition slots_from (virt : Z) (n : nat) : list Z :=
  map (fun k => virt + Z.of_nat k * PAGE_SIZE P) (seq 0 n).

(** The page-sized slots of the region [[start, start + size)]. *)
Definition page_slots (start size : Z) : list Z :=
  slots_from start (Z.to_nat ((size + PAGE_SIZE P - 1) / PAGE_SIZE P)).

(** Trace entries of [init_units] for units that all returned [0]; the
    results of [printk] are whatever the console gave. *)
Inductive unit_events : list string -> list event -> Prop :=
| unit_events_nil : unit_events [] []
| unit_events_cons u us r evs :
    unit_events us evs ->
    unit_events (u :: us)
      ((printk "Initializing unit: %s\n" [PStr u], r) :: (unit_init u, 0) :: evs).

(** The shared variables the synchronisation of [entry] rests on, apart
    from [error]. *)
Definition sync_vars (s : shared World) : Z * Z * Z * bool :=
  (master_cpu_id s, entered_cpus s, initialized_cpus s, activate s).

(** Calls that only the sequential routines make and that mark nothing:
    every call except the first call of [init_early], the two last calls of
    [init_late] and the calls [entry] makes itself after the hand-over. *)
Definition plain (c : call) : bool :=
  match c with
  | arch_dbg_write_init | config_commit | shutdown
  | arch_cpu_restore _ _ | arch_cpu_activate_vmm => false
  | paging_dump_stats w => negb (String.eqb w "after late setup")
  | _ => true
  end.

Definition plain_events (evs : list event) : Prop :=
  Forall (fun e => plain (fst e) = true) evs.

(** The trace entries of [init_late] once every unit and region is done. *)
Definition commit_events (evs : list event) : Prop :=
  exists r1 r2,
    (if CONFIG_PAGE_TABLE_PROTECTION P then
       exists r0,
         evs = [(paging_set_flag (PGP_RO_BUF_BASE P) (PGP_ROBUF_SIZE P)
                   (Z.lor (PAGING_NON_COHERENT P) (PAGING_HUGE P))
                   (GPHYS2PHYS_WRITE_MASK P)
                   (GPHYS2PHYS_WRITE_PROTECTION_VALUE P), r0);
                (config_commit, r1);
                (paging_dump_stats "after late setup", r2)]
     else
       evs = [(config_commit, r1);
              (paging_dump_stats "after late setup", r2)]).

(** *** The invariant of the protocol *)

Definition b2n (b : bool) : nat := if b then 1 else 0.

(** The core is inside a section guarded by [init_lock]. *)
Definition in_lock (c : core) : bool := locked (pc c).

(** The core has [master] set and has not reached program point [r]. *)
Definition master_before (r : nat) (c : core) : bool :=
  negb (past r c) && master c.

(** What the tail of [entry] may assume about [error] and [activate]. *)
Definition exit_ok (s : shared World) (c : core) : Prop :=
  match pc c with
  | Finish => error s <> 0 \/ activate s = true
  | Shutdown => error s <> 0 /\ master c = true
  | Restore => error s <> 0
  | Returned e => error s <> 0 /\ e = error s
  | Activated => error s = 0 /\ activate s = true
  | _ => True
  end.

(** The invariant, for a machine booted with the cores [cpus]. *)
Record inv (cpus : list (Z * per_cpu)) (st : state World) : Prop := {
  inv_ids : map arg_cpu_id (cores st) = map fst cpus;
  inv_lock : count_if in_lock (cores st) = b2n (init_lock st);
  inv_entered : entered_cpus (sh st) = Z.of_nat (count_if (past 3) (cores st));
  inv_barrier1 :
    count_if (past 4) (cores st) = 0%nat \/
    count_if (past 3) (cores st) = length cpus;
  inv_no_master :
    master_cpu_id (sh st) = INVALID_CPU_ID P ->
    count_if master (cores st) = 0%nat /\
    count_if (past 6) (cores st) = 0%nat /\
    error (sh st) = 0 /\ initialized_cpus (sh st) = 0;
  inv_master :
    master_cpu_id (sh st) <> INVALID_CPU_ID P ->
    count_if master (cores st) = 1%nat;
  inv_master_elected : count_if (master_before 6) (cores st) = 0%nat;
  inv_initialized :
    0 <= initialized_cpus (sh st) <= Z.of_nat (count_if (past 7) (cores st)) /\
    (error (sh st) = 0 ->
     initialized_cpus (sh st) = Z.of_nat (count_if (past 7) (cores st)));
  inv_barrier2 :
    error (sh st) = 0 ->
    count_if (past 8) (cores st) = 0%nat \/
    count_if (past 7) (cores st) = length cpus;
  inv_activate :
    activate (sh st) = true ->
    error (sh st) = 0 /\
    count_if (past 7) (cores st) = length cpus /\
    count_if (master_before 10) (cores st) = 0%nat;
  inv_exit : Forall (exit_ok (sh st)) (cores st)
}.

(** The two ways [cpu_init] can end: the core is counted in
    [initialized_cpus] and [error] is left alone, or the counter is left
    alone and [error] holds a non-zero code. *)
Definition counted_or_failed (s s' : shared World) : Prop :=
  exists evs,
    trace s' = trace s ++ evs /\ plain_events evs /\
    master_cpu_id s' = master_cpu_id s /\
    entered_cpus s' = entered_cpus s /\
    activate s' = activate s /\
    ((initialized_cpus s' = wrap32 (initialized_cpus s + 1) /\
      error s' = error s) \/
     (initialized_cpus s' = initialized_cpus s /\ error s' <> 0)).

(** What the trace holds about a core in the tail of [entry]: the master
    called [shutdown] before it restores, and a core that returned [e]
    restored its own CPU with [e] before, the master after [shutdown]. *)
Definition exit_trace (t : list event) (c : core) : Prop :=
  match pc c with
  | Restore => master c = true -> In shutdown (calls t)
  | Returned e =>
      exists t1 t2 r,
        t = t1 ++ (arch_cpu_restore (arg_cpu_id c) e, r) :: t2 /\
        (master c = true -> In shutdown (calls t1))
  | _ => True
  end.

(** The invariant that ties the trace and the identifiers to the
    protocol. *)
Record trace_inv (st : state World) : Prop := {
  tinv_master_id :
    Forall (fun c => master c = true -> arg_cpu_id c = master_cpu_id (sh st))
      (cores st);
  tinv_early :
    count_if is_dbg_write_init (calls (trace (sh st)))
    = (if master_cpu_id (sh st) =? INVALID_CPU_ID P then 0%nat else 1%nat);
  tinv_late :
    count_if is_late_done (calls (trace (sh st))) = b2n (activate (sh st));
  tinv_vmm :
    count_if is_activate_vmm (calls (trace (sh st)))
    = count_if is_activated (cores st);
  tinv_exit : Forall (exit_trace (trace (sh st))) (cores st)
}.

(** How many program points the cores still have to pass. *)
Fixpoint remaining (l : list core) : nat :=
  match l with
  | [] => 0
  | c :: l' => ((13 - rank (pc c)) + remaining l')%nat
  end.

Definition running (c : core) : bool := negb (terminal (pc c)).

(** [s'] comes from [s] by calls to collaborators and assignments to
    [error] only, the calls leaving the events [evs]. *)
Definition advance (s s' : shared World) (evs : list event) : Prop :=
  sync_vars s' = sync_vars s /\
  system_config s' = system_config s /\
  virtual_console s' = virtual_console s /\
  root_cell_config s' = root_cell_config s /\
  trace s' = trace s ++ evs.

(** *** Vocabulary of the further properties *)

(** [hypervisor_header] as lines 291-298 initialise it, restricted to the
    fields the routines read: [core_size] is the distance from
    [JAILHOUSE_BASE] to [__page_pool].  The initialiser leaves [max_cpus],
    [online_cpus] and [debug_console_base] to the loader, which writes
    them before [entry] runs; they are parameters here. *)
Definition hypervisor_header (page_pool max online dbg : Z) : jailhouse_header :=
  {| core_size := wrap64 (page_pool - JAILHOUSE_BASE P);
     max_cpus := max; online_cpus := online; debug_console_base := dbg |}.

(** Where [init_early] finds the system configuration. *)
Definition system_config_address : Z :=
  wrap64 (JAILHOUSE_BASE P
          + wrap64 (core_size H + wrap64 (sizeof_per_cpu P * max_cpus H))).

(** The hypervisor memory region of the configuration: its page-sized
    slots end below [2^64], and [fuel] iterations are enough for the loop
    of lines 84-94 to visit them all. *)
Definition backing_fits (fuel : nat) : Prop :=
  let mem := hypervisor_memory (config_at X system_config_address) in
  let slots := page_slots (mem_phys_start mem) (mem_size mem) in
  0 < PAGE_SIZE P /\ 0 <= mem_phys_start mem /\ 0 <= mem_size mem /\
  mem_phys_start mem + Z.of_nat (length slots) * PAGE_SIZE P < 2 ^ 64 /\
  (length slots < fuel)%nat.

(** The per-CPU record as lines 109-115 of [cpu_init] set it up. *)
Definition cpu_init_record (cd : per_cpu) (w : World) : per_cpu :=
  set_pg_structs
    {| hv_paging := true; root_paging := hv_root_paging X w;
       root_table := root_table_page cd |}
    (set_cell (Some root_cell) cd).

(** The calls of [cpu_init] whose result decides whether it goes on, in
    the order of lines 117-157; [mmio] tells whether the debug console is
    memory-mapped. *)
Definition cpu_init_steps (cd : per_cpu) (mmio : bool) : list call :=
  [paging_create_hvpt_link (pg_structs cd) (JAILHOUSE_BASE P)]
  ++ (if CONFIG_PAGE_TABLE_PROTECTION P
      then [paging_create_hvpt_link (pg_structs cd) (PGP_RO_BUF_VIRT P)]
      else [])
  ++ (if mmio
      then [paging_create_hvpt_link (pg_structs cd) (debug_console_base H)]
      else [])
  ++ [paging_create (pg_structs cd) (paging_hvirt2phys P (cd_hvirt cd))
        (sizeof_per_cpu P) (LOCAL_CPU_BASE P) (PAGE_DEFAULT_FLAGS P)
        (Z.lor (PAGING_NON_COHERENT P) (PAGING_HUGE P));
      arch_cpu_init cd;
      paging_create (pg_structs cd) 0
        (wrap64 (NUM_TEMPORARY_PAGES P * PAGE_SIZE P))
        (TEMPORARY_MAPPING_BASE P) (PAGE_NONPRESENT_FLAGS P)
        (Z.lor (PAGING_NON_COHERENT P) (PAGING_NO_HUGE P))].

(** [s'] comes from [s] by performing [steps] in order until one of them
    returns a non-zero code: either all of them returned [0], the last
    message is [OK] and the core is counted, or the code of the first
    failing step is in [error], the last message is [FAILED] and the
    counter is left alone.  Console messages may come in between. *)
Definition stops_at_first_failure (steps : list call) (s s' : shared World)
  : Prop :=
  exists evs,
    trace s' = trace s ++ evs /\
    master_cpu_id s' = master_cpu_id s /\
    entered_cpus s' = entered_cpus s /\
    activate s' = activate s /\
    ((work evs = succeeded steps /\
      (exists pre r, evs = pre ++ [(printk "OK\n" [], r)]) /\
      initialized_cpus s' = wrap32 (initialized_cpus s + 1) /\
      error s' = error s) \/
     (exists done c rest,
        steps = done ++ c :: rest /\
        work evs = succeeded done ++ [(c, error s')] /\
        error s' <> 0 /\
        (exists pre r, evs = pre ++ [(printk "FAILED\n" [], r)]) /\
        initialized_cpus s' = initialized_cpus s)).

(** What the protocol keeps true of every core beyond [inv]: the per-CPU
    record carries the identifier passed to [entry] from the first
    statement on; after a [cpu_init] that left [error] at zero the record
    is set up; a master that waits for [activate] does so with [error]
    set. *)
Definition core_ok (s : shared World) (c : core) : Prop :=
  (past 1 c = true -> cpu_id (cpu_data c) = arg_cpu_id c) /\
  (past 7 c = true -> error s = 0 -> record_ready (cpu_data c)) /\
  (pc c = WaitActivate -> master c = true -> error s <> 0).

(** How often the trace holds the calls that end the boot. *)
Record exit_calls (st : state World) : Prop := {
  xc_shutdown :
    count_if is_shutdown (calls (trace (sh st)))
    = count_if has_shut_down (cores st);
  xc_restore :
    count_if is_restore (calls (trace (sh st)))
    = count_if is_returned (cores st);
  xc_commit :
    count_if is_config_commit (calls (trace (sh st)))
    = b2n (activate (sh st))
}.

(** The phases do not interleave: no call of [init_early] comes after a
    call of [cpu_init] or [init_late], and no call of [cpu_init] after a
    call of [init_late]; a call of [cpu_init] or [init_late] comes after
    the last statements of [init_early]. *)
Definition in_order (t : list event) : Prop :=
  forall t1 c r t2,
    t = t1 ++ (c, r) :: t2 ->
    (early_only c = true -> no_calls cpu_only t1 /\ no_calls late_only t1) /\
    (cpu_only c = true -> no_calls late_only t1) /\
    (cpu_only c = true \/ late_only c = true ->
     In (paging_dump_stats "after early setup") (calls t1)).

(** How the trace is made of the phases of the boot. *)
Record phase_inv (st : state World) : Prop := {
  ph_none :
    master_cpu_id (sh st) = INVALID_CPU_ID P ->
    no_calls cpu_only (trace (sh st)) /\ no_calls late_only (trace (sh st));
  ph_early_done :
    master_cpu_id (sh st) <> INVALID_CPU_ID P -> error (sh st) = 0 ->
    In (paging_dump_stats "after early setup") (calls (trace (sh st)));
  ph_late :
    no_calls late_only (trace (sh st)) \/
    (count_if (past 7) (cores st) = length (cores st) /\
     (1 <= count_if late_run (cores st))%nat);
  ph_order : in_order (trace (sh st));
  ph_units :
    exists done rest,
      units X = done ++ rest /\
      List.filter is_unit_init (calls (trace (sh st))) = map unit_init done /\
      (In config_commit (calls (trace (sh st))) -> rest = []);
  ph_cpu :
    initialized_cpus (sh st)
    <= Z.of_nat (count_if arch_cpu_init_ok (trace (sh st))) /\
    (count_if is_arch_cpu_init (calls (trace (sh st)))
     <= count_if (past 7) (cores st))%nat
}.

(** A scheduler may pick any core at any time: a core that has left
    [entry], or an index that names no core, does nothing. *)
Definition step_or_stay (fuel : nat) (i : nat) (st : state World) : state World :=
  match step fuel i st with
  | Some st' => st'
  | None => st
  end.

Fixpoint run_any (fuel : nat) (sched : list nat) (st : state World) : state World :=
  match sched with
  | [] => st
  | i :: sched' => run_any fuel sched' (step_or_stay fuel i st)
  end.

(** A stretch of a schedule in which each of [n] cores gets a turn. *)
Definition covering (n : nat) (round : list nat) : Prop :=
  forall i, (i < n)%nat -> In i round.

(** ** Properties of the sequential routines *)

(** *** Integers and lists *)

Lemma nonzero_true z : nonzero z = true <-> z <> 0.
Proof. unfold nonzero. destruct (Z.eqb_spec z 0); simpl; split; intros; congruence. Qed.

Lemma nonzero_false z : nonzero z = false <-> z = 0.
Proof. unfold nonzero. destruct (Z.eqb_spec z 0); simpl; split; intros; congruence. Qed.

Lemma wrap32_small z : 0 <= z < 2 ^ 32 -> wrap32 z = z.
Proof. intros. unfold wrap32. apply Z.mod_small. lia. Qed.

Lemma wrap64_small z : 0 <= z < 2 ^ 64 -> wrap64 z = z.
Proof. intros. unfold wrap64. apply Z.mod_small. lia. Qed.

Lemma count_cpus_from (l : list Z) : forall acc,
  0 <= acc -> acc + Z.of_nat (length l) < 2 ^ 32 ->
  fold_left (fun expected_cpus _ => wrap32 (expected_cpus + 1)) l acc
  = acc + Z.of_nat (length l).
Proof.
  induction l as [|x l IH]; intros acc Hacc Hlt; simpl in *.
  - lia.
  - rewrite wrap32_small by lia. rewrite IH by lia. lia.
Qed.

Lemma count_cpus_length (l : list Z) :
  Z.of_nat (length l) < 2 ^ 32 -> count_cpus l = Z.of_nat (length l).
Proof. intros. unfold count_cpus. rewrite count_cpus_from; lia. Qed.

Lemma count_if_app {A} (p : A -> bool) (l1 l2 : list A) :
  count_if p (l1 ++ l2) = (count_if p l1 + count_if p l2)%nat.
Proof. induction l1 as [|x l1 IH]; simpl; [reflexivity|]. rewrite IH. lia. Qed.

Lemma calls_app t1 t2 : calls (t1 ++ t2) = calls t1 ++ calls t2.
Proof. apply map_app. Qed.

Lemma calls_cons c r t : calls ((c, r) :: t) = c :: calls t.
Proof. reflexivity. Qed.

Lemma slots_from_S virt n :
  slots_from virt (S n) = virt :: slots_from (virt + PAGE_SIZE P) n.
Proof.
  unfold slots_from. simpl. f_equal; [lia|].
  rewrite <- seq_shift, map_map. apply map_ext. intros k. lia.
Qed.

Lemma slots_from_length virt n : length (slots_from virt n) = n.
Proof. unfold slots_from. rewrite length_map. apply length_seq. Qed.

(** *** Calls and assignments *)

Lemma advance_refl s : advance s s [].
Proof. unfold advance. rewrite app_nil_r. auto. Qed.

Lemma advance_trans s1 s2 s3 e1 e2 :
  advance s1 s2 e1 -> advance s2 s3 e2 -> advance s1 s3 (e1 ++ e2).
Proof.
  unfold advance. intros (A1 & A2 & A3 & A4 & A5) (B1 & B2 & B3 & B4 & B5).
  rewrite B1, B2, B3, B4, B5, A5, app_assoc. auto.
Qed.

Lemma advance_invoke_ c s :
  advance s (invoke_ c s) [(c, fst (extern X c (world s)))].
Proof. unfold advance. simpl. auto. Qed.

Lemma error_invoke_ c s : error (invoke_ c s) = error s.
Proof. reflexivity. Qed.

Lemma advance_error_from c s :
  advance s (error_from c s) [(c, error (error_from c s))].
Proof. unfold advance. simpl. auto. Qed.

Lemma advance_set_error e s : advance s (set_error e s) [].
Proof. unfold advance. simpl. rewrite app_nil_r. auto. Qed.

Lemma advance_step s1 s2 s3 e1 e2 e :
  advance s1 s2 e1 -> advance s2 s3 e2 -> e = e1 ++ e2 -> advance s1 s3 e.
Proof. intros ? ? ->. eapply advance_trans; eauto. Qed.

(** *** The loops *)

(** A run of calls either performs all of them, each returning [0], or
    stops at the first one that returns a non-zero code, which is then in
    [error]. *)
Lemma call_each_outcome cs : forall s,
  match call_each cs s with
  | Next s' =>
      advance s s' (succeeded cs) /\ (cs = [] -> error s' = error s) /\
      (cs <> [] -> error s' = 0)
  | Return s' =>
      exists done c rest,
        cs = done ++ c :: rest /\ error s' <> 0 /\
        advance s s' (succeeded done ++ [(c, error s')])
  end.
Proof.
  induction cs as [|c cs IH]; intros s; cbn [call_each].
  - split; [apply advance_refl|]. split; congruence.
  - destruct (nonzero (error (error_from c s))) eqn:E.
    + exists [], c, cs. simpl. split; [reflexivity|].
      split; [now apply nonzero_true|]. apply advance_error_from.
    + apply nonzero_false in E. specialize (IH (error_from c s)).
      destruct (call_each cs (error_from c s)) as [s'|s'].
      * destruct IH as (A & B & C). split.
        { eapply advance_step; [apply advance_error_from|exact A|].
          rewrite E. reflexivity. }
        split; [congruence|]. intros _.
        destruct cs; [rewrite B by reflexivity; exact E|apply C; congruence].
      * destruct IH as (done & c' & rest & -> & Hne & A).
        exists (c :: done), c', rest. split; [reflexivity|]. split; [exact Hne|].
        eapply advance_step; [apply advance_error_from|exact A|].
        rewrite E. reflexivity.
Qed.

Lemma map_regions_call_each mems : forall s,
  map_regions mems s = call_each (map region_call mems) s.
Proof.
  induction mems as [|m mems IH]; intros s; cbn [map_regions map call_each];
    [reflexivity|].
  rewrite IH. reflexivity.
Qed.

Lemma virtual_console_error_from c s :
  virtual_console (error_from c s) = virtual_console s.
Proof. reflexivity. Qed.

(** With enough fuel and no wrap-around, the loop of lines 84-94 is the run
    of one [arch_map_memory_region] per page slot. *)
Lemma map_hv_pages_call_each n : forall fuel hyp_phys_end virt s,
  (n < fuel)%nat ->
  0 < PAGE_SIZE P -> 0 <= virt ->
  virt + Z.of_nat n * PAGE_SIZE P < 2 ^ 64 ->
  hyp_phys_end <= virt + Z.of_nat n * PAGE_SIZE P ->
  (n <> 0%nat -> virt + (Z.of_nat n - 1) * PAGE_SIZE P < hyp_phys_end) ->
  map_hv_pages fuel hyp_phys_end virt s
  = Some (call_each
            (map (fun v => arch_map_memory_region (hv_page_at (virtual_console s) v))
               (slots_from virt n)) s).
Proof.
  induction n as [|n IH]; intros fuel hend virt s Hfuel Hpage Hvirt Hmax Hend Hlast;
    (destruct fuel as [|fuel]; [lia|]); cbn [map_hv_pages].
  - destruct (Z.ltb_spec virt hend); [lia|reflexivity].
  - destruct (Z.ltb_spec virt hend) as [Hlt|Hge].
    2:{ specialize (Hlast ltac:(lia)). nia. }
    rewrite slots_from_S. cbn [map call_each].
    destruct (nonzero _) eqn:E; [reflexivity|].
    rewrite wrap64_small by nia.
    rewrite IH; try lia; try nia.
    reflexivity.
Qed.

Lemma page_count_bounds size :
  0 < PAGE_SIZE P -> 0 <= size ->
  let n := Z.of_nat (Z.to_nat ((size + PAGE_SIZE P - 1) / PAGE_SIZE P)) in
  size <= n * PAGE_SIZE P /\ (n - 1) * PAGE_SIZE P < size /\ 0 <= n.
Proof.
  intros Hp Hs n. subst n.
  assert (0 <= (size + PAGE_SIZE P - 1) / PAGE_SIZE P)
    by (apply Z.div_pos; lia).
  rewrite Z2Nat.id by assumption.
  pose proof (Z.div_mod (size + PAGE_SIZE P - 1) (PAGE_SIZE P) ltac:(lia)).
  pose proof (Z.mod_pos_bound (size + PAGE_SIZE P - 1) (PAGE_SIZE P) Hp).
  nia.
Qed.


Lemma init_early_backing_call_each fuel s :
  let mem := hypervisor_memory (the_config s) in
  let slots := page_slots (mem_phys_start mem) (mem_size mem) in
  0 < PAGE_SIZE P -> 0 <= mem_phys_start mem -> 0 <= mem_size mem ->
  mem_phys_start mem + Z.of_nat (length slots) * PAGE_SIZE P < 2 ^ 64 ->
  (length slots < fuel)%nat ->
  map_hv_pages fuel (wrap64 (mem_phys_start mem + mem_size mem))
    (mem_phys_start mem) s
  = Some (call_each
            (map (fun v => arch_map_memory_region (hv_page_at (virtual_console s) v))
               slots) s).
Proof.
  intros mem slots Hp Hstart Hsize Hfit Hfuel. subst slots.
  unfold page_slots in *. rewrite slots_from_length in Hfuel, Hfit.
  destruct (page_count_bounds (mem_size mem) Hp Hsize) as (B1 & B2 & B3).
  rewrite wrap64_small by lia.
  apply map_hv_pages_call_each; try assumption; try lia.
Qed.


Ltac trace_shape :=
  simpl; rewrite <- ?app_assoc; simpl; reflexivity.

Ltac plain_shape :=
  unfold plain_events; repeat (constructor; [reflexivity|]); constructor.

(** How [init_early] reaches the loop: [master_cpu_id], [system_config]
    and [virtual_console] are set first; then either one of [paging_init],
    [cell_init], [arch_init_early] fails and [init_early] returns without
    having mapped anything, or the rest of the routine is
    [init_early_backing], entered with [error = 0]. *)
Lemma init_early_reaches_backing fuel cpu s :
  exists s3 evs,
    master_cpu_id s3 = cpu /\
    system_config s3
    = wrap64 (JAILHOUSE_BASE P
              + wrap64 (core_size H + wrap64 (sizeof_per_cpu P * max_cpus H))) /\
    virtual_console s3
    = SYS_FLAGS_VIRTUAL_DEBUG_CONSOLE P (sys_flags (the_config s3)) /\
    trace s3 = trace s ++ evs /\ mappings evs = [] /\
    ((init_early fuel cpu s = Some s3 /\ error s3 <> 0) \/
     (init_early fuel cpu s = init_early_backing fuel s3 /\ error s3 = 0)).
Proof.
  unfold init_early. cbv zeta.
  repeat match goal with
         | |- context [if nonzero ?e then _ else _] =>
             let E := fresh "E" in
             destruct (nonzero e) eqn:E;
             [apply nonzero_true in E|apply nonzero_false in E]
         end;
    eexists; eexists;
    (split; [|split; [|split; [|split; [|split;
       [|first [left; split; [reflexivity|assumption]
               |right; split; [reflexivity|assumption]]]]]]]);
    try reflexivity; try trace_shape.
Qed.

(** *** [cpu_init] *)

Lemma cpu_init_failed_spec err s :
  exists r,
    advance s (cpu_init_failed err s) [(printk "FAILED\n" [], r)] /\
    error (cpu_init_failed err s) = err.
Proof. eexists. split; [|reflexivity]. unfold advance. simpl. auto. Qed.

(** C8. Per-Core Init on a record whose [cpu_id] is not valid fails at
    once with [-EINVAL]: [error] becomes [-EINVAL], no shared counter (nor
    [master_cpu_id] or [activate]) changes, the per-CPU record is left as
    it was (no cell pointer, no paging structures) and the only calls made
    are the two console messages. *)
Theorem cpu_init_invalid_id cd s :
  cpu_id_valid P (cpu_id cd) = false ->
  exists r1 r2,
    fst (cpu_init cd s) = cd /\
    error (snd (cpu_init cd s)) = - EINVAL P /\
    entered_cpus (snd (cpu_init cd s)) = entered_cpus s /\
    initialized_cpus (snd (cpu_init cd s)) = initialized_cpus s /\
    master_cpu_id (snd (cpu_init cd s)) = master_cpu_id s /\
    activate (snd (cpu_init cd s)) = activate s /\
    trace (snd (cpu_init cd s))
    = trace s ++ [(printk " CPU %d... " [PInt (cpu_id cd)], r1);
                  (printk "FAILED\n" [], r2)].
Proof.
  intros Hinv. unfold cpu_init. rewrite Hinv. simpl.
  do 2 eexists. repeat split. rewrite <- app_assoc. reflexivity.
Qed.

Lemma invoke_eq c s :
  invoke c s = (fst (extern X c (world s)), invoke_ c s).
Proof. reflexivity. Qed.

Lemma counted_or_failed_failed err s :
  err <> 0 -> counted_or_failed s (cpu_init_failed err s).
Proof.
  intros Herr. unfold counted_or_failed.
  exists [(printk "FAILED\n" [], fst (extern X (printk "FAILED\n" []) (world s)))].
  split; [reflexivity|]. split; [plain_shape|].
  split; [reflexivity|]. split; [reflexivity|]. split; [reflexivity|].
  right. split; [reflexivity|exact Herr].
Qed.

Lemma counted_or_failed_after c s s' :
  plain c = true ->
  counted_or_failed (invoke_ c s) s' -> counted_or_failed s s'.
Proof.
  intros Hc (evs & Ht & Hp & Hm & He & Ha & Hcase).
  exists ((c, fst (extern X c (world s))) :: evs).
  split; [rewrite Ht; simpl; rewrite <- app_assoc; reflexivity|].
  split; [constructor; assumption|].
  split; [assumption|]. split; [assumption|]. split; [assumption|].
  exact Hcase.
Qed.

Ltac after_call :=
  match goal with
  | |- counted_or_failed ?s ?t =>
      match t with
      | context [invoke_ ?c s] =>
          apply (counted_or_failed_after c s); [reflexivity|]
      end
  end.

Ltac call_or_fail :=
  rewrite invoke_eq; cbv beta iota zeta;
  match goal with
  | |- context [nonzero ?e] =>
      let E := fresh "E" in
      destruct (nonzero e) eqn:E;
      [apply nonzero_true in E; after_call;
       now apply counted_or_failed_failed
      |clear E; after_call]
  end.

Lemma cpu_init_mappings_effect cd s :
  counted_or_failed s (cpu_init_mappings cd s).
Proof.
  unfold cpu_init_mappings. do 3 call_or_fail. after_call.
  exists []. split; [symmetry; apply app_nil_r|]. split; [constructor|].
  split; [reflexivity|]. split; [reflexivity|]. split; [reflexivity|].
  left. split; reflexivity.
Qed.

Lemma cpu_init_console_effect cd s :
  counted_or_failed s (cpu_init_console cd s).
Proof.
  unfold cpu_init_console. destruct (CON_IS_MMIO P _).
  - call_or_fail. apply cpu_init_mappings_effect.
  - apply cpu_init_mappings_effect.
Qed.

Lemma cpu_init_protection_effect cd s :
  counted_or_failed s (cpu_init_protection cd s).
Proof.
  unfold cpu_init_protection. destruct (CONFIG_PAGE_TABLE_PROTECTION P).
  - rewrite invoke_eq; cbv beta iota zeta.
    destruct (nonzero _) eqn:E.
    + apply nonzero_true in E. do 2 after_call.
      now apply counted_or_failed_failed.
    + do 2 after_call. apply cpu_init_console_effect.
  - apply cpu_init_console_effect.
Qed.

(** What [cpu_init] does to the shared variables: it either counts the
    core in [initialized_cpus] and leaves [error] alone, or leaves the
    counter alone and reports a non-zero code. *)
Lemma cpu_init_effect cd s :
  EINVAL P <> 0 -> counted_or_failed s (snd (cpu_init cd s)).
Proof.
  intros HE. unfold cpu_init. cbv zeta.
  apply (counted_or_failed_after (printk " CPU %d... " [PInt (cpu_id cd)]) s);
    [reflexivity|].
  destruct (negb (cpu_id_valid P (cpu_id cd))).
  - cbn [snd]. apply counted_or_failed_failed. lia.
  - rewrite invoke_eq; cbv beta iota zeta.
    destruct (nonzero _) eqn:E; cbn [snd].
    + apply nonzero_true in E. after_call.
      now apply counted_or_failed_failed.
    + after_call. apply cpu_init_protection_effect.
Qed.

(** *** The steps of [cpu_init] *)

Lemma work_app t1 t2 : work (t1 ++ t2) = work t1 ++ work t2.
Proof. apply List.filter_app. Qed.

Lemma stops_after_printk f a steps s s' :
  stops_at_first_failure steps (invoke_ (printk f a) s) s' ->
  stops_at_first_failure steps s s'.
Proof.
  intros (evs & Ht & Hm & He & Ha & Hcase).
  exists ((printk f a, fst (extern X (printk f a) (world s))) :: evs).
  split; [rewrite Ht; simpl; rewrite <- app_assoc; reflexivity|].
  do 3 (split; [assumption|]).
  destruct Hcase as [(Hw & (pre & r & ->) & Hi & Herr)
                    |(done & c & rest & Hs & Hw & Hne & (pre & r & ->) & Hi)].
  - left. split; [exact Hw|]. split; [|split; assumption].
    eexists (_ :: pre), r. reflexivity.
  - right. exists done, c, rest. do 3 (split; [assumption|]).
    split; [|assumption]. eexists (_ :: pre), r. reflexivity.
Qed.

Lemma stops_after_call c steps s s' :
  is_printk c = false -> fst (extern X c (world s)) = 0 ->
  stops_at_first_failure steps (invoke_ c s) s' ->
  stops_at_first_failure (c :: steps) s s'.
Proof.
  intros Hc H0 (evs & Ht & Hm & He & Ha & Hcase).
  exists ((c, 0) :: evs).
  split; [rewrite Ht; simpl; rewrite H0, <- app_assoc; reflexivity|].
  do 3 (split; [assumption|]).
  assert (Hwork : forall l, work ((c, 0) :: l) = (c, 0) :: work l).
  { intros l. unfold work. simpl. rewrite Hc. reflexivity. }
  destruct Hcase as [(Hw & (pre & r & ->) & Hi & Herr)
                    |(done & c1 & rest & Hs & Hw & Hne & (pre & r & ->) & Hi)].
  - left. split; [rewrite Hwork, Hw; reflexivity|]. split; [|split; assumption].
    eexists (_ :: pre), r. reflexivity.
  - right. exists (c :: done), c1, rest. split; [rewrite Hs; reflexivity|].
    split; [rewrite Hwork, Hw; reflexivity|]. split; [assumption|].
    split; [|assumption]. eexists (_ :: pre), r. reflexivity.
Qed.

Lemma stops_at_failed c steps msgs s :
  is_printk c = false -> fst (extern X c (world s)) <> 0 ->
  Forall (fun m => is_printk m = true) msgs ->
  stops_at_first_failure (c :: steps) s
    (cpu_init_failed (fst (extern X c (world s)))
       (fold_left (fun s m => invoke_ m s) msgs (invoke_ c s))).
Proof.
  intros Hc Hne Hmsgs.
  assert (Hfold : forall s0,
            exists evs,
              work evs = [] /\
              let s1 := fold_left (fun s m => invoke_ m s) msgs s0 in
              trace s1 = trace s0 ++ evs /\
              master_cpu_id s1 = master_cpu_id s0 /\
              entered_cpus s1 = entered_cpus s0 /\
              activate s1 = activate s0 /\
              initialized_cpus s1 = initialized_cpus s0 /\
              world s1 = world (fold_left (fun s m => invoke_ m s) msgs s0)).
  { induction Hmsgs as [|m msgs Hm _ IH]; intros s0.
    - exists []. simpl. rewrite app_nil_r. auto 10.
    - destruct (IH (invoke_ m s0)) as (evs & Hw & Ht & H1 & H2 & H3 & H4 & _).
      eexists ((m, _) :: evs). split; [unfold work; simpl; rewrite Hm; exact Hw|].
      cbn [fold_left]. cbv zeta. rewrite Ht.
      split; [simpl; rewrite <- app_assoc; reflexivity|]. auto. }
  destruct (Hfold (invoke_ c s)) as (evs & Hw & Ht & H1 & H2 & H3 & H4 & _).
  cbv zeta in Ht.
  eexists ((c, _) :: evs ++ [(printk "FAILED\n" [], _)]).
  split; [unfold cpu_init_failed; simpl; rewrite Ht; simpl;
          rewrite <- !app_assoc; reflexivity|].
  split; [exact H1|]. split; [exact H2|]. split; [exact H3|].
  right. exists [], c, steps. split; [reflexivity|]. split.
  { unfold work. simpl. rewrite Hc. simpl. fold (work (evs ++ [(printk "FAILED\n" [], fst (extern X (printk "FAILED\n" []) (world (fold_left (fun s m => invoke_ m s) msgs (invoke_ c s)))))])).
    rewrite work_app, Hw. reflexivity. }
  split; [exact Hne|]. split; [|exact H4].
  eexists (_ :: evs), _. reflexivity.
Qed.

Lemma stops_counted s :
  stops_at_first_failure [] s
    (set_initialized_cpus
       (wrap32 (initialized_cpus (invoke_ (printk "OK\n" []) s) + 1))
       (invoke_ (printk "OK\n" []) s)).
Proof.
  eexists. split; [reflexivity|]. do 3 (split; [reflexivity|]).
  left. split; [reflexivity|]. split; [|split; reflexivity].
  exists []. eexists. reflexivity.
Qed.

(** One step of [cpu_init]: the call, and [goto failed] on a non-zero
    result. *)
Ltac step_or_fail :=
  rewrite invoke_eq; cbv beta iota zeta;
  match goal with
  | |- context [nonzero ?e] =>
      let E := fresh "E" in
      destruct (nonzero e) eqn:E;
      [apply nonzero_true in E;
       apply (stops_at_failed _ _ []); [reflexivity|exact E|constructor]
      |apply nonzero_false in E;
       apply stops_after_call; [reflexivity|exact E|]]
  end.

Lemma cpu_init_mappings_steps cd s :
  stops_at_first_failure
    [paging_create (pg_structs cd) (paging_hvirt2phys P (cd_hvirt cd))
       (sizeof_per_cpu P) (LOCAL_CPU_BASE P) (PAGE_DEFAULT_FLAGS P)
       (Z.lor (PAGING_NON_COHERENT P) (PAGING_HUGE P));
     arch_cpu_init cd;
     paging_create (pg_structs cd) 0
       (wrap64 (NUM_TEMPORARY_PAGES P * PAGE_SIZE P))
       (TEMPORARY_MAPPING_BASE P) (PAGE_NONPRESENT_FLAGS P)
       (Z.lor (PAGING_NON_COHERENT P) (PAGING_NO_HUGE P))]
    s (cpu_init_mappings cd s).
Proof.
  unfold cpu_init_mappings. do 3 step_or_fail. apply stops_counted.
Qed.

Lemma cpu_init_console_steps cd s :
  stops_at_first_failure
    ((if CON_IS_MMIO P (debug_console_flags (the_config s))
      then [paging_create_hvpt_link (pg_structs cd) (debug_console_base H)]
      else [])
     ++ [paging_create (pg_structs cd) (paging_hvirt2phys P (cd_hvirt cd))
           (sizeof_per_cpu P) (LOCAL_CPU_BASE P) (PAGE_DEFAULT_FLAGS P)
           (Z.lor (PAGING_NON_COHERENT P) (PAGING_HUGE P));
         arch_cpu_init cd;
         paging_create (pg_structs cd) 0
           (wrap64 (NUM_TEMPORARY_PAGES P * PAGE_SIZE P))
           (TEMPORARY_MAPPING_BASE P) (PAGE_NONPRESENT_FLAGS P)
           (Z.lor (PAGING_NON_COHERENT P) (PAGING_NO_HUGE P))])
    s (cpu_init_console cd s).
Proof.
  unfold cpu_init_console. destruct (CON_IS_MMIO P _); cbn [app].
  - step_or_fail. apply cpu_init_mappings_steps.
  - apply cpu_init_mappings_steps.
Qed.

Lemma cpu_init_protection_steps cd s :
  stops_at_first_failure
    ((if CONFIG_PAGE_TABLE_PROTECTION P
      then [paging_create_hvpt_link (pg_structs cd) (PGP_RO_BUF_VIRT P)]
      else [])
     ++ (if CON_IS_MMIO P (debug_console_flags (the_config s))
         then [paging_create_hvpt_link (pg_structs cd) (debug_console_base H)]
         else [])
     ++ [paging_create (pg_structs cd) (paging_hvirt2phys P (cd_hvirt cd))
           (sizeof_per_cpu P) (LOCAL_CPU_BASE P) (PAGE_DEFAULT_FLAGS P)
           (Z.lor (PAGING_NON_COHERENT P) (PAGING_HUGE P));
         arch_cpu_init cd;
         paging_create (pg_structs cd) 0
           (wrap64 (NUM_TEMPORARY_PAGES P * PAGE_SIZE P))
           (TEMPORARY_MAPPING_BASE P) (PAGE_NONPRESENT_FLAGS P)
           (Z.lor (PAGING_NON_COHERENT P) (PAGING_NO_HUGE P))])
    s (cpu_init_protection cd s).
Proof.
  unfold cpu_init_protection. destruct (CONFIG_PAGE_TABLE_PROTECTION P); cbn [app].
  - rewrite invoke_eq; cbv beta iota zeta.
    destruct (nonzero _) eqn:E.
    + apply nonzero_true in E.
      apply (stops_at_failed _ _ [printk "error in mapping pgp ro buf hvpt link" []]);
        [reflexivity|exact E|repeat constructor].
    + apply nonzero_false in E. apply stops_after_call; [reflexivity|exact E|].
      apply (stops_after_printk "sucess in mapping pgp ro buf hvpt link" []).
      match goal with
      | |- stops_at_first_failure _ ?s0 _ => exact (cpu_init_console_steps cd s0)
      end.
  - apply cpu_init_console_steps.
Qed.

Lemma cpu_init_all_steps cd s :
  cpu_id_valid P (cpu_id cd) = true ->
  let s1 := invoke_ (printk " CPU %d... " [PInt (cpu_id cd)]) s in
  let cd' := cpu_init_record cd (world s1) in
  fst (cpu_init cd s) = cd' /\
  stops_at_first_failure
    (cpu_init_steps cd' (CON_IS_MMIO P (debug_console_flags (the_config s))))
    s (snd (cpu_init cd s)).
Proof.
  intros Hv s1 cd'. unfold cpu_init. cbv zeta. rewrite Hv. cbn [negb].
  fold s1. change (set_pg_structs _ (set_cell (Some root_cell) cd)) with cd'.
  rewrite invoke_eq; cbv beta iota zeta.
  destruct (nonzero _) eqn:E; cbn [fst snd]; (split; [reflexivity|]);
    apply (stops_after_printk " CPU %d... " [PInt (cpu_id cd)]);
    fold s1; unfold cpu_init_steps; cbn [app].
  - apply nonzero_true in E.
    apply (stops_at_failed _ _ []); [reflexivity|exact E|constructor].
  - apply nonzero_false in E. apply stops_after_call; [reflexivity|exact E|].
    match goal with
    | |- stops_at_first_failure _ ?s0 _ => exact (cpu_init_protection_steps cd' s0)
    end.
Qed.

(** X5. [cpu_init] on a valid identifier performs its steps in the order
    of the source and stops at the first that fails.  The per-CPU record
    is linked to the root cell and given its own hypervisor page table
    before the first step.  Either every step returned [0]: the last
    message is [OK], [initialized_cpus] is one more and [error] is
    untouched; or the code of the first failing step is in [error], no
    later step was attempted, the last message is [FAILED] and
    [initialized_cpus] is untouched. *)
Theorem cpu_init_stops_at_first_failure cd s :
  cpu_id_valid P (cpu_id cd) = true ->
  let s1 := invoke_ (printk " CPU %d... " [PInt (cpu_id cd)]) s in
  let cd' := cpu_init_record cd (world s1) in
  let steps :=
    cpu_init_steps cd' (CON_IS_MMIO P (debug_console_flags (the_config s))) in
  let s' := snd (cpu_init cd s) in
  fst (cpu_init cd s) = cd' /\
  cell cd' = Some root_cell /\
  pg_structs cd'
  = {| hv_paging := true; root_paging := hv_root_paging X (world s1);
       root_table := root_table_page cd |} /\
  exists evs,
    trace s' = trace s ++ evs /\
    ((work evs = succeeded steps /\
      (exists pre r, evs = pre ++ [(printk "OK\n" [], r)]) /\
      initialized_cpus s' = wrap32 (initialized_cpus s + 1) /\
      error s' = error s) \/
     (exists done c rest,
        steps = done ++ c :: rest /\
        work evs = succeeded done ++ [(c, error s')] /\
        error s' <> 0 /\
        (exists pre r, evs = pre ++ [(printk "FAILED\n" [], r)]) /\
        initialized_cpus s' = initialized_cpus s)).
Proof.
  intros Hv s1 cd' steps s'.
  destruct (cpu_init_all_steps cd s Hv) as (Hcd & evs & Ht & _ & _ & _ & Hcase).
  split; [exact Hcd|]. split; [reflexivity|]. split; [reflexivity|].
  exists evs. split; [exact Ht|exact Hcase].
Qed.

(** *** [init_late] *)

(** The unit loop either initialises every unit, each returning [0], or
    stops at the first unit whose initialiser fails. *)
Lemma init_units_outcome us : forall s,
  match init_units us s with
  | Next s' =>
      exists evs,
        unit_events us evs /\ advance s s' evs /\
        (us = [] -> error s' = error s) /\ (us <> [] -> error s' = 0)
  | Return s' =>
      exists done u rest evs r,
        us = done ++ u :: rest /\ unit_events done evs /\ error s' <> 0 /\
        advance s s'
          (evs ++ [(printk "Initializing unit: %s\n" [PStr u], r);
                   (unit_init u, error s')])
  end.
Proof.
  induction us as [|u us IH]; intros s; cbn [init_units].
  - exists []. split; [constructor|]. split; [apply advance_refl|].
    split; congruence.
  - set (s1 := invoke_ (printk "Initializing unit: %s\n" [PStr u]) s).
    assert (A1 : advance s (error_from (unit_init u) s1)
                   [(printk "Initializing unit: %s\n" [PStr u],
                     fst (extern X (printk "Initializing unit: %s\n" [PStr u]) (world s)));
                    (unit_init u, error (error_from (unit_init u) s1))]).
    { eapply advance_step;
        [apply advance_invoke_|apply advance_error_from|reflexivity]. }
    destruct (nonzero (error (error_from (unit_init u) s1))) eqn:E.
    + apply nonzero_true in E.
      exists [], u, us, []. eexists. split; [reflexivity|].
      split; [constructor|]. split; [exact E|]. exact A1.
    + apply nonzero_false in E. rewrite E in A1.
      specialize (IH (error_from (unit_init u) s1)).
      destruct (init_units us (error_from (unit_init u) s1)) as [s'|s'].
      * destruct IH as (evs & Hu & A & B & C).
        eexists. split; [constructor; exact Hu|].
        split; [eapply advance_step; [exact A1|exact A|reflexivity]|].
        split; [congruence|]. intros _.
        destruct us; [rewrite B by reflexivity; exact E|apply C; congruence].
      * destruct IH as (done & u' & rest & evs & r & -> & Hu & Hne & A).
        exists (u :: done), u', rest. eexists. exists r.
        split; [reflexivity|]. split; [constructor; exact Hu|].
        split; [exact Hne|].
        eapply advance_step; [exact A1|exact A|reflexivity].
Qed.

Lemma unit_events_plain us evs : unit_events us evs -> plain_events evs.
Proof.
  induction 1; [constructor|]. repeat (constructor; [reflexivity|]). assumption.
Qed.

Lemma region_call_plain m : plain (region_call m) = true.
Proof. unfold region_call. destruct (JAILHOUSE_MEMORY_IS_SUBPAGE P m); reflexivity. Qed.

Lemma succeeded_regions_plain ms : plain_events (succeeded (map region_call ms)).
Proof.
  induction ms; simpl; constructor; [apply region_call_plain|assumption].
Qed.

Lemma plain_events_app e1 e2 :
  plain_events (e1 ++ e2) <-> plain_events e1 /\ plain_events e2.
Proof. apply Forall_app. Qed.

Lemma init_late_commit_spec s :
  exists evs,
    commit_events evs /\ advance s (init_late_commit s) evs /\
    error (init_late_commit s) = error s.
Proof.
  unfold init_late_commit, commit_events.
  destruct (CONFIG_PAGE_TABLE_PROTECTION P).
  - eexists. split; [do 3 eexists; reflexivity|]. split; [|reflexivity].
    unfold advance. simpl. rewrite <- !app_assoc. simpl. auto 6.
  - eexists. split; [do 2 eexists; reflexivity|]. split; [|reflexivity].
    unfold advance. simpl. rewrite <- !app_assoc. simpl. auto 6.
Qed.

Lemma commit_events_have_commit evs :
  commit_events evs -> In config_commit (calls evs).
Proof.
  unfold commit_events. intros (r1 & r2 & Hc).
  destruct (CONFIG_PAGE_TABLE_PROTECTION P).
  - destruct Hc as (r0 & ->). simpl. auto.
  - subst. simpl. auto.
Qed.

Lemma plain_events_no_commit evs :
  plain_events evs -> ~ In config_commit (calls evs).
Proof.
  unfold plain_events, calls. intros Hp Hin. apply in_map_iff in Hin.
  destruct Hin as (e & He & Hin). rewrite Forall_forall in Hp.
  apply list_elem_of_In in Hin. specialize (Hp e Hin). rewrite He in Hp. discriminate.
Qed.

(** C7. When the header's [online_cpus] differs from the number of CPUs in
    the CPU set of the root cell, Late Global Init sets [error] to
    [-EINVAL] and returns at once: the only call it makes is the console
    message of [trace_error], so no unit is initialised, no region is
    mapped or registered and nothing is committed. *)
Theorem init_late_cpu_count_mismatch s :
  let cpu_set := root_cell_cpu_set X (world s) in
  Z.of_nat (length cpu_set) < 2 ^ 32 ->
  online_cpus H <> Z.of_nat (length cpu_set) ->
  error (init_late s) = - EINVAL P /\
  sync_vars (init_late s) = sync_vars s /\
  exists r,
    trace (init_late s)
    = trace s ++ [(printk "%s:%d: returning error %s\n"
                     [PStr "setup.c"; PInt 186; PStr "-EINVAL"], r)].
Proof.
  intros cpu_set Hsmall Hne. unfold init_late. fold cpu_set.
  rewrite count_cpus_length by assumption.
  destruct (Z.eqb_spec (online_cpus H) (Z.of_nat (length cpu_set))); [contradiction|].
  simpl. split; [reflexivity|]. split; [reflexivity|]. eexists. reflexivity.
Qed.

(** C9. Late Global Init, in terms of the calls it makes.  Either the CPU
    count check fails; or a unit initialiser fails, after the units before
    it succeeded; or every unit succeeded and a region operation fails,
    after the regions before it succeeded; or every unit and every region
    succeeded and the configuration is committed.  Regions are taken in
    the order of the configuration, a sub-page region going to
    [mmio_subpage_register] and any other to [arch_map_memory_region].
    [config_commit] is called in the last case only. *)
Theorem init_late_outcomes s :
  let regions := root_mem_regions (config_at X (root_cell_config s)) in
  let s' := init_late s in
  (forall m,
     region_call m =
     if JAILHOUSE_MEMORY_IS_SUBPAGE P m
     then mmio_subpage_register m else arch_map_memory_region m) /\
  exists evs,
    advance s s' evs /\
    ((online_cpus H <> count_cpus (root_cell_cpu_set X (world s)) /\
      plain_events evs /\ error s' = - EINVAL P)
     \/
     (online_cpus H = count_cpus (root_cell_cpu_set X (world s)) /\
      exists done u rest uevs r,
        units X = done ++ u :: rest /\ unit_events done uevs /\ error s' <> 0 /\
        evs = uevs ++ [(printk "Initializing unit: %s\n" [PStr u], r);
                       (unit_init u, error s')])
     \/
     (online_cpus H = count_cpus (root_cell_cpu_set X (world s)) /\
      exists uevs done m rest,
        unit_events (units X) uevs /\
        regions = done ++ m :: rest /\ error s' <> 0 /\
        evs = uevs ++ succeeded (map region_call done)
                   ++ [(region_call m, error s')])
     \/
     (online_cpus H = count_cpus (root_cell_cpu_set X (world s)) /\
      exists uevs cevs,
        unit_events (units X) uevs /\ commit_events cevs /\
        evs = uevs ++ succeeded (map region_call regions) ++ cevs /\
        (units X <> [] \/ regions <> [] -> error s' = 0) /\
        (units X = [] -> regions = [] -> error s' = error s))) /\
    (In config_commit (calls evs) ->
     online_cpus H = count_cpus (root_cell_cpu_set X (world s)) /\
     exists uevs cevs,
       unit_events (units X) uevs /\ commit_events cevs /\
       evs = uevs ++ succeeded (map region_call regions) ++ cevs).
Proof.
  intros regions s'. split; [reflexivity|]. subst s'. unfold init_late.
  destruct (Z.eqb_spec (online_cpus H) (count_cpus (root_cell_cpu_set X (world s))))
    as [Heq|Hne]; cbn [negb].
  2:{ eexists. split; [|split].
      - unfold advance. simpl. auto 6.
      - left. split; [assumption|]. split; [plain_shape|reflexivity].
      - simpl. intros [Hc|[]]. discriminate. }
  pose proof (init_units_outcome (units X) s) as HU.
  destruct (init_units (units X) s) as [s1|s1].
  2:{ destruct HU as (done & u & rest & uevs & r & Hsplit & Hu & Herr & A).
      eexists. split; [exact A|]. split.
      - right. left. split; [assumption|].
        exists done, u, rest, uevs, r. auto.
      - intros Hin. exfalso. revert Hin. apply plain_events_no_commit.
        apply plain_events_app. split; [eapply unit_events_plain; eauto|plain_shape]. }
  destruct HU as (uevs & Hu & A & B & C).
  assert (Hcfg : root_cell_config s1 = root_cell_config s) by apply A.
  rewrite Hcfg. fold regions. rewrite map_regions_call_each.
  pose proof (call_each_outcome (map region_call regions) s1) as HR.
  destruct (call_each (map region_call regions) s1) as [s2|s2].
  2:{ destruct HR as (done & c & rest & Hsplit & Herr & A2).
      apply map_eq_app in Hsplit. destruct Hsplit as (d' & r' & Hs & Hd & Hr).
      destruct r' as [|m r']; [discriminate|]. simpl in Hr.
      injection Hr as Hc Hr. subst done c rest.
      eexists. split; [eapply advance_trans; [exact A|exact A2]|]. split.
      - right. right. left. split; [assumption|].
        exists uevs, d', m, r'. auto.
      - intros Hin. exfalso. revert Hin. apply plain_events_no_commit.
        apply plain_events_app. split; [eapply unit_events_plain; eauto|].
        apply plain_events_app. split; [apply succeeded_regions_plain|].
        constructor; [apply region_call_plain|constructor]. }
  destruct HR as (A2 & B2 & C2).
  destruct (init_late_commit_spec s2) as (cevs & Hc & A3 & E3).
  eexists. split.
  { eapply advance_trans; [exact A|]. eapply advance_trans; [exact A2|exact A3]. }
  split.
  - right. right. right. split; [assumption|].
    exists uevs, cevs. split; [assumption|]. split; [assumption|].
    split; [reflexivity|]. split.
    + rewrite E3. intros [Hn|Hn].
      * destruct regions as [|m ms] eqn:Er.
        { rewrite B2 by reflexivity. auto. }
        { apply C2. simpl. congruence. }
      * apply C2. destruct regions; simpl; congruence.
    + intros Hn1 Hn2. rewrite E3, B2, B by (try rewrite Hn2; auto). reflexivity.
  - intros _. split; [assumption|]. exists uevs, cevs. auto.
Qed.

(** What [init_late] does to the shared variables when it starts with
    [error = 0]: it touches none of the synchronisation variables, and it
    ends either with a non-zero [error] and without committing, or with
    [error = 0] and the commit as its last calls. *)
Lemma init_late_effect s :
  EINVAL P <> 0 -> error s = 0 ->
  exists evs,
    advance s (init_late s) evs /\
    ((error (init_late s) <> 0 /\ plain_events evs) \/
     (error (init_late s) = 0 /\
      exists evs0 cevs,
        evs = evs0 ++ cevs /\ plain_events evs0 /\ commit_events cevs)).
Proof.
  intros HE H0. unfold init_late.
  destruct (Z.eqb_spec (online_cpus H) (count_cpus (root_cell_cpu_set X (world s))))
    as [Heq|Hne]; cbn [negb].
  2:{ eexists. split; [unfold advance; simpl; auto 6|].
      left. split; [simpl; lia|plain_shape]. }
  pose proof (init_units_outcome (units X) s) as HU.
  destruct (init_units (units X) s) as [s1|s1].
  2:{ destruct HU as (done & u & rest & uevs & r & _ & Hu & Herr & A).
      eexists. split; [exact A|]. left. split; [assumption|].
      apply plain_events_app. split; [eapply unit_events_plain; eauto|plain_shape]. }
  destruct HU as (uevs & Hu & A & B & C).
  assert (E1 : error s1 = 0).
  { destruct (units X); [rewrite B by reflexivity; assumption|apply C; congruence]. }
  rewrite map_regions_call_each.
  set (regions := root_mem_regions (config_at X (root_cell_config s1))).
  pose proof (call_each_outcome (map region_call regions) s1) as HR.
  destruct (call_each (map region_call regions) s1) as [s2|s2].
  2:{ destruct HR as (done & c & rest & Hsplit & Herr & A2).
      apply map_eq_app in Hsplit. destruct Hsplit as (d' & r' & _ & Hd & Hr).
      destruct r' as [|m r']; [discriminate|]. simpl in Hr.
      injection Hr as Hc _. subst done c.
      eexists. split; [eapply advance_trans; [exact A|exact A2]|].
      left. split; [assumption|]. apply plain_events_app.
      split; [eapply unit_events_plain; eauto|]. apply plain_events_app.
      split; [apply succeeded_regions_plain|].
      constructor; [apply region_call_plain|constructor]. }
  destruct HR as (A2 & B2 & C2).
  destruct (init_late_commit_spec s2) as (cevs & Hc & A3 & E3).
  eexists. split.
  { eapply advance_trans; [exact A|]. eapply advance_trans; [exact A2|exact A3]. }
  right. split.
  - rewrite E3. destruct regions; [rewrite B2 by reflexivity; exact E1|].
    apply C2. simpl. congruence.
  - exists (uevs ++ succeeded (map region_call regions)), cevs.
    split; [now rewrite app_assoc|]. split; [|assumption].
    apply plain_events_app.
    split; [eapply unit_events_plain; eauto|apply succeeded_regions_plain].
Qed.

(** *** [init_early] *)

Lemma map_hv_pages_effect fuel : forall hyp_phys_end virt s f,
  map_hv_pages fuel hyp_phys_end virt s = Some f ->
  exists evs,
    advance s (match f with Next s' => s' | Return s' => s' end) evs /\
    plain_events evs.
Proof.
  induction fuel as [|fuel IH]; intros hend virt s f; cbn [map_hv_pages];
    [discriminate|].
  destruct (virt <? hend).
  2:{ intros [= <-]. exists []. split; [apply advance_refl|constructor]. }
  set (c := arch_map_memory_region (hv_page_at (virtual_console s) virt)).
  destruct (nonzero (error (error_from c s))).
  - intros [= <-]. eexists. split; [apply advance_error_from|plain_shape].
  - intros Hrec. apply IH in Hrec. destruct Hrec as (evs & A & Hp).
    eexists. split; [eapply advance_trans; [apply advance_error_from|exact A]|].
    constructor; [reflexivity|assumption].
Qed.

Lemma init_early_backing_effect fuel s s' :
  init_early_backing fuel s = Some s' ->
  exists evs, advance s s' evs /\ plain_events evs.
Proof.
  unfold init_early_backing.
  destruct (map_hv_pages _ _ _ s) as [f|] eqn:E; [|discriminate].
  apply map_hv_pages_effect in E. destruct E as (evs & A & Hp).
  destruct f as [s1|s1]; intros [= <-].
  - eexists. split.
    + eapply advance_trans; [exact A|].
      eapply advance_step; [apply advance_invoke_|apply advance_invoke_|reflexivity].
    + apply plain_events_app. split; [assumption|plain_shape].
  - eauto.
Qed.

(** The effect of [init_early] on the shared variables: whatever happens
    later in the routine, [master_cpu_id] is the caller's identifier when
    it returns; the counters and [activate] are untouched; its first call
    is [arch_dbg_write_init]. *)
Lemma init_early_effect fuel cpu s s' :
  init_early fuel cpu s = Some s' ->
  master_cpu_id s' = cpu /\
  entered_cpus s' = entered_cpus s /\
  initialized_cpus s' = initialized_cpus s /\
  activate s' = activate s /\
  exists r evs,
    trace s' = trace s ++ (arch_dbg_write_init, r) :: evs /\ plain_events evs.
Proof.
  unfold init_early.
  repeat match goal with
         | |- context [if nonzero ?e then _ else _] => destruct (nonzero e)
         end;
    try (intros [= <-]; simpl; repeat split;
         do 2 eexists; split; [trace_shape|plain_shape]).
  intros Hb. apply init_early_backing_effect in Hb.
  destruct Hb as (evs & (A1 & _ & _ & _ & A5) & Hp).
  unfold sync_vars in A1. simpl in A1. injection A1 as -> -> -> ->.
  repeat split. rewrite A5. do 2 eexists. split.
  - simpl. rewrite <- !app_assoc. simpl. reflexivity.
  - repeat (constructor; [reflexivity|]). exact Hp.
Qed.

(** *** Further properties of [init_early] *)

(** With [error] at zero before it, the loop of lines 84-94 only maps
    pages; it leaves [error] at zero when it runs to its end and non-zero
    when it returns from inside. *)
Lemma map_hv_pages_outcome fuel : forall hyp_phys_end virt s f,
  map_hv_pages fuel hyp_phys_end virt s = Some f -> error s = 0 ->
  exists ms,
    match f with
    | Next s' =>
        advance s s' (succeeded (map arch_map_memory_region ms)) /\ error s' = 0
    | Return s' =>
        exists m,
          advance s s' (succeeded (map arch_map_memory_region ms)
                        ++ [(arch_map_memory_region m, error s')]) /\
          error s' <> 0
    end.
Proof.
  induction fuel as [|fuel IH]; intros hend virt s f; cbn [map_hv_pages];
    [discriminate|].
  destruct (virt <? hend).
  2:{ intros [= <-] E0. exists []. split; [apply advance_refl|exact E0]. }
  set (m := hv_page_at (virtual_console s) virt).
  destruct (nonzero (error (error_from (arch_map_memory_region m) s))) eqn:E.
  - intros [= <-] _. apply nonzero_true in E. exists [], m.
    split; [apply advance_error_from|exact E].
  - apply nonzero_false in E. intros Hrec _.
    apply IH in Hrec; [|exact E]. destruct Hrec as (ms & Hrec).
    exists (m :: ms). destruct f as [s'|s'].
    + destruct Hrec as (A & E'). split; [|exact E'].
      eapply advance_step; [apply advance_error_from|exact A|].
      rewrite E. reflexivity.
    + destruct Hrec as (m' & A & E'). exists m'. split; [|exact E'].
      eapply advance_step; [apply advance_error_from|exact A|].
      rewrite E. reflexivity.
Qed.

Lemma mappings_app t1 t2 : mappings (t1 ++ t2) = mappings t1 ++ mappings t2.
Proof. apply flat_map_app. Qed.

(** X1. [init_early] stops at the first of [paging_init], [cell_init] and
    [arch_init_early] that fails: the code is in [error], nothing else is
    called and no page is mapped; [root_cell.config] is assigned only
    after [paging_init] succeeded.  In every case [master_cpu_id] is the
    caller, [system_config] is the address after the core and the per-CPU
    area, [virtual_console] is the flag of that configuration, and the
    counters and [activate] are untouched.  When all three succeed the
    rest of the routine is the backing of the hypervisor region, entered
    with [error] at zero. *)
Theorem init_early_stops_at_first_failing_stage fuel cpu s :
  exists r1 r2 r3 r4 s3,
    let prologue :=
      [(arch_dbg_write_init, r1);
       (printk "\nInitializing Jailhouse hypervisor %s on CPU %d\n"
          [PStr "JAILHOUSE_VERSION"; PInt cpu], r2);
       (printk "Code location: %p\n" [PInt (text_start P)], r3);
       (gcov_init, r4)] in
    master_cpu_id s3 = cpu /\
    system_config s3 = system_config_address /\
    virtual_console s3
    = SYS_FLAGS_VIRTUAL_DEBUG_CONSOLE P
        (sys_flags (config_at X system_config_address)) /\
    entered_cpus s3 = entered_cpus s /\
    initialized_cpus s3 = initialized_cpus s /\
    activate s3 = activate s /\
    ((init_early fuel cpu s = Some s3 /\ error s3 <> 0 /\
      root_cell_config s3 = root_cell_config s /\
      trace s3 = trace s ++ prologue ++ [(paging_init, error s3)]) \/
     (init_early fuel cpu s = Some s3 /\ error s3 <> 0 /\
      root_cell_config s3 = system_config_address /\
      trace s3 = trace s ++ prologue
                 ++ [(paging_init, 0); (cell_init, error s3)]) \/
     (init_early fuel cpu s = Some s3 /\ error s3 <> 0 /\
      root_cell_config s3 = system_config_address /\
      trace s3 = trace s ++ prologue
                 ++ [(paging_init, 0); (cell_init, 0);
                     (arch_init_early, error s3)]) \/
     (init_early fuel cpu s = init_early_backing fuel s3 /\ error s3 = 0 /\
      root_cell_config s3 = system_config_address /\
      trace s3 = trace s ++ prologue
                 ++ [(paging_init, 0); (cell_init, 0); (arch_init_early, 0)])).
Proof.
  unfold init_early. cbv zeta.
  match goal with
  | |- context [nonzero (error ?x)] => set (s1 := x)
  end.
  destruct (nonzero (error s1)) eqn:E1.
  { apply nonzero_true in E1. do 4 eexists. exists s1. cbv zeta.
    do 6 (split; [reflexivity|]). left.
    split; [reflexivity|]. split; [exact E1|]. split; [reflexivity|].
    trace_shape. }
  apply nonzero_false in E1.
  set (s2 := error_from cell_init _).
  destruct (nonzero (error s2)) eqn:E2.
  { apply nonzero_true in E2. do 4 eexists. exists s2. cbv zeta.
    do 6 (split; [reflexivity|]). right. left.
    split; [reflexivity|]. split; [exact E2|]. split; [reflexivity|].
    simpl. simpl in E1. rewrite <- !app_assoc. simpl. rewrite E1. reflexivity. }
  apply nonzero_false in E2.
  set (s3 := error_from arch_init_early _).
  destruct (nonzero (error s3)) eqn:E3.
  { apply nonzero_true in E3. do 4 eexists. exists s3. cbv zeta.
    do 6 (split; [reflexivity|]). right. right. left.
    split; [reflexivity|]. split; [exact E3|]. split; [reflexivity|].
    simpl. simpl in E1, E2. rewrite <- !app_assoc. simpl.
    rewrite E1, E2. reflexivity. }
  apply nonzero_false in E3. do 4 eexists. exists s3. cbv zeta.
  do 6 (split; [reflexivity|]). right. right. right.
  split; [reflexivity|]. split; [exact E3|]. split; [reflexivity|].
  simpl. simpl in E1, E2, E3. rewrite <- !app_assoc. simpl.
  rewrite E1, E2, E3. reflexivity.
Qed.

(** The backing of the hypervisor region, entered with [error] at zero,
    ends in one of two ways. *)
Lemma init_early_backing_outcome fuel s s' :
  init_early_backing fuel s = Some s' -> error s = 0 ->
  exists evs ms,
    advance s s' evs /\
    ((error s' = 0 /\
      exists r1 r2,
        evs = succeeded (map arch_map_memory_region ms)
              ++ [(paging_dump_stats "after early setup", r1);
                  (printk "Initializing processors:\n" [], r2)]) \/
     (error s' <> 0 /\
      exists m,
        evs = succeeded (map arch_map_memory_region ms)
              ++ [(arch_map_memory_region m, error s')])).
Proof.
  unfold init_early_backing.
  destruct (map_hv_pages _ _ _ s) as [f|] eqn:E; [|discriminate].
  intros Hs E0. apply map_hv_pages_outcome in E; [|exact E0].
  destruct E as (ms & Hf). destruct f as [s1|s1]; injection Hs as <-.
  - destruct Hf as (A & E1). do 2 eexists. split.
    + eapply advance_trans; [exact A|].
      eapply advance_step; [apply advance_invoke_|apply advance_invoke_|reflexivity].
    + left. split; [exact E1|]. do 2 eexists. reflexivity.
  - destruct Hf as (m & A & E1). do 2 eexists. split; [exact A|].
    right. split; [exact E1|]. exists m. reflexivity.
Qed.

Lemma no_stats_in_mappings ms :
  ~ In (paging_dump_stats "after early setup")
      (calls (succeeded (map arch_map_memory_region ms))).
Proof.
  unfold calls, succeeded. rewrite !map_map. intros Hin.
  apply in_map_iff in Hin. destruct Hin as (x & Hx & _). discriminate.
Qed.

(** X2. [init_early] leaves [error] at zero exactly when it ran to its
    end: whatever [error] held before, it is zero afterwards if and only
    if the statistics of line 96 were printed, and these and the message
    of line 97 are then the last two calls. *)
Theorem init_early_succeeds_iff_it_completes fuel cpu s s' :
  init_early fuel cpu s = Some s' ->
  exists evs,
    trace s' = trace s ++ evs /\
    (error s' = 0 <->
     In (paging_dump_stats "after early setup") (calls evs)) /\
    (error s' = 0 ->
     exists evs0 r1 r2,
       evs = evs0 ++ [(paging_dump_stats "after early setup", r1);
                      (printk "Initializing processors:\n" [], r2)]).
Proof.
  unfold init_early. cbv zeta.
  set (s1 := error_from paging_init _).
  destruct (nonzero (error s1)) eqn:E1.
  { apply nonzero_true in E1. intros [= <-]. eexists.
    split; [trace_shape|]. split; [|contradiction].
    split; [contradiction|]. simpl. intuition discriminate. }
  set (s2 := error_from cell_init _).
  destruct (nonzero (error s2)) eqn:E2.
  { apply nonzero_true in E2. intros [= <-]. eexists.
    split; [trace_shape|]. split; [|contradiction].
    split; [contradiction|]. simpl. intuition discriminate. }
  set (s3 := error_from arch_init_early _).
  destruct (nonzero (error s3)) eqn:E3.
  { apply nonzero_true in E3. intros [= <-]. eexists.
    split; [trace_shape|]. split; [|contradiction].
    split; [contradiction|]. simpl. intuition discriminate. }
  apply nonzero_false in E3. intros Hb.
  apply init_early_backing_outcome in Hb; [|exact E3].
  destruct Hb as (evs & ms & (_ & _ & _ & _ & Htr) & Hcase).
  assert (Ht3 : exists pre,
            trace s3 = trace s ++ pre /\
            ~ In (paging_dump_stats "after early setup") (calls pre)).
  { eexists. split; [trace_shape|]. simpl. intuition discriminate. }
  destruct Ht3 as (pre & Ht3 & Hpre).
  exists (pre ++ evs). split; [rewrite Htr, Ht3, app_assoc; reflexivity|].
  unfold calls in *. rewrite map_app.
  destruct Hcase as [(E0 & r1 & r2 & ->)|(Hne & m & ->)].
  - split.
    + split; [|intros _; exact E0]. intros _.
      apply in_or_app. right. rewrite map_app. apply in_or_app. right.
      simpl. auto.
    + intros _. exists (pre ++ succeeded (map arch_map_memory_region ms)), r1, r2.
      now rewrite app_assoc.
  - split; [|contradiction]. split; [contradiction|]. intros Hin. exfalso.
    apply in_app_or in Hin. destruct Hin as [Hin|Hin]; [auto|].
    rewrite map_app in Hin. apply in_app_or in Hin.
    destruct Hin as [Hin|Hin]; [exact (no_stats_in_mappings ms Hin)|].
    simpl in Hin. destruct Hin as [Hin|[]]. discriminate.
Qed.

(** With the region fitting and enough fuel, the loop is the run of one
    mapping request per slot, so [init_early] returns. *)
Lemma init_early_total fuel :
  backing_fits fuel -> forall cpu s, exists s', init_early fuel cpu s = Some s'.
Proof.
  intros (Hp & Hstart & Hsize & Hfit & Hfuel) cpu s.
  destruct (init_early_reaches_backing fuel cpu s)
    as (s3 & evs & _ & Hcfg & _ & _ & _ & [(E & _)|(E & _)]); [eauto|].
  rewrite E. unfold init_early_backing, the_config.
  fold system_config_address in Hcfg. rewrite Hcfg.
  pose proof (init_early_backing_call_each fuel s3) as Hb.
  cbv zeta in Hb. unfold the_config in Hb. rewrite Hcfg in Hb.
  rewrite (Hb Hp Hstart Hsize Hfit Hfuel).
  destruct (call_each _ s3); eauto.
Qed.

(** X3. [init_early] returns when the hypervisor region fits below [2^64]
    and the loop has fuel for its slots, and it then requests at most one
    mapping per slot of the region. *)
Theorem init_early_terminates fuel cpu s :
  let mem := hypervisor_memory (config_at X system_config_address) in
  backing_fits fuel ->
  exists s' evs,
    init_early fuel cpu s = Some s' /\ trace s' = trace s ++ evs /\
    (length (mappings evs)
     <= length (page_slots (mem_phys_start mem) (mem_size mem)))%nat.
Proof.
  intros mem (Hp & Hstart & Hsize & Hfit & Hfuel). fold mem in Hstart, Hsize, Hfit, Hfuel.
  destruct (init_early_reaches_backing fuel cpu s)
    as (s3 & evs & _ & Hcfg & _ & Htr & Hmap & [(E & _)|(E & _)]).
  { exists s3, evs. split; [exact E|]. split; [exact Htr|].
    rewrite Hmap. simpl. lia. }
  fold system_config_address in Hcfg.
  rewrite E. unfold init_early_backing, the_config. rewrite Hcfg. fold mem.
  pose proof (init_early_backing_call_each fuel s3) as Hb.
  cbv zeta in Hb. unfold the_config in Hb. rewrite Hcfg in Hb. fold mem in Hb.
  rewrite (Hb Hp Hstart Hsize Hfit Hfuel).
  set (slots := page_slots (mem_phys_start mem) (mem_size mem)) in *.
  set (request := fun v => arch_map_memory_region (hv_page_at (virtual_console s3) v)).
  pose proof (call_each_outcome (map request slots) s3) as Hout.
  assert (Hlen : forall l, length (mappings (succeeded (map request l))) = length l).
  { induction l as [|v l IH]; simpl; [reflexivity|]. now rewrite IH. }
  destruct (call_each (map request slots) s3) as [s4|s4].
  - destruct Hout as ((_ & _ & _ & _ & Ht4) & _).
    do 2 eexists. split; [reflexivity|]. split.
    + simpl. rewrite Ht4, Htr, <- !app_assoc. reflexivity.
    + rewrite !mappings_app, !length_app, Hmap, Hlen. simpl. lia.
  - destruct Hout as (done & c & rest & Hsplit & _ & (_ & _ & _ & _ & Ht4)).
    apply map_eq_app in Hsplit. destruct Hsplit as (d' & r' & Hs & Hd & Hr).
    destruct r' as [|v r']; [discriminate|]. simpl in Hr.
    injection Hr as Hc Hr. subst done c rest.
    eexists. exists (evs ++ succeeded (map request d') ++ [(request v, error s4)]).
    split; [reflexivity|]. split.
    + rewrite Ht4, Htr, <- !app_assoc. reflexivity.
    + rewrite !mappings_app, !length_app, Hmap, Hlen, Hs, length_app. simpl. lia.
Qed.

(** X4. A hypervisor region whose end, computed in 64 bits, is not above
    its start (an empty region, or one whose end wraps around) is not
    backed at all: [init_early] returns without a single mapping request,
    and when no stage failed it reports success. *)
Theorem init_early_maps_nothing_for_empty_region fuel cpu s :
  let mem := hypervisor_memory (config_at X system_config_address) in
  fuel <> 0%nat ->
  wrap64 (mem_phys_start mem + mem_size mem) <= mem_phys_start mem ->
  exists s' evs,
    init_early fuel cpu s = Some s' /\ trace s' = trace s ++ evs /\
    mappings evs = [] /\
    (error s' = 0 ->
     exists evs0 r1 r2,
       evs = evs0 ++ [(paging_dump_stats "after early setup", r1);
                      (printk "Initializing processors:\n" [], r2)]).
Proof.
  intros mem Hfuel Hend.
  destruct (init_early_reaches_backing fuel cpu s)
    as (s3 & evs & _ & Hcfg & _ & Htr & Hmap & [(E & Hne)|(E & E0)]).
  { exists s3, evs. split; [exact E|]. split; [exact Htr|].
    split; [exact Hmap|contradiction]. }
  fold system_config_address in Hcfg.
  rewrite E. unfold init_early_backing, the_config. rewrite Hcfg. fold mem.
  destruct fuel as [|fuel]; [contradiction|]. cbn [map_hv_pages].
  destruct (Z.ltb_spec (mem_phys_start mem)
              (wrap64 (mem_phys_start mem + mem_size mem))); [lia|].
  do 2 eexists. split; [reflexivity|]. split.
  - simpl. rewrite Htr, <- !app_assoc. reflexivity.
  - split; [rewrite mappings_app, Hmap; reflexivity|].
    intros _. do 3 eexists. reflexivity.
Qed.

(** Wherever [init_early] returns, the configuration pointer and the
    console flag are those of its first statements. *)
Lemma init_early_config fuel cpu s s' :
  init_early fuel cpu s = Some s' ->
  system_config s' = system_config_address /\
  virtual_console s'
  = SYS_FLAGS_VIRTUAL_DEBUG_CONSOLE P
      (sys_flags (config_at X system_config_address)).
Proof.
  destruct (init_early_reaches_backing fuel cpu s)
    as (s3 & evs & _ & Hcfg & Hvc & _ & _ & [(E & _)|(E & _)]);
    rewrite E; intros Hs; fold system_config_address in Hcfg;
    unfold the_config in Hvc; rewrite Hcfg in Hvc.
  - injection Hs as <-. auto.
  - apply init_early_backing_effect in Hs.
    destruct Hs as (evs' & (_ & A2 & A3 & _) & _). rewrite A2, A3. auto.
Qed.

(** *** The calls of the routines *)

Lemma only_calls_app R e1 e2 :
  only_calls R (e1 ++ e2) <-> only_calls R e1 /\ only_calls R e2.
Proof. apply Forall_app. Qed.

Lemma only_calls_succeeded R cs :
  Forall (fun c => R c = true) cs -> only_calls R (succeeded cs).
Proof. induction 1; simpl; constructor; assumption. Qed.

Lemma only_calls_work R evs :
  (forall f a, R (printk f a) = true) ->
  only_calls R (work evs) -> only_calls R evs.
Proof.
  intros Hp. induction evs as [|[c r] evs IH]; [constructor|].
  unfold work. cbn [List.filter fst]. destruct (is_printk c) eqn:Ec; cbn [negb].
  - intros Hw. constructor; [|now apply IH]. destruct c; try discriminate. apply Hp.
  - intros Hw. apply Forall_cons in Hw. destruct Hw as (Hc & Hw).
    constructor; [exact Hc|now apply IH].
Qed.

Lemma count_if_work (q : event -> bool) evs :
  (forall e, is_printk (fst e) = true -> q e = false) ->
  count_if q (work evs) = count_if q evs.
Proof.
  intros Hq. induction evs as [|e evs IH]; [reflexivity|].
  unfold work. cbn [List.filter]. destruct (is_printk (fst e)) eqn:Ec; cbn [negb].
  - simpl. rewrite (Hq e Ec). exact IH.
  - simpl. f_equal. exact IH.
Qed.

Lemma count_if_calls (p : call -> bool) (t : list event) :
  count_if p (calls t) = count_if (fun e => p (fst e)) t.
Proof. induction t as [|e t IH]; simpl; [reflexivity|]. now rewrite IH. Qed.

Lemma count_if_succeeded (p : call -> bool) cs :
  count_if p (calls (succeeded cs)) = count_if p cs.
Proof. induction cs as [|c cs IH]; simpl; [reflexivity|]. now rewrite IH. Qed.

Lemma count_ok_succeeded cs :
  count_if arch_cpu_init_ok (succeeded cs) = count_if is_arch_cpu_init cs.
Proof.
  induction cs as [|c cs IH]; simpl; [reflexivity|]. rewrite IH.
  unfold arch_cpu_init_ok. simpl. now rewrite andb_true_r.
Qed.

Lemma cpu_init_steps_calls cd mmio :
  Forall (fun c => cpu_call c = true) (cpu_init_steps cd mmio) /\
  count_if is_arch_cpu_init (cpu_init_steps cd mmio) = 1%nat.
Proof.
  unfold cpu_init_steps.
  destruct (CONFIG_PAGE_TABLE_PROTECTION P), mmio; split;
    try reflexivity; repeat constructor.
Qed.

(** [init_early] calls nothing but the functions named in its body. *)
Lemma init_early_calls fuel cpu s s' :
  init_early fuel cpu s = Some s' ->
  exists evs,
    trace s' = trace s ++ evs /\ only_calls early_call evs /\
    (error s' = 0 ->
     In (paging_dump_stats "after early setup") (calls evs)).
Proof.
  unfold init_early. cbv zeta.
  set (s1 := error_from paging_init _).
  destruct (nonzero (error s1)) eqn:E1.
  { apply nonzero_true in E1. intros [= <-]. eexists.
    split; [trace_shape|]. split; [repeat constructor|contradiction]. }
  set (s2 := error_from cell_init _).
  destruct (nonzero (error s2)) eqn:E2.
  { apply nonzero_true in E2. intros [= <-]. eexists.
    split; [trace_shape|]. split; [repeat constructor|contradiction]. }
  set (s3 := error_from arch_init_early _).
  destruct (nonzero (error s3)) eqn:E3.
  { apply nonzero_true in E3. intros [= <-]. eexists.
    split; [trace_shape|]. split; [repeat constructor|contradiction]. }
  apply nonzero_false in E3. intros Hb.
  apply init_early_backing_outcome in Hb; [|exact E3].
  destruct Hb as (evs & ms & (_ & _ & _ & _ & Htr) & Hcase).
  assert (Ht3 : exists pre, trace s3 = trace s ++ pre /\ only_calls early_call pre).
  { eexists. split; [trace_shape|repeat constructor]. }
  destruct Ht3 as (pre & Ht3 & Hpre).
  assert (Hms : only_calls early_call (succeeded (map arch_map_memory_region ms))).
  { apply only_calls_succeeded. apply Forall_forall. intros c Hc.
    apply list_elem_of_In, in_map_iff in Hc. destruct Hc as (m & <- & _).
    reflexivity. }
  exists (pre ++ evs). split; [rewrite Htr, Ht3, app_assoc; reflexivity|].
  destruct Hcase as [(E0 & r1 & r2 & ->)|(Hne & m & ->)].
  - split.
    + apply only_calls_app. split; [exact Hpre|]. apply only_calls_app.
      split; [exact Hms|repeat constructor].
    + intros _. rewrite !calls_app. apply in_or_app. right. apply in_or_app.
      right. simpl. auto.
  - split; [|contradiction].
    apply only_calls_app. split; [exact Hpre|]. apply only_calls_app.
    split; [exact Hms|repeat constructor].
Qed.

(** [cpu_init] calls nothing but the functions named in its body, and
    [arch_cpu_init] at most once; when it counts the core, that call
    succeeded. *)
Lemma cpu_init_calls cd s :
  exists evs,
    trace (snd (cpu_init cd s)) = trace s ++ evs /\
    only_calls cpu_call evs /\
    (count_if is_arch_cpu_init (calls evs) <= 1)%nat /\
    ((initialized_cpus (snd (cpu_init cd s)) = wrap32 (initialized_cpus s + 1) /\
      count_if arch_cpu_init_ok evs = 1%nat) \/
     initialized_cpus (snd (cpu_init cd s)) = initialized_cpus s).
Proof.
  destruct (cpu_id_valid P (cpu_id cd)) eqn:Hv.
  - destruct (cpu_init_all_steps cd s Hv) as (_ & evs & Ht & _ & _ & _ & Hcase).
    exists evs. split; [exact Ht|].
    match type of Hcase with
    | context [cpu_init_steps ?c ?m] =>
        destruct (cpu_init_steps_calls c m) as (Hcalls & Hone);
        set (steps := cpu_init_steps c m) in *
    end.
    assert (Hq1 : forall e : event,
              is_printk (fst e) = true -> is_arch_cpu_init (fst e) = false).
    { intros [c r]. destruct c; simpl; congruence. }
    assert (Hq2 : forall e : event,
              is_printk (fst e) = true -> arch_cpu_init_ok e = false).
    { intros e He. unfold arch_cpu_init_ok. now rewrite (Hq1 e He). }
    assert (Hcnt : count_if is_arch_cpu_init (calls evs)
                   = count_if is_arch_cpu_init (calls (work evs)))
      by (rewrite !count_if_calls; symmetry; apply count_if_work; exact Hq1).
    assert (Hok : count_if arch_cpu_init_ok evs
                  = count_if arch_cpu_init_ok (work evs))
      by (symmetry; apply count_if_work; exact Hq2).
    rewrite Hcnt, Hok.
    destruct Hcase as [(Hw & _ & Hi & _)|(done & c & rest & Hs & Hw & _ & _ & Hi)].
    + split; [apply only_calls_work; [reflexivity|];
              rewrite Hw; now apply only_calls_succeeded|].
      split; [rewrite Hw, count_if_succeeded; lia|].
      left. split; [exact Hi|]. rewrite Hw, count_ok_succeeded. exact Hone.
    + rewrite Hs in Hcalls, Hone.
      apply Forall_app in Hcalls. destruct Hcalls as (Hd & Hc).
      apply Forall_cons in Hc. destruct Hc as (Hc & _).
      rewrite count_if_app in Hone. simpl in Hone.
      split; [apply only_calls_work; [reflexivity|]; rewrite Hw;
              apply only_calls_app; split;
              [now apply only_calls_succeeded|repeat constructor; exact Hc]|].
      split; [|right; exact Hi].
      rewrite Hw, calls_app, count_if_app, count_if_succeeded. simpl. lia.
  - unfold cpu_init. rewrite Hv. cbn [negb snd]. eexists.
    split; [trace_shape|]. split; [repeat constructor|].
    split; [simpl; lia|right; reflexivity].
Qed.

Lemma unit_events_calls us evs :
  unit_events us evs ->
  only_calls late_call evs /\
  List.filter is_unit_init (calls evs) = map unit_init us /\
  ~ In config_commit (calls evs).
Proof.
  induction 1 as [|u us r evs _ (IH1 & IH2 & IH3)].
  - split; [constructor|]. split; [reflexivity|]. intros [].
  - split; [repeat (constructor; [reflexivity|]); exact IH1|].
    split; [simpl; now rewrite IH2|].
    simpl. intros [Hc|[Hc|Hc]]; try discriminate. auto.
Qed.

Lemma region_call_late m :
  late_call (region_call m) = true /\ is_unit_init (region_call m) = false /\
  region_call m <> config_commit.
Proof.
  unfold region_call. destruct (JAILHOUSE_MEMORY_IS_SUBPAGE P m);
    repeat split; discriminate.
Qed.

Lemma region_events_calls ms :
  only_calls late_call (succeeded (map region_call ms)) /\
  List.filter is_unit_init (calls (succeeded (map region_call ms))) = [] /\
  ~ In config_commit (calls (succeeded (map region_call ms))).
Proof.
  induction ms as [|m ms (IH1 & IH2 & IH3)];
    cbn [calls map succeeded List.filter fst].
  - split; [constructor|]. split; [reflexivity|]. intros [].
  - destruct (region_call_late m) as (L1 & L2 & L3). rewrite L2.
    split; [constructor; [exact L1|exact IH1]|]. split; [exact IH2|].
    intros [Hc|Hc]; [congruence|auto].
Qed.

(** [init_late] calls nothing but the functions named in its body; the
    units it initialises are a front part of the registered ones, in
    order, and all of them when it commits. *)
Lemma init_late_calls s :
  exists evs done rest,
    trace (init_late s) = trace s ++ evs /\
    only_calls late_call evs /\
    units X = done ++ rest /\
    List.filter is_unit_init (calls evs) = map unit_init done /\
    (In config_commit (calls evs) -> rest = []).
Proof.
  unfold init_late.
  destruct (negb (online_cpus H =? count_cpus (root_cell_cpu_set X (world s)))).
  { exists [(printk "%s:%d: returning error %s\n"
               [PStr "setup.c"; PInt 186; PStr "-EINVAL"],
             fst (extern X (printk "%s:%d: returning error %s\n"
                              [PStr "setup.c"; PInt 186; PStr "-EINVAL"]) (world s)))],
      [], (units X).
    split; [reflexivity|]. split; [repeat constructor|].
    split; [reflexivity|]. split; [reflexivity|].
    simpl. intros [Hc|[]]. discriminate. }
  pose proof (init_units_outcome (units X) s) as HU.
  destruct (init_units (units X) s) as [s1|s1].
  2:{ destruct HU as (done & u & rest & uevs & r & Hsplit & Hu & _ & A).
      destruct (unit_events_calls _ _ Hu) as (U1 & U2 & U3).
      destruct A as (_ & _ & _ & _ & Ht).
      eexists. exists (done ++ [u]), rest.
      split; [exact Ht|]. split.
      { apply only_calls_app. split; [exact U1|repeat constructor]. }
      split; [rewrite Hsplit, <- app_assoc; reflexivity|].
      split; [rewrite calls_app, List.filter_app, U2, (map_app unit_init);
              reflexivity|].
      rewrite calls_app. intros Hin. apply in_app_or in Hin.
      destruct Hin as [Hin|Hin]; [contradiction|].
      simpl in Hin. destruct Hin as [Hc|[Hc|[]]]; discriminate. }
  destruct HU as (uevs & Hu & A & _).
  destruct (unit_events_calls _ _ Hu) as (U1 & U2 & U3).
  rewrite map_regions_call_each.
  set (regions := root_mem_regions (config_at X (root_cell_config s1))).
  pose proof (call_each_outcome (map region_call regions) s1) as HR.
  destruct (call_each (map region_call regions) s1) as [s2|s2].
  2:{ destruct HR as (done & c & rest & Hsplit & _ & A2).
      apply map_eq_app in Hsplit. destruct Hsplit as (d' & r' & _ & Hd & Hr).
      destruct r' as [|m r']; [discriminate|]. simpl in Hr.
      injection Hr as Hc _. subst done c.
      destruct (region_events_calls d') as (R1 & R2 & R3).
      destruct (region_events_calls [m]) as (M1 & M2 & M3).
      simpl in M1, M2, M3.
      eexists. exists (units X), [].
      split; [destruct A2 as (_ & _ & _ & _ & ->), A as (_ & _ & _ & _ & ->);
              rewrite <- app_assoc; reflexivity|].
      split.
      { apply only_calls_app. split; [exact U1|]. apply only_calls_app.
        split; [exact R1|].
        apply Forall_cons in M1. destruct M1 as (M1 & _).
        constructor; [exact M1|constructor]. }
      split; [now rewrite app_nil_r|]. split; [|reflexivity].
      rewrite !calls_app, !List.filter_app, U2, R2. cbn [calls map fst List.filter].
      destruct (region_call_late m) as (_ & -> & _). now rewrite !app_nil_r. }
  destruct HR as (A2 & _).
  destruct (region_events_calls regions) as (R1 & R2 & R3).
  destruct (init_late_commit_spec s2) as (cevs & Hc & A3 & _).
  eexists. exists (units X), [].
  split; [destruct A3 as (_ & _ & _ & _ & ->), A2 as (_ & _ & _ & _ & ->),
            A as (_ & _ & _ & _ & ->); rewrite <- !app_assoc; reflexivity|].
  assert (Hcm : only_calls late_call cevs /\
                List.filter is_unit_init (calls cevs) = []).
  { unfold commit_events in Hc. destruct Hc as (r1 & r2 & Hc).
    destruct (CONFIG_PAGE_TABLE_PROTECTION P);
      [destruct Hc as (r0 & ->)|subst cevs]; split;
      try reflexivity; repeat constructor. }
  destruct Hcm as (C1 & C2).
  split.
  { apply only_calls_app. split; [exact U1|]. apply only_calls_app.
    split; [exact R1|exact C1]. }
  split; [now rewrite app_nil_r|]. split; [|reflexivity].
  rewrite !calls_app, !List.filter_app, U2, R2, C2. simpl. now rewrite app_nil_r.
Qed.

(** X14. The three routines keep to the calls of their bodies.
    [init_early] only prints, initialises the debug output, coverage,
    paging, the root cell and the architecture, maps pages and dumps
    statistics.  [cpu_init] only prints, creates page-table links and
    mappings and calls [arch_cpu_init], the latter at most once: it never
    maps a region of the root cell, initialises a unit or commits.
    [init_late] only prints, initialises units, registers or maps regions,
    sets the protection flag, commits and dumps statistics: it creates no
    page table and never calls [arch_cpu_init]. *)
Theorem routines_keep_to_their_calls :
  (forall fuel cpu s s',
     init_early fuel cpu s = Some s' ->
     exists evs, trace s' = trace s ++ evs /\ only_calls early_call evs) /\
  (forall cd s,
     exists evs,
       trace (snd (cpu_init cd s)) = trace s ++ evs /\
       only_calls cpu_call evs /\
       (count_if is_arch_cpu_init (calls evs) <= 1)%nat) /\
  (forall s,
     exists evs,
       trace (init_late s) = trace s ++ evs /\ only_calls late_call evs).
Proof.
  split; [|split].
  - intros fuel cpu s s' Hs.
    destruct (init_early_calls fuel cpu s s' Hs) as (evs & Ht & Hc & _). eauto.
  - intros cd s. destruct (cpu_init_calls cd s) as (evs & Ht & Hc & Hn & _). eauto.
  - intros s. destruct (init_late_calls s) as (evs & done & rest & Ht & Hc & _).
    eauto.
Qed.

(** ** The protocol of [entry] *)

(** *** Counting cores *)

Lemma count_if_update {A} (p : A -> bool) (l : list A) : forall i c c',
  l !! i = Some c ->
  (count_if p (<[i := c']> l) + b2n (p c) = count_if p l + b2n (p c'))%nat /\
  (b2n (p c) <= count_if p l)%nat /\
  (count_if p l + b2n (negb (p c)) <= length l)%nat.
Proof.
  induction l as [|x l IH]; intros i c c' Hl; [discriminate|].
  destruct i as [|i]; simpl in *.
  - injection Hl as ->. unfold b2n.
    assert (count_if p l <= length l)%nat.
    { clear. induction l; simpl; [lia|]. destruct (p a); lia. }
    destruct (p c), (p c'); simpl; lia.
  - specialize (IH i c c' Hl). unfold b2n in *. destruct (p x); simpl; lia.
Qed.

Lemma count_if_mono {A} (p q : A -> bool) (l : list A) :
  (forall x, p x = true -> q x = true) -> (count_if p l <= count_if q l)%nat.
Proof.
  intros Hpq. induction l as [|x l IH]; simpl; [lia|].
  pose proof (Hpq x) as Hx. destruct (p x), (q x); try lia.
  all: try (specialize (Hx eq_refl); discriminate).
Qed.

Lemma count_if_le_length {A} (p : A -> bool) (l : list A) :
  (count_if p l <= length l)%nat.
Proof. induction l; simpl; [lia|]. destruct (p a); lia. Qed.

Lemma count_if_zero {A} (p : A -> bool) (l : list A) i c :
  count_if p l = 0%nat -> l !! i = Some c -> p c = false.
Proof.
  intros Hz Hl. destruct (count_if_update p l i c c Hl) as (_ & Hle & _).
  destruct (p c); [simpl in Hle; lia|reflexivity].
Qed.

Lemma count_if_full {A} (p : A -> bool) (l : list A) i c :
  count_if p l = length l -> l !! i = Some c -> p c = true.
Proof.
  intros Hz Hl. destruct (count_if_update p l i c c Hl) as (_ & _ & Hle).
  destruct (p c); [reflexivity|simpl in Hle; lia].
Qed.

Lemma count_if_unique {A} (p : A -> bool) (l : list A) : forall i j ci cj,
  (count_if p l <= 1)%nat ->
  l !! i = Some ci -> p ci = true -> l !! j = Some cj -> p cj = true -> i = j.
Proof.
  induction l as [|x l IH]; intros i j ci cj Hle Hi Hpi Hj Hpj; [discriminate|].
  destruct i as [|i], j as [|j]; simpl in *; try reflexivity.
  - injection Hi as ->. rewrite Hpi in Hle.
    pose proof (count_if_zero p l j cj ltac:(lia) Hj). congruence.
  - injection Hj as ->. rewrite Hpj in Hle.
    pose proof (count_if_zero p l i ci ltac:(lia) Hi). congruence.
  - f_equal. apply (IH i j ci cj); try assumption. destruct (p x); lia.
Qed.

Lemma count_if_exists {A} (p : A -> bool) (l : list A) :
  (1 <= count_if p l)%nat -> exists i c, l !! i = Some c /\ p c = true.
Proof.
  induction l as [|x l IH]; simpl; [lia|].
  destruct (p x) eqn:E.
  - intros _. exists 0%nat, x. auto.
  - intros Hc. destruct (IH Hc) as (i & c & Hl & Hp). exists (S i), c. auto.
Qed.

Lemma count_if_boot (p : core -> bool) cpus :
  (forall a, p (boot_core a) = false) ->
  count_if p (map boot_core cpus) = 0%nat.
Proof.
  intros Hp. induction cpus as [|a cpus IH]; simpl; [reflexivity|].
  rewrite Hp, IH. reflexivity.
Qed.

(** The program points are ordered: a core past a later point is past
    every earlier one. *)
Lemma past_chain (l : list core) :
  (count_if (past 8) l <= count_if (past 7) l)%nat /\
  (count_if (past 7) l <= count_if (past 6) l)%nat /\
  (count_if (past 6) l <= count_if (past 4) l)%nat /\
  (count_if (past 4) l <= count_if (past 3) l)%nat /\
  (count_if (past 3) l <= length l)%nat /\
  (count_if (master_before 6) l <= count_if master l)%nat /\
  (count_if (master_before 10) l <= count_if master l)%nat.
Proof.
  repeat split; try apply count_if_le_length; apply count_if_mono;
    intros c; unfold past, master_before;
    rewrite ?andb_true_iff, ?Nat.leb_le; try lia; tauto.
Qed.

Lemma map_insert_same {A B} (f : A -> B) (l : list A) : forall i c c',
  l !! i = Some c -> f c' = f c -> map f (<[i := c']> l) = map f l.
Proof.
  induction l as [|x l IH]; intros i c c' Hl Hf; [reflexivity|].
  destruct i as [|i]; simpl in *.
  - injection Hl as ->. now rewrite Hf.
  - f_equal. eauto.
Qed.

Lemma exit_ok_mono s s' c :
  exit_ok s c ->
  (error s <> 0 -> error s' = error s) ->
  (activate s = true -> activate s' = true /\ error s' = error s) ->
  exit_ok s' c.
Proof.
  unfold exit_ok. intros Hok He Ha.
  destruct (pc c); try exact I; intuition congruence.
Qed.

Section Protocol.

Variable w0 : World.
Variable cpus : list (Z * per_cpu).
Hypothesis valid_ids : Forall (fun a => fst a <> INVALID_CPU_ID P) cpus.
Hypothesis all_online : online_cpus H = Z.of_nat (length cpus).
Hypothesis online_u32 : online_cpus H < 2 ^ 32.
Hypothesis einval_nonzero : EINVAL P <> 0.

Lemma inv_boot : inv cpus (boot w0 cpus).
Proof.
  constructor; simpl; rewrite ?count_if_boot by reflexivity; auto.
  - rewrite map_map. reflexivity.
  - intros E. contradiction.
  - simpl. lia.
  - discriminate.
  - apply Forall_forall. intros c Hin. apply list_elem_of_In, in_map_iff in Hin.
    destruct Hin as (a & <- & _). exact I.
Qed.

Lemma inv_length st : inv cpus st -> length (cores st) = length cpus.
Proof.
  intros [Hids]. rewrite <- (length_map arg_cpu_id), Hids. apply length_map.
Qed.

Lemma inv_valid_id st i c :
  inv cpus st -> cores st !! i = Some c -> arg_cpu_id c <> INVALID_CPU_ID P.
Proof.
  intros [Hids] Hc.
  assert (Hin : In (arg_cpu_id c) (map fst cpus)).
  { rewrite <- Hids. apply in_map, list_elem_of_In, list_elem_of_lookup. eauto. }
  apply in_map_iff in Hin. destruct Hin as (a & <- & Hin).
  rewrite Forall_forall in valid_ids. apply valid_ids, list_elem_of_In, Hin.
Qed.

Ltac count_fact F p l i c c' Hc :=
  pose proof (count_if_update p l i c c' Hc) as F; cbn in F.

Ltac count_facts l i c c' Hc :=
  count_fact ipattern:(F3) (past 3) l i c c' Hc;
  count_fact ipattern:(F4) (past 4) l i c c' Hc;
  count_fact ipattern:(F6) (past 6) l i c c' Hc;
  count_fact ipattern:(F7) (past 7) l i c c' Hc;
  count_fact ipattern:(F8) (past 8) l i c c' Hc;
  count_fact ipattern:(Fm) master l i c c' Hc;
  count_fact ipattern:(Fm6) (master_before 6) l i c c' Hc;
  count_fact ipattern:(Fm10) (master_before 10) l i c c' Hc;
  count_fact ipattern:(Fl) in_lock l i c c' Hc;
  pose proof (past_chain (<[i := c']> l)) as Hch'.

(** Splits the goal [inv cpus (update i s' b' c' st)] into: what the other
    cores may still assume at their exit ([exit_ok_mono]), what the
    stepping core may assume, and the ten counting fields. *)
Ltac new_state i Hc :=
  match goal with
  | |- inv _ (update i ?s' ?b' ?c' ?st) =>
      match type of Hc with
      | _ = Some ?c =>
          count_facts (cores st) i c c' Hc;
          assert (Hids' : map arg_cpu_id (<[i := c']> (cores st))
                          = map arg_cpu_id (cores st))
            by (apply (map_insert_same arg_cpu_id _ i c c' Hc); reflexivity);
          unfold update;
          let l' := fresh "l'" in
          set (l' := <[i := c']> (cores st)) in *;
          assert (Forall (exit_ok s') l');
          [subst l'; apply Forall_insert;
           [eapply Forall_impl; [eassumption|];
            let x := fresh "x" in let Hx := fresh "Hx" in
            intros x Hx; apply (exit_ok_mono _ _ _ Hx)
           |unfold exit_ok]
          |clearbody l'; constructor; [| | | | | | | | | |assumption]]
      end
  end;
  cbn [sh init_lock cores]; cbn.

Ltac use_hyps :=
  repeat match goal with
         | Himp : ?A -> _, HA : ?A |- _ => specialize (Himp HA)
         | Hc : _ /\ _ |- _ => destruct Hc
         end.

Ltac prune := repeat match goal with Hx : _ |- _ => clear Hx end.

Ltac arith :=
  intros;
  repeat match goal with
         | E : activate ?s1 = activate _ |- _ => rewrite E in *; clear E
         end;
  use_hyps; cbn [b2n] in *; repeat split; auto; try congruence; try lia;
  try solve [intuition (try congruence; try lia)].

(** Moves every hypothesis that mentions [t] into the goal. *)
Ltac keep t :=
  repeat match goal with Hx : context [t] |- _ => revert Hx end.

Ltac keep_master :=
  keep (@master_cpu_id World); keep INVALID_CPU_ID; keep (past 6).

Ltac next_state i Hc :=
  new_state i Hc;
  [ keep (@error World); keep (@activate World); keep (past 7);
    keep (@length core); keep_master; prune; arith
  | keep (@error World); keep (@activate World); keep (past 7);
    keep (@length core); keep_master; prune; arith
  | keep (@error World); keep (@activate World); keep_master; prune; arith
  | congruence
  | keep in_lock; keep (@init_lock World); prune; arith
  | keep (@entered_cpus World); keep (past 3); keep online_cpus;
    keep (@length core); prune; arith
  | keep (@entered_cpus World); keep (past 3); keep (past 4);
    keep online_cpus; keep (@length core); prune; arith
  | keep_master; keep (@master); prune; arith
  | keep_master; keep (@master); prune; arith
  | keep (master_before 6); prune; arith
  | keep (@initialized_cpus World); keep (past 7); keep (@error World);
    keep online_cpus; keep (@length core); keep_master; prune; arith
  | keep (@initialized_cpus World); keep (past 7); keep (past 8);
    keep (@error World); keep online_cpus; keep (@length core); keep_master;
    prune; arith
  | keep (@activate World); keep (past 7); keep (past 8);
    keep (@error World); keep (master_before 10); keep (@master);
    keep_master; keep (@length core); prune; arith ].

Lemma inv_step st fuel i st' :
  inv cpus st -> step fuel i st = Some st' -> inv cpus st'.
Proof.
  intros I Hs. unfold step in Hs.
  destruct (cores st !! i) as [c|] eqn:Hc; [|discriminate].
  pose proof (past_chain (cores st)) as Hch.
  pose proof (inv_length st I) as Hlen.
  pose proof (inv_valid_id st i c I Hc) as Hid.
  pose proof I as I0.
  destruct I as [Iids Ilock Ient Ib1 Inom Imas Im6 Iini Ib2 Iact Iexit].
  destruct c as [aid cd m l]. cbn [pc arg_cpu_id master cpu_data] in Hs, Hid.
  rewrite Forall_forall in Iexit.
  pose proof (Iexit _ (list_elem_of_lookup_2 _ _ _ Hc)) as Hexit.
  rewrite <- Forall_forall in Iexit.
  unfold exit_ok in Hexit. cbn [pc master] in Hexit.
  destruct l; try discriminate.
  - (* Start *)
    injection Hs as <-. next_state i Hc.
  - (* Lock1 *)
    destruct (init_lock st) eqn:El; injection Hs as <-; [exact I0|].
    next_state i Hc.
  - (* IncEntered *)
    destruct (init_lock st) eqn:El; injection Hs as <-.
    all: assert (C1 : wrap32 (entered_cpus (sh st) + 1) = entered_cpus (sh st) + 1)
      by (apply wrap32_small;
          destruct (count_if_update (past 3) _ i _
                      {| arg_cpu_id := aid; cpu_data := cd; master := m;
                         pc := IncEntered |} Hc) as (_ & _ & Hlt);
          cbn in Hlt; lia).
    all: next_state i Hc.
  - (* WaitEntered *)
    destruct (Z.ltb_spec (entered_cpus (sh st)) (online_cpus H));
      injection Hs as <-; [exact I0|].
    next_state i Hc.
  - (* Lock2 *)
    destruct (init_lock st) eqn:El; injection Hs as <-; [exact I0|].
    next_state i Hc.
  - (* Elect *)
    destruct (Z.eqb_spec (master_cpu_id (sh st)) (INVALID_CPU_ID P)) as [Em|Em].
    + destruct (init_early fuel aid (sh st)) as [s1|] eqn:Ee; [|discriminate].
      apply init_early_effect in Ee. destruct Ee as (E1 & E2 & E3 & E4 & _).
      injection Hs as <-. next_state i Hc.
    + injection Hs as <-. next_state i Hc.
  - (* CpuInit *)
    destruct (init_lock st) eqn:El;
      destruct (nonzero (error (sh st))) eqn:En; cbn [negb] in Hs.
    all: try (apply nonzero_true in En; injection Hs as <-; next_state i Hc).
    all: apply nonzero_false in En.
    all: destruct (cpu_init cd (sh st)) as [cd1 s1] eqn:Ec.
    all: pose proof (cpu_init_effect cd (sh st) einval_nonzero) as Heff.
    all: rewrite Ec in Heff; cbn [snd] in Heff.
    all: destruct Heff as (evs & _ & _ & E1 & E2 & E4 & [(E3 & E5)|(E3 & E5)]).
    all: injection Hs as <-.
    all: try assert (C1 : wrap32 (initialized_cpus (sh st) + 1)
                          = initialized_cpus (sh st) + 1)
      by (apply wrap32_small;
          destruct (count_if_update (past 7) _ i _
                      {| arg_cpu_id := aid; cpu_data := cd; master := m;
                         pc := CpuInit |} Hc) as (_ & _ & Hlt);
          cbn in Hlt; lia).
    all: next_state i Hc.
  - (* WaitInitialized *)
    destruct (nonzero (error (sh st))) eqn:En; cbn [negb andb] in Hs.
    + apply nonzero_true in En. injection Hs as <-. next_state i Hc.
    + apply nonzero_false in En.
      destruct (Z.ltb_spec (initialized_cpus (sh st)) (online_cpus H));
        injection Hs as <-; [exact I0|].
      next_state i Hc.
  - (* Late *)
    destruct (nonzero (error (sh st))) eqn:En; destruct m; cbn [negb andb] in Hs.
    + apply nonzero_true in En. injection Hs as <-. next_state i Hc.
    + apply nonzero_true in En. injection Hs as <-. next_state i Hc.
    + apply nonzero_false in En.
      destruct (init_late_effect (sh st) einval_nonzero En) as (evs & (A1 & _) & _).
      unfold sync_vars in A1. injection A1 as E1 E2 E3 E4.
      destruct (nonzero (error (init_late (sh st)))) eqn:En1; cbn [negb] in Hs;
        [apply nonzero_true in En1|apply nonzero_false in En1];
        injection Hs as <-; next_state i Hc.
    + apply nonzero_false in En. injection Hs as <-. next_state i Hc.
  - (* WaitActivate *)
    destruct (nonzero (error (sh st))) eqn:En; cbn [negb andb] in Hs.
    + apply nonzero_true in En. injection Hs as <-. next_state i Hc.
    + apply nonzero_false in En.
      destruct (activate (sh st)) eqn:Ea; cbn [negb] in Hs;
        injection Hs as <-; [|exact I0].
      next_state i Hc.
  - (* Finish *)
    destruct (nonzero (error (sh st))) eqn:En;
      [apply nonzero_true in En|apply nonzero_false in En];
      destruct m; injection Hs as <-; next_state i Hc.
  - (* Shutdown *)
    injection Hs as <-. next_state i Hc.
  - (* Restore *)
    injection Hs as <-. next_state i Hc.
Qed.

Lemma reachable_inv st : reachable w0 cpus st -> inv cpus st.
Proof.
  induction 1 as [|st fuel i st' _ IH Hs]; [apply inv_boot|].
  eapply inv_step; eauto.
Qed.

(** *** Traces *)

Lemma count_if_none {A} (p : A -> bool) (l : list A) :
  count_if p l = 0%nat -> Forall (fun x => p x = false) l.
Proof.
  induction l as [|x l IH]; simpl; [constructor|].
  destruct (p x) eqn:E; [lia|]. intros Hz. constructor; auto.
Qed.

Lemma count_if_In {A} (p : A -> bool) (l : list A) :
  (1 <= count_if p l)%nat <-> exists x, In x l /\ p x = true.
Proof.
  induction l as [|x l IH]; simpl.
  - split; [lia|]. intros (x & [] & _).
  - destruct (p x) eqn:E.
    + split; [|lia]. intros _. exists x. auto.
    + rewrite Nat.add_0_l, IH. split.
      * intros (y & Hy & Hp). exists y. auto.
      * intros (y & [->|Hy] & Hp); [congruence|]. exists y. auto.
Qed.

(** Plain events carry none of the marks. *)
Lemma plain_no_mark (p : call -> bool) evs :
  (forall c, p c = true -> plain c = false) ->
  plain_events evs -> count_if p (calls evs) = 0%nat.
Proof.
  intros Hp. induction 1 as [|e evs He _ IH]; simpl; [reflexivity|].
  rewrite IH. destruct (p (fst e)) eqn:E; [|reflexivity].
  apply Hp in E. congruence.
Qed.

Lemma dbg_write_init_not_plain c : is_dbg_write_init c = true -> plain c = false.
Proof. destruct c; simpl; congruence. Qed.

Lemma late_done_not_plain c : is_late_done c = true -> plain c = false.
Proof. destruct c; simpl; try congruence. intros ->. reflexivity. Qed.

Lemma activate_vmm_not_plain c : is_activate_vmm c = true -> plain c = false.
Proof. destruct c; simpl; congruence. Qed.

Lemma commit_events_marks cevs :
  commit_events cevs ->
  count_if is_dbg_write_init (calls cevs) = 0%nat /\
  count_if is_late_done (calls cevs) = 1%nat /\
  count_if is_activate_vmm (calls cevs) = 0%nat.
Proof.
  unfold commit_events. intros (r1 & r2 & Hc).
  destruct (CONFIG_PAGE_TABLE_PROTECTION P);
    [destruct Hc as (r0 & ->)|subst cevs]; repeat split.
Qed.

Lemma exit_trace_mono t evs c : exit_trace t c -> exit_trace (t ++ evs) c.
Proof.
  unfold exit_trace. destruct (pc c); auto.
  - intros Hs Hm. rewrite calls_app. apply in_or_app. auto.
  - intros (t1 & t2 & r & -> & Hs). exists t1, (t2 ++ evs), r.
    split; [|assumption]. rewrite <- app_assoc. reflexivity.
Qed.

Lemma trace_inv_boot : trace_inv (boot w0 cpus).
Proof.
  constructor; simpl.
  - apply Forall_forall. intros c Hin. apply list_elem_of_In, in_map_iff in Hin.
    destruct Hin as (a & <- & _). discriminate.
  - rewrite Z.eqb_refl. reflexivity.
  - reflexivity.
  - rewrite count_if_boot; reflexivity.
  - apply Forall_forall. intros c Hin. apply list_elem_of_In, in_map_iff in Hin.
    destruct Hin as (a & <- & _). exact I.
Qed.

(** One step of a core keeps [trace_inv], given what the step appends to
    the trace and how it changes the marks. *)
Lemma trace_inv_update st i c s' b' c' evs :
  trace_inv st -> cores st !! i = Some c ->
  trace s' = trace (sh st) ++ evs ->
  (master c' = true -> arg_cpu_id c' = master_cpu_id s') ->
  (master_cpu_id s' = master_cpu_id (sh st) \/
   count_if master (cores st) = 0%nat) ->
  Nat.add (count_if is_dbg_write_init (calls evs))
    (if master_cpu_id (sh st) =? INVALID_CPU_ID P then 0%nat else 1%nat)
  = (if master_cpu_id s' =? INVALID_CPU_ID P then 0%nat else 1%nat) ->
  (count_if is_late_done (calls evs) + b2n (activate (sh st))
   = b2n (activate s'))%nat ->
  (count_if is_activate_vmm (calls evs) + b2n (is_activated c)
   = b2n (is_activated c'))%nat ->
  exit_trace (trace s') c' ->
  trace_inv (update i s' b' c' st).
Proof.
  intros [T1 T2 T3 T4 T5] Hc Htr Hm Hmid Hd Hl Hv Hx.
  constructor; cbn [sh cores update].
  - apply Forall_insert; [|exact Hm].
    destruct Hmid as [->|Hz]; [exact T1|].
    apply count_if_none in Hz. eapply Forall_impl; [exact Hz|].
    cbn. intros x -> [=].
  - rewrite Htr, calls_app, count_if_app, T2. lia.
  - rewrite Htr, calls_app, count_if_app, T3. lia.
  - rewrite Htr, calls_app, count_if_app, T4.
    destruct (count_if_update is_activated _ i c c' Hc) as (E & _). lia.
  - apply Forall_insert; [|exact Hx].
    rewrite Htr. eapply Forall_impl; [exact T5|].
    intros x. apply exit_trace_mono.
Qed.

Ltac trace_eq :=
  first [ symmetry; apply app_nil_r
        | cbn; rewrite <- ?app_assoc; reflexivity ].

(** A step whose calls are written out in [step]. *)
Ltac plain_step T Hc Hmid :=
  eapply trace_inv_update;
  [ exact T | exact Hc | trace_eq | cbn; try exact Hmid
  | left; reflexivity | cbn; reflexivity | cbn; reflexivity
  | cbn; reflexivity | unfold exit_trace; cbn; try exact I ].

Lemma trace_inv_step st fuel i st' :
  inv cpus st -> trace_inv st -> step fuel i st = Some st' -> trace_inv st'.
Proof.
  intros I0 T Hs. unfold step in Hs.
  destruct (cores st !! i) as [c|] eqn:Hc; [|discriminate].
  pose proof (inv_valid_id st i c I0 Hc) as Hid.
  assert (Hmid : master c = true -> arg_cpu_id c = master_cpu_id (sh st)).
  { destruct T as [T1 _ _ _ _]. rewrite Forall_forall in T1.
    apply T1. eapply list_elem_of_lookup_2; eauto. }
  assert (Hxt : exit_trace (trace (sh st)) c).
  { destruct T as [_ _ _ _ T5]. rewrite Forall_forall in T5.
    apply T5. eapply list_elem_of_lookup_2; eauto. }
  assert (Hxo : exit_ok (sh st) c).
  { destruct I0 as [_ _ _ _ _ _ _ _ _ _ I11]. rewrite Forall_forall in I11.
    apply I11. eapply list_elem_of_lookup_2; eauto. }
  destruct c as [aid cd m l].
  unfold exit_trace in Hxt. unfold exit_ok in Hxo.
  cbn [pc arg_cpu_id master cpu_data] in Hs, Hid, Hmid, Hxt, Hxo.
  destruct l; try discriminate.
  - (* Start *)
    injection Hs as <-. plain_step T Hc Hmid.
  - (* Lock1 *)
    destruct (init_lock st); injection Hs as <-; [exact T|].
    plain_step T Hc Hmid.
  - (* IncEntered *)
    injection Hs as <-. plain_step T Hc Hmid.
  - (* WaitEntered *)
    destruct (entered_cpus (sh st) <? online_cpus H);
      injection Hs as <-; [exact T|].
    plain_step T Hc Hmid.
  - (* Lock2 *)
    destruct (init_lock st); injection Hs as <-; [exact T|].
    plain_step T Hc Hmid.
  - (* Elect *)
    destruct (Z.eqb_spec (master_cpu_id (sh st)) (INVALID_CPU_ID P)) as [Em|Em].
    + destruct (init_early fuel aid (sh st)) as [s1|] eqn:Ee; [|discriminate].
      apply init_early_effect in Ee.
      destruct Ee as (E1 & E2 & E3 & E4 & r & evs & Htr & Hp).
      injection Hs as <-.
      assert (Hne : (aid =? INVALID_CPU_ID P) = false) by now apply Z.eqb_neq.
      eapply trace_inv_update; [exact T|exact Hc|exact Htr|..].
      * cbn. intros _. symmetry. exact E1.
      * right. apply (inv_no_master _ _ I0 Em).
      * rewrite calls_cons. cbn [count_if is_dbg_write_init].
        rewrite (plain_no_mark _ _ dbg_write_init_not_plain Hp).
        rewrite Em, E1, Z.eqb_refl, Hne. reflexivity.
      * rewrite calls_cons. cbn [count_if is_late_done].
        rewrite (plain_no_mark _ _ late_done_not_plain Hp), E4. reflexivity.
      * rewrite calls_cons. cbn [count_if is_activate_vmm].
        rewrite (plain_no_mark _ _ activate_vmm_not_plain Hp). reflexivity.
      * exact I.
    + injection Hs as <-. plain_step T Hc Hmid.
  - (* CpuInit *)
    destruct (nonzero (error (sh st))) eqn:En; cbn [negb] in Hs.
    + injection Hs as <-. plain_step T Hc Hmid.
    + destruct (cpu_init cd (sh st)) as [cd1 s1] eqn:Ec.
      pose proof (cpu_init_effect cd (sh st) einval_nonzero) as Heff.
      rewrite Ec in Heff. cbn [snd] in Heff.
      destruct Heff as (evs & Htr & Hp & E1 & E2 & E4 & _).
      injection Hs as <-.
      eapply trace_inv_update; [exact T|exact Hc|exact Htr|..].
      * cbn. rewrite E1. exact Hmid.
      * left. exact E1.
      * rewrite (plain_no_mark _ _ dbg_write_init_not_plain Hp), E1. reflexivity.
      * rewrite (plain_no_mark _ _ late_done_not_plain Hp), E4. reflexivity.
      * rewrite (plain_no_mark _ _ activate_vmm_not_plain Hp). reflexivity.
      * exact I.
  - (* WaitInitialized *)
    destruct (negb (nonzero (error (sh st))) &&
              (initialized_cpus (sh st) <? online_cpus H));
      injection Hs as <-; [exact T|].
    plain_step T Hc Hmid.
  - (* Late *)
    destruct (nonzero (error (sh st))) eqn:En; destruct m; cbn [negb andb] in Hs.
    1, 2, 4: injection Hs as <-; plain_step T Hc Hmid.
    apply nonzero_false in En.
    destruct (init_late_effect (sh st) einval_nonzero En)
      as (evs & (A1 & _ & _ & _ & Htr) & Hcase).
    unfold sync_vars in A1. injection A1 as E1 E2 E3 E4.
    destruct Hcase as [(Herr & Hp)|(Herr & evs0 & cevs & -> & Hp & Hcm)].
    + apply nonzero_true in Herr. rewrite Herr in Hs. cbn [negb] in Hs.
      injection Hs as <-.
      eapply trace_inv_update; [exact T|exact Hc|exact Htr|..].
      * cbn. rewrite E1. exact Hmid.
      * left. exact E1.
      * rewrite (plain_no_mark _ _ dbg_write_init_not_plain Hp), E1. reflexivity.
      * rewrite (plain_no_mark _ _ late_done_not_plain Hp), E4. reflexivity.
      * rewrite (plain_no_mark _ _ activate_vmm_not_plain Hp). reflexivity.
      * exact I.
    + apply nonzero_false in Herr. rewrite Herr in Hs. cbn [negb] in Hs.
      injection Hs as <-.
      destruct (commit_events_marks _ Hcm) as (M1 & M2 & M3).
      assert (Ha : activate (sh st) = false).
      { destruct (activate (sh st)) eqn:Ea; [|reflexivity].
        destruct (inv_activate _ _ I0 Ea) as (_ & _ & Hz).
        pose proof (count_if_zero _ _ _ _ Hz Hc) as Hf. discriminate Hf. }
      eapply trace_inv_update; [exact T|exact Hc|exact Htr|..].
      * cbn. rewrite E1. exact Hmid.
      * left. exact E1.
      * rewrite calls_app, count_if_app, M1.
        rewrite (plain_no_mark _ _ dbg_write_init_not_plain Hp).
        cbn [master_cpu_id set_activate]. rewrite E1. reflexivity.
      * rewrite calls_app, count_if_app, M2.
        rewrite (plain_no_mark _ _ late_done_not_plain Hp), Ha. reflexivity.
      * rewrite calls_app, count_if_app, M3.
        rewrite (plain_no_mark _ _ activate_vmm_not_plain Hp). reflexivity.
      * exact I.
  - (* WaitActivate *)
    destruct (negb (nonzero (error (sh st))) && negb (activate (sh st)));
      injection Hs as <-; [exact T|].
    plain_step T Hc Hmid.
  - (* Finish *)
    destruct (nonzero (error (sh st))) eqn:En; destruct m; injection Hs as <-.
    all: plain_step T Hc Hmid.
    discriminate.
  - (* Shutdown *)
    injection Hs as <-. plain_step T Hc Hmid.
    intros _. rewrite calls_app. apply in_or_app. right. simpl. auto.
  - (* Restore *)
    injection Hs as <-. plain_step T Hc Hmid.
    do 3 eexists. split; [reflexivity|exact Hxt].
Qed.

Lemma reachable_trace_inv st : reachable w0 cpus st -> trace_inv st.
Proof.
  induction 1 as [|st fuel i st' Hr IH Hs]; [apply trace_inv_boot|].
  eapply trace_inv_step; eauto using reachable_inv.
Qed.

Lemma run_reachable fuel sched : forall st st',
  reachable w0 cpus st -> run fuel sched st = Some st' -> reachable w0 cpus st'.
Proof.
  induction sched as [|i sched IH]; intros st st' Hr; simpl.
  - intros [= <-]. exact Hr.
  - destruct (step fuel i st) as [st1|] eqn:Hs; [|discriminate].
    apply IH. eapply reachable_step; eauto.
Qed.

(** The master is unique once elected, and [master_cpu_id] names it. *)
Lemma exactly_one_master_facts st :
  reachable w0 cpus st ->
  (master_cpu_id (sh st) <> INVALID_CPU_ID P -> masters st = 1%nat) /\
  (forall i c,
     cores st !! i = Some c -> master c = true ->
     arg_cpu_id c = master_cpu_id (sh st)).
Proof.
  intros Hr. pose proof (reachable_inv st Hr) as I0.
  pose proof (reachable_trace_inv st Hr) as [T1 _ _ _ _].
  split; [exact (inv_master _ _ I0)|].
  intros i c Hc Hm. rewrite Forall_forall in T1. apply T1; [|exact Hm].
  eapply list_elem_of_lookup_2; eauto.
Qed.

Lemma run_app fuel s1 s2 : forall st,
  run fuel (s1 ++ s2) st
  = match run fuel s1 st with
    | Some st1 => run fuel s2 st1
    | None => None
    end.
Proof.
  induction s1 as [|i s1 IH]; intros st; simpl; [reflexivity|].
  destruct (step fuel i st); [apply IH|reflexivity].
Qed.

(** *** The claims about the protocol *)

(** C1. Exactly one core becomes the master, whatever the interleaving.
    In every reachable state at most one core has [master] set; as soon as
    any core has left the election (it is at [cpu_init] or later) exactly
    one has, and this is so exactly when [master_cpu_id] is no longer
    [INVALID_CPU_ID]; [master_cpu_id] is then the identifier of that core.
    The election runs under [init_lock]: a core at the election point
    holds the lock and no other core is inside a locked section. *)
Theorem exactly_one_master st :
  reachable w0 cpus st ->
  (masters st <= 1)%nat /\
  ((exists i c, cores st !! i = Some c /\ (6 <= rank (pc c))%nat) ->
   masters st = 1%nat) /\
  (masters st = 1%nat <-> master_cpu_id (sh st) <> INVALID_CPU_ID P) /\
  (forall i j ci cj,
     cores st !! i = Some ci -> cores st !! j = Some cj ->
     master ci = true -> master cj = true -> i = j) /\
  (forall i c,
     cores st !! i = Some c -> master c = true ->
     arg_cpu_id c = master_cpu_id (sh st)) /\
  (forall i c,
     cores st !! i = Some c -> pc c = Elect ->
     init_lock st = true /\
     forall j cj, cores st !! j = Some cj -> locked (pc cj) = true -> j = i).
Proof.
  intros Hr. pose proof (reachable_inv st Hr) as I0.
  pose proof (reachable_trace_inv st Hr) as T.
  destruct I0 as [Iids Ilock Ient Ib1 Inom Imas Im6 Iini Ib2 Iact Iexit].
  unfold masters.
  assert (Hle : (count_if master (cores st) <= 1)%nat).
  { destruct (Z.eq_dec (master_cpu_id (sh st)) (INVALID_CPU_ID P)) as [E|E].
    - destruct (Inom E) as (-> & _). lia.
    - rewrite (Imas E). lia. }
  split; [exact Hle|]. split; [|split; [|split; [|split]]].
  - intros (i & c & Hc & Hrank).
    destruct (Z.eq_dec (master_cpu_id (sh st)) (INVALID_CPU_ID P)) as [E|E];
      [|exact (Imas E)].
    destruct (Inom E) as (_ & Hz & _).
    pose proof (count_if_zero _ _ _ _ Hz Hc) as Hf. unfold past in Hf.
    apply Nat.leb_gt in Hf. lia.
  - split.
    + intros H1 E. destruct (Inom E) as (Hz & _). lia.
    + exact Imas.
  - intros i j ci cj Hi Hj Hmi Hmj.
    exact (count_if_unique master _ i j ci cj Hle Hi Hmi Hj Hmj).
  - intros i c Hc Hm. destruct T as [T1 _ _ _ _].
    rewrite Forall_forall in T1. apply T1; [|exact Hm].
    eapply list_elem_of_lookup_2; eauto.
  - intros i c Hc Hpc.
    assert (Hin : in_lock c = true) by (unfold in_lock; rewrite Hpc; reflexivity).
    destruct (count_if_update in_lock _ i c c Hc) as (_ & Hge & _).
    rewrite Hin in Hge. cbn [b2n] in Hge.
    destruct (init_lock st); cbn [b2n] in Ilock; [|lia].
    split; [reflexivity|]. intros j cj Hj Hlj.
    apply (count_if_unique in_lock (cores st) j i cj c); auto. lia.
Qed.

(** C2. The activation gate.  [activate] is set exactly when [init_late]
    ran to its last statement, and [error] is then zero.  A core executes
    [arch_cpu_activate_vmm] only with the gate set: a core about to do so
    (past the last wait, with [error] zero) sees [activate], and whenever
    the call is in the trace or a core has switched mode, [activate] is
    set. *)
Theorem activation_gate st :
  reachable w0 cpus st ->
  (activate (sh st) = true <->
   In (paging_dump_stats "after late setup") (calls (trace (sh st)))) /\
  (activate (sh st) = true -> error (sh st) = 0) /\
  (forall i c,
     cores st !! i = Some c -> pc c = Finish -> error (sh st) = 0 ->
     activate (sh st) = true) /\
  (forall i c,
     cores st !! i = Some c -> pc c = Activated -> activate (sh st) = true) /\
  (In arch_cpu_activate_vmm (calls (trace (sh st))) -> activate (sh st) = true).
Proof.
  intros Hr. pose proof (reachable_inv st Hr) as I0.
  pose proof (reachable_trace_inv st Hr) as [_ _ T3 T4 _].
  pose proof (inv_exit _ _ I0) as Hexit. rewrite Forall_forall in Hexit.
  assert (Hact : forall i c,
     cores st !! i = Some c -> pc c = Activated -> activate (sh st) = true).
  { intros i c Hc Hpc.
    pose proof (Hexit c (list_elem_of_lookup_2 _ _ _ Hc)) as Hx.
    unfold exit_ok in Hx. rewrite Hpc in Hx. apply Hx. }
  split; [|split; [|split; [|split]]].
  - split.
    + intros Ha. rewrite Ha in T3. cbn [b2n] in T3.
      assert (H1 : (1 <= count_if is_late_done (calls (trace (sh st))))%nat)
        by lia.
      apply count_if_In in H1. destruct H1 as (x & Hx & Hp).
      destruct x; try discriminate. simpl in Hp. apply String.eqb_eq in Hp.
      now subst.
    + intros Hin. destruct (activate (sh st)); [reflexivity|].
      cbn [b2n] in T3.
      assert (1 <= count_if is_late_done (calls (trace (sh st))))%nat; [|lia].
      apply count_if_In. eexists. split; [exact Hin|reflexivity].
  - intros Ha. apply (inv_activate _ _ I0 Ha).
  - intros i c Hc Hpc He.
    pose proof (Hexit c (list_elem_of_lookup_2 _ _ _ Hc)) as Hx.
    unfold exit_ok in Hx. rewrite Hpc in Hx. destruct Hx; [contradiction|assumption].
  - exact Hact.
  - intros Hin.
    assert (H1 : (1 <= count_if is_activate_vmm (calls (trace (sh st))))%nat).
    { apply count_if_In. eexists. split; [exact Hin|reflexivity]. }
    rewrite T4 in H1. apply count_if_exists in H1.
    destruct H1 as (i & c & Hc & Hp). apply (Hact i c Hc).
    unfold is_activated in Hp. destruct (pc c); try discriminate. reflexivity.
Qed.

(** One step never changes a non-zero [error]. *)
Lemma step_keeps_error st fuel i st' :
  inv cpus st -> step fuel i st = Some st' ->
  error (sh st) <> 0 -> error (sh st') = error (sh st).
Proof.
  intros I0 Hs He. unfold step in Hs.
  destruct (cores st !! i) as [c|] eqn:Hc; [|discriminate].
  assert (Hnz : nonzero (error (sh st)) = true) by now apply nonzero_true.
  assert (Hmas : master_cpu_id (sh st) <> INVALID_CPU_ID P).
  { intros E. destruct (inv_no_master _ _ I0 E) as (_ & _ & E0 & _). contradiction. }
  apply Z.eqb_neq in Hmas.
  rewrite ?Hnz, ?Hmas in Hs. cbn [negb andb] in Hs.
  destruct (pc c); try discriminate;
    repeat match type of Hs with
           | (if ?b then _ else _) = _ => destruct b
           end;
    injection Hs as <-; reflexivity.
Qed.

Lemma run_keeps_error fuel sched : forall st st',
  reachable w0 cpus st -> run fuel sched st = Some st' ->
  error (sh st) <> 0 -> error (sh st') = error (sh st).
Proof.
  induction sched as [|i sched IH]; intros st st' Hr; simpl.
  - intros [= <-] _. reflexivity.
  - destruct (step fuel i st) as [st1|] eqn:Hs; [|discriminate].
    intros Hrun He.
    pose proof (step_keeps_error st fuel i st1 (reachable_inv st Hr) Hs He) as E1.
    rewrite <- E1. apply IH; [eapply reachable_step; eauto|exact Hrun|congruence].
Qed.

(** C4. The error channel is write-once: along any schedule that starts
    in a reachable state with [error] non-zero, [error] keeps its value,
    after every single step and at the end. *)
Theorem error_write_once st fuel sched st' :
  reachable w0 cpus st -> run fuel sched st = Some st' ->
  error (sh st) <> 0 ->
  error (sh st') = error (sh st) /\
  forall n st1,
    run fuel (take n sched) st = Some st1 -> error (sh st1) = error (sh st).
Proof.
  intros Hr Hrun He. split.
  - exact (run_keeps_error fuel sched st st' Hr Hrun He).
  - intros n st1 Hrun1.
    exact (run_keeps_error fuel (take n sched) st st1 Hr Hrun1 He).
Qed.

Lemma remaining_update (l : list core) : forall i c c',
  l !! i = Some c ->
  (remaining (<[i := c']> l) + (13 - rank (pc c))
   = remaining l + (13 - rank (pc c')))%nat.
Proof.
  induction l as [|x l IH]; intros i c c' Hl; [discriminate|].
  destruct i as [|i]; simpl in *.
  - injection Hl as ->. lia.
  - specialize (IH i c c' Hl). lia.
Qed.

Lemma rank_le_13 l : (rank l <= 13)%nat.
Proof. destruct l; simpl; lia. Qed.

(** With [error] set, the first barrier is open: every core has
    entered. *)
Lemma error_all_entered st :
  inv cpus st -> error (sh st) <> 0 -> entered_cpus (sh st) = online_cpus H.
Proof.
  intros I0 He.
  destruct I0 as [Iids Ilock Ient Ib1 Inom Imas Im6 Iini Ib2 Iact Iexit].
  assert (Hm : master_cpu_id (sh st) <> INVALID_CPU_ID P).
  { intros E. destruct (Inom E) as (_ & _ & E0 & _). contradiction. }
  specialize (Imas Hm).
  destruct (count_if_exists master (cores st) ltac:(lia)) as (j & cj & Hj & Hmj).
  pose proof (count_if_zero _ _ _ _ Im6 Hj) as Hb.
  unfold master_before in Hb. rewrite Hmj, andb_true_r in Hb.
  apply negb_false_iff in Hb.
  destruct (count_if_update (past 6) _ j cj cj Hj) as (_ & Hge & _).
  rewrite Hb in Hge. cbn [b2n] in Hge.
  pose proof (past_chain (cores st)) as (_ & _ & H64 & _).
  rewrite Ient, all_online. destruct Ib1 as [Hz|E3]; [lia|rewrite E3; reflexivity].
Qed.

(** With [error] set, some core that has not left [entry] can always
    advance: nothing blocks the way to the exit. *)
Lemma error_progress st :
  reachable w0 cpus st -> error (sh st) <> 0 ->
  (1 <= count_if running (cores st))%nat ->
  exists i st',
    step 0 i st = Some st' /\
    (remaining (cores st') < remaining (cores st))%nat.
Proof.
  intros Hr He Hrun. pose proof (reachable_inv st Hr) as I0.
  assert (Hnz : nonzero (error (sh st)) = true) by now apply nonzero_true.
  assert (Hmas : (master_cpu_id (sh st) =? INVALID_CPU_ID P) = false).
  { apply Z.eqb_neq. intros E.
    destruct (inv_no_master _ _ I0 E) as (_ & _ & E0 & _). contradiction. }
  assert (Hent : (entered_cpus (sh st) <? online_cpus H) = false).
  { rewrite (error_all_entered st I0 He). apply Z.ltb_irrefl. }
  pose proof (inv_lock _ _ I0) as Ilock.
  assert (Hpick : exists i c,
            cores st !! i = Some c /\ running c = true /\
            (init_lock st = true -> in_lock c = true)).
  { destruct (init_lock st); cbn [b2n] in Ilock.
    - destruct (count_if_exists in_lock (cores st) ltac:(lia)) as (i & c & Hc & Hl).
      exists i, c. repeat split; auto.
      unfold in_lock in Hl. unfold running. destruct (pc c); try discriminate; reflexivity.
    - destruct (count_if_exists running (cores st) Hrun) as (i & c & Hc & Hl).
      exists i, c. repeat split; auto. discriminate. }
  destruct Hpick as (i & c & Hc & Hrunning & Hlock).
  pose proof (count_if_zero in_lock (cores st) i c) as Hfree.
  exists i. unfold step. rewrite Hc.
  destruct c as [aid cd m l]. unfold running, in_lock in *. cbn [pc] in *.
  rewrite ?Hnz, ?Hmas, ?Hent. cbn [negb andb].
  destruct l; try discriminate;
    try (destruct (init_lock st) eqn:El;
         [specialize (Hlock eq_refl); discriminate|]);
    eexists; (split; [reflexivity|]); cbn [cores update];
    match goal with
    | |- context [<[i := ?c']> (cores st)] =>
        pose proof (remaining_update (cores st) i _ c' Hc) as Hrem
    end;
    cbn in Hrem; try lia.
  all: try destruct m; cbn in Hrem |- *; lia.
Qed.

(** With [error] set, the cores can always run to the end of [entry]. *)
Lemma error_completion n : forall st,
  reachable w0 cpus st -> error (sh st) <> 0 ->
  (remaining (cores st) <= n)%nat ->
  exists sched st',
    run 0 sched st = Some st' /\ count_if running (cores st') = 0%nat.
Proof.
  induction n as [|n IH]; intros st Hr He Hn.
  - destruct (count_if running (cores st)) eqn:E.
    + exists [], st. auto.
    + destruct (error_progress st Hr He ltac:(lia)) as (i & st' & _ & Hlt). lia.
  - destruct (count_if running (cores st)) eqn:E.
    + exists [], st. auto.
    + destruct (error_progress st Hr He ltac:(lia)) as (i & st1 & Hs & Hlt).
      assert (Hr1 : reachable w0 cpus st1) by (eapply reachable_step; eauto).
      assert (He1 : error (sh st1) <> 0).
      { rewrite (step_keeps_error st 0 i st1 (reachable_inv st Hr) Hs He). exact He. }
      destruct (IH st1 Hr1 He1 ltac:(lia)) as (sched & st' & Hrun & Hdone).
      exists (i :: sched), st'. simpl. rewrite Hs. auto.
Qed.

(** C3. Once [error] is non-zero no core switches mode:
    [arch_cpu_activate_vmm] is not in the trace and no core is activated.
    Every core that left [entry] returned the value of [error], after
    [arch_cpu_restore] on its own identifier with that value, and the
    master after [shutdown].  Nothing blocks the cores on the way: some
    schedule brings every core to its return, each returning [error]. *)
Theorem error_aborts_boot st :
  reachable w0 cpus st -> error (sh st) <> 0 ->
  ~ In arch_cpu_activate_vmm (calls (trace (sh st))) /\
  (forall i c, cores st !! i = Some c -> pc c <> Activated) /\
  (forall i c e,
     cores st !! i = Some c -> pc c = Returned e ->
     e = error (sh st) /\
     exists t1 t2 r,
       trace (sh st) = t1 ++ (arch_cpu_restore (arg_cpu_id c) e, r) :: t2 /\
       (master c = true -> In shutdown (calls t1))) /\
  (forall i c,
     cores st !! i = Some c -> pc c = Shutdown -> master c = true) /\
  exists sched st',
    run 0 sched st = Some st' /\
    error (sh st') = error (sh st) /\
    Forall (fun c => pc c = Returned (error (sh st))) (cores st').
Proof.
  intros Hr He. pose proof (reachable_inv st Hr) as I0.
  pose proof (reachable_trace_inv st Hr) as [_ _ _ T4 T5].
  pose proof (inv_exit _ _ I0) as Hexit. rewrite Forall_forall in Hexit, T5.
  assert (Hact : forall i c, cores st !! i = Some c -> pc c <> Activated).
  { intros i c Hc Hpc.
    pose proof (Hexit c (list_elem_of_lookup_2 _ _ _ Hc)) as Hx.
    unfold exit_ok in Hx. rewrite Hpc in Hx. destruct Hx. contradiction. }
  split; [|split; [|split; [|split]]].
  - intros Hin.
    assert (H1 : (1 <= count_if is_activate_vmm (calls (trace (sh st))))%nat).
    { apply count_if_In. eexists. split; [exact Hin|reflexivity]. }
    rewrite T4 in H1. apply count_if_exists in H1.
    destruct H1 as (i & c & Hc & Hp). apply (Hact i c Hc).
    unfold is_activated in Hp. destruct (pc c); try discriminate. reflexivity.
  - exact Hact.
  - intros i c e Hc Hpc.
    pose proof (Hexit c (list_elem_of_lookup_2 _ _ _ Hc)) as Hx.
    pose proof (T5 c (list_elem_of_lookup_2 _ _ _ Hc)) as Ht.
    unfold exit_ok in Hx. unfold exit_trace in Ht. rewrite Hpc in Hx, Ht.
    split; [apply Hx|exact Ht].
  - intros i c Hc Hpc.
    pose proof (Hexit c (list_elem_of_lookup_2 _ _ _ Hc)) as Hx.
    unfold exit_ok in Hx. rewrite Hpc in Hx. apply Hx.
  - destruct (error_completion _ st Hr He (le_n _)) as (sched & st' & Hrun & Hdone).
    exists sched, st'. split; [exact Hrun|].
    pose proof (run_keeps_error 0 sched st st' Hr Hrun He) as Ee.
    split; [exact Ee|].
    pose proof (reachable_inv st' (run_reachable 0 sched st st' Hr Hrun)) as I1.
    pose proof (inv_exit _ _ I1) as Hexit1.
    apply count_if_none in Hdone.
    rewrite Forall_forall in Hexit1, Hdone. apply Forall_forall.
    intros c Hin. specialize (Hexit1 c Hin). specialize (Hdone c Hin).
    unfold exit_ok in Hexit1. unfold running in Hdone.
    destruct (pc c); try discriminate.
    + destruct Hexit1 as (_ & ->). now rewrite Ee.
    + destruct Hexit1 as (E0 & _). rewrite Ee in E0. contradiction.
Qed.

Lemma in_lock_holds st i c :
  inv cpus st -> cores st !! i = Some c -> locked (pc c) = true ->
  init_lock st = true.
Proof.
  intros I0 Hc Hl. pose proof (inv_lock _ _ I0) as Ilock.
  destruct (count_if_update in_lock _ i c c Hc) as (_ & Hge & _).
  unfold in_lock at 1 in Hge. rewrite Hl in Hge. cbn [b2n] in Hge.
  destruct (init_lock st); [reflexivity|]. cbn [b2n] in Ilock. lia.
Qed.




(** One step never changes [master_cpu_id] once it is set. *)
Lemma step_keeps_master_cpu_id st fuel i st' :
  step fuel i st = Some st' ->
  master_cpu_id (sh st) <> INVALID_CPU_ID P ->
  master_cpu_id (sh st') = master_cpu_id (sh st).
Proof.
  intros Hs Hm. unfold step in Hs.
  destruct (cores st !! i) as [c|] eqn:Hc; [|discriminate].
  apply Z.eqb_neq in Hm. rewrite ?Hm in Hs.
  destruct (pc c); try discriminate.
  7: { destruct (nonzero (error (sh st))); cbn [negb] in Hs.
       - injection Hs as <-. reflexivity.
       - destruct (cpu_init (cpu_data c) (sh st)) as [cd1 s1] eqn:Ec.
         pose proof (cpu_init_effect (cpu_data c) (sh st) einval_nonzero) as Heff.
         rewrite Ec in Heff. destruct Heff as (_ & _ & _ & E1 & _).
         injection Hs as <-. exact E1. }
  8: { destruct (nonzero (error (sh st))) eqn:En; cbn [negb andb] in Hs.
       - injection Hs as <-. reflexivity.
       - destruct (master c); [|injection Hs as <-; reflexivity].
         apply nonzero_false in En.
         destruct (init_late_effect (sh st) einval_nonzero En)
           as (evs & (A1 & _) & _).
         unfold sync_vars in A1. injection A1 as E1 _ _ _.
         destruct (negb (nonzero (error (init_late (sh st)))));
           injection Hs as <-; exact E1. }
  all: destruct (master c).
  all: repeat match type of Hs with
              | (if ?b then _ else _) = _ => destruct b
              end;
    injection Hs as <-; reflexivity.
Qed.

(** C10. [init_early] leaves the caller's identifier in [master_cpu_id]
    whether or not it fails afterwards.  So in every reachable state
    [init_early] has been started at most once, and that is exactly when
    [master_cpu_id] is no longer [INVALID_CPU_ID]; from then on
    [master_cpu_id] never changes, exactly one core is master, it is the
    core whose identifier [master_cpu_id] holds, and a core that comes to
    the election afterwards goes on to [cpu_init] without becoming master
    and without running [init_early].  With [error] set this still holds:
    the one master is the core that calls [shutdown]. *)
Theorem failed_coordinator_stays_master st :
  reachable w0 cpus st ->
  (forall fuel cpu s s',
     init_early fuel cpu s = Some s' -> master_cpu_id s' = cpu) /\
  (count_if is_dbg_write_init (calls (trace (sh st))) <= 1)%nat /\
  (In arch_dbg_write_init (calls (trace (sh st))) <->
   master_cpu_id (sh st) <> INVALID_CPU_ID P) /\
  (master_cpu_id (sh st) <> INVALID_CPU_ID P ->
   masters st = 1%nat /\
   (forall i c,
      cores st !! i = Some c -> master c = true ->
      arg_cpu_id c = master_cpu_id (sh st)) /\
   (forall fuel i st',
      step fuel i st = Some st' ->
      master_cpu_id (sh st') = master_cpu_id (sh st)) /\
   (forall fuel i c,
      cores st !! i = Some c -> pc c = Elect ->
      step fuel i st
      = Some (update i (sh st) (init_lock st) (at_pc CpuInit c) st))) /\
  (error (sh st) <> 0 ->
   master_cpu_id (sh st) <> INVALID_CPU_ID P /\
   forall i c,
     cores st !! i = Some c -> pc c = Shutdown ->
     master c = true /\ arg_cpu_id c = master_cpu_id (sh st)).
Proof.
  intros Hr. pose proof (reachable_inv st Hr) as I0.
  pose proof (reachable_trace_inv st Hr) as [T1 T2 _ _ _].
  destruct (exactly_one_master_facts st Hr) as (Hone & Hid).
  split; [|split; [|split; [|split]]].
  - intros fuel cpu s s' He. now apply init_early_effect in He.
  - rewrite T2. destruct (_ =? _); lia.
  - split.
    + intros Hin E.
      assert (H1 : (1 <= count_if is_dbg_write_init (calls (trace (sh st))))%nat).
      { apply count_if_In. eexists. split; [exact Hin|reflexivity]. }
      rewrite T2, E, Z.eqb_refl in H1. lia.
    + intros Hm. apply Z.eqb_neq in Hm. rewrite Hm in T2.
      assert (H1 : (1 <= count_if is_dbg_write_init (calls (trace (sh st))))%nat)
        by lia.
      apply count_if_In in H1. destruct H1 as (x & Hx & Hp).
      destruct x; try discriminate. exact Hx.
  - intros Hm. split; [now apply Hone|]. split; [exact Hid|]. split.
    + intros fuel i st' Hs. now apply (step_keeps_master_cpu_id st fuel i st').
    + intros fuel i c Hc Hpc. unfold step. rewrite Hc, Hpc.
      apply Z.eqb_neq in Hm. rewrite Hm. reflexivity.
  - intros He.
    assert (Hm : master_cpu_id (sh st) <> INVALID_CPU_ID P).
    { intros E. destruct (inv_no_master _ _ I0 E) as (_ & _ & E0 & _).
      contradiction. }
    split; [exact Hm|]. intros i c Hc Hpc.
    pose proof (inv_exit _ _ I0) as Hexit. rewrite Forall_forall in Hexit.
    pose proof (Hexit c (list_elem_of_lookup_2 _ _ _ Hc)) as Hx.
    unfold exit_ok in Hx. rewrite Hpc in Hx. destruct Hx as (_ & Hmc).
    split; [exact Hmc|]. now apply (Hid i c).
Qed.

(** *** The per-CPU records and the waiting master *)

Lemma cpu_init_record_effect cd s :
  cpu_id (fst (cpu_init cd s)) = cpu_id cd /\
  (error (snd (cpu_init cd s)) = 0 -> record_ready (fst (cpu_init cd s))).
Proof.
  destruct (cpu_id_valid P (cpu_id cd)) eqn:Hv.
  - destruct (cpu_init_all_steps cd s Hv) as (-> & _). split; [reflexivity|].
    intros _. repeat split.
  - unfold cpu_init. rewrite Hv. cbn [negb fst snd]. split; [reflexivity|].
    cbn. lia.
Qed.

Lemma core_ok_mono s s' c :
  core_ok s c -> (error s <> 0 -> error s' <> 0) -> core_ok s' c.
Proof.
  intros (A & B & C) He. split; [exact A|]. split.
  - intros Hp E0. apply B; [exact Hp|].
    destruct (Z.eq_dec (error s) 0); [assumption|]. exfalso. now apply He.
  - intros Hpc Hm. apply He. now apply C.
Qed.

Lemma cores_ok_boot : Forall (core_ok (sh (boot w0 cpus))) (cores (boot w0 cpus)).
Proof.
  apply Forall_forall. intros c Hin. apply list_elem_of_In, in_map_iff in Hin.
  destruct Hin as (a & <- & _). repeat split; discriminate.
Qed.

Ltac core_ok_done :=
  unfold core_ok, past; cbn; (split; [|split]); intros;
  try discriminate; try reflexivity; try congruence; auto.

Lemma cores_ok_step st fuel i st' :
  inv cpus st -> Forall (core_ok (sh st)) (cores st) ->
  step fuel i st = Some st' -> Forall (core_ok (sh st')) (cores st').
Proof.
  intros I0 Hok Hs.
  assert (He : error (sh st) <> 0 -> error (sh st') <> 0).
  { intros E. rewrite (step_keeps_error st fuel i st' I0 Hs E). exact E. }
  unfold step in Hs. destruct (cores st !! i) as [c|] eqn:Hc; [|discriminate].
  assert (Hcok : core_ok (sh st) c).
  { rewrite Forall_forall in Hok. apply Hok. eapply list_elem_of_lookup_2; eauto. }
  assert (Hothers : forall s' c',
            (error (sh st) <> 0 -> error s' <> 0) -> core_ok s' c' ->
            Forall (core_ok s') (<[i := c']> (cores st))).
  { intros s' c' He' Hc'. apply Forall_insert; [|exact Hc'].
    eapply Forall_impl; [exact Hok|]. intros x Hx. eapply core_ok_mono; eauto. }
  destruct c as [aid cd m l]. destruct Hcok as (A & B & C). unfold past in A, B.
  cbn [pc rank cpu_data arg_cpu_id master] in *.
  destruct l; try discriminate; cbn in A, B; try specialize (A eq_refl).
  - (* Start *)
    injection Hs as <-. apply Hothers; [exact He|core_ok_done].
  - (* Lock1 *)
    destruct (init_lock st); injection Hs as <-; [exact Hok|].
    apply Hothers; [exact He|core_ok_done].
  - (* IncEntered *)
    injection Hs as <-. apply Hothers; [exact He|core_ok_done].
  - (* WaitEntered *)
    destruct (entered_cpus (sh st) <? online_cpus H);
      injection Hs as <-; [exact Hok|].
    apply Hothers; [exact He|core_ok_done].
  - (* Lock2 *)
    destruct (init_lock st); injection Hs as <-; [exact Hok|].
    apply Hothers; [exact He|core_ok_done].
  - (* Elect *)
    destruct (master_cpu_id (sh st) =? INVALID_CPU_ID P).
    + destruct (init_early fuel aid (sh st)) as [s1|]; [|discriminate].
      injection Hs as <-. apply Hothers; [exact He|core_ok_done].
    + injection Hs as <-. apply Hothers; [exact He|core_ok_done].
  - (* CpuInit *)
    destruct (nonzero (error (sh st))) eqn:En; cbn [negb] in Hs.
    + apply nonzero_true in En. injection Hs as <-.
      apply Hothers; [exact He|core_ok_done].
    + pose proof (cpu_init_record_effect cd (sh st)) as (R1 & R2).
      destruct (cpu_init cd (sh st)) as [cd1 s1]. cbn [fst snd] in R1, R2.
      injection Hs as <-. apply Hothers; [exact He|core_ok_done].
  - (* WaitInitialized *)
    destruct (negb (nonzero (error (sh st))) &&
              (initialized_cpus (sh st) <? online_cpus H));
      injection Hs as <-; [exact Hok|].
    apply Hothers; [exact He|core_ok_done].
  - (* Late *)
    destruct (nonzero (error (sh st))) eqn:En; destruct m; cbn [negb andb] in Hs.
    1, 2, 4: try apply nonzero_true in En; injection Hs as <-;
      apply Hothers; [exact He|core_ok_done].
    apply nonzero_false in En. injection Hs as <-.
    apply Hothers; [exact He|core_ok_done].
  - (* WaitActivate *)
    destruct (negb (nonzero (error (sh st))) && negb (activate (sh st)));
      injection Hs as <-; [exact Hok|].
    apply Hothers; [exact He|]. core_ok_done. 
  - (* Finish *)
    destruct (nonzero (error (sh st))); destruct m; injection Hs as <-;
      (apply Hothers; [exact He|]); core_ok_done.
  - (* Shutdown *)
    injection Hs as <-. apply Hothers; [exact He|]. core_ok_done.
  - (* Restore *)
    injection Hs as <-. apply Hothers; [exact He|]. core_ok_done.
Qed.

Lemma reachable_cores_ok st :
  reachable w0 cpus st -> Forall (core_ok (sh st)) (cores st).
Proof.
  induction 1 as [|st fuel i st' Hr IH Hs]; [apply cores_ok_boot|].
  eapply cores_ok_step; eauto using reachable_inv.
Qed.

(** *** The calls that end the boot *)

Lemma shutdown_not_plain c : is_shutdown c = true -> plain c = false.
Proof. destruct c; simpl; congruence. Qed.

Lemma restore_not_plain c : is_restore c = true -> plain c = false.
Proof. destruct c; simpl; congruence. Qed.

Lemma config_commit_not_plain c : is_config_commit c = true -> plain c = false.
Proof. destruct c; simpl; congruence. Qed.

Lemma commit_events_exit_marks cevs :
  commit_events cevs ->
  count_if is_shutdown (calls cevs) = 0%nat /\
  count_if is_restore (calls cevs) = 0%nat /\
  count_if is_config_commit (calls cevs) = 1%nat.
Proof.
  unfold commit_events. intros (r1 & r2 & Hc).
  destruct (CONFIG_PAGE_TABLE_PROTECTION P);
    [destruct Hc as (r0 & ->)|subst cevs]; repeat split.
Qed.

Lemma exit_calls_boot : exit_calls (boot w0 cpus).
Proof.
  constructor; simpl; rewrite ?count_if_boot by reflexivity; reflexivity.
Qed.

(** One step of a core keeps [exit_calls], given what the step appends to
    the trace. *)
Lemma exit_calls_update st i c s' b' c' evs :
  exit_calls st -> cores st !! i = Some c ->
  trace s' = trace (sh st) ++ evs ->
  (count_if is_shutdown (calls evs) + b2n (has_shut_down c)
   = b2n (has_shut_down c'))%nat ->
  (count_if is_restore (calls evs) + b2n (is_returned c)
   = b2n (is_returned c'))%nat ->
  (count_if is_config_commit (calls evs) + b2n (activate (sh st))
   = b2n (activate s'))%nat ->
  exit_calls (update i s' b' c' st).
Proof.
  intros [T1 T2 T3] Hc Htr H1 H2 H3.
  constructor; cbn [sh cores update]; rewrite Htr, calls_app, count_if_app.
  - rewrite T1.
    destruct (count_if_update has_shut_down _ i c c' Hc) as (E & _). lia.
  - rewrite T2.
    destruct (count_if_update is_returned _ i c c' Hc) as (E & _). lia.
  - rewrite T3. lia.
Qed.

(** A step whose calls are written out in [step]. *)
Ltac quiet_step T Hc :=
  eapply exit_calls_update;
  [ exact T | exact Hc | trace_eq
  | cbn; reflexivity | cbn; reflexivity | cbn; reflexivity ].

(** A step whose calls are those of a sequential routine that did not
    commit. *)
Ltac routine_step T Hc Htr Hp E4 :=
  eapply exit_calls_update; [exact T|exact Hc|exact Htr|..];
  [ rewrite (plain_no_mark _ _ shutdown_not_plain Hp); reflexivity
  | rewrite (plain_no_mark _ _ restore_not_plain Hp); reflexivity
  | rewrite (plain_no_mark _ _ config_commit_not_plain Hp); cbn;
    rewrite ?E4; reflexivity ].

Lemma exit_calls_step st fuel i st' :
  inv cpus st -> exit_calls st -> step fuel i st = Some st' -> exit_calls st'.
Proof.
  intros I0 T Hs. unfold step in Hs.
  destruct (cores st !! i) as [c|] eqn:Hc; [|discriminate].
  assert (Hxo : exit_ok (sh st) c).
  { pose proof (inv_exit _ _ I0) as I11. rewrite Forall_forall in I11.
    apply I11. eapply list_elem_of_lookup_2; eauto. }
  destruct c as [aid cd m l]. unfold exit_ok in Hxo.
  cbn [pc arg_cpu_id master cpu_data] in Hs, Hxo.
  destruct l; try discriminate.
  - (* Start *)
    injection Hs as <-. destruct m; quiet_step T Hc.
  - (* Lock1 *)
    destruct (init_lock st); injection Hs as <-; [exact T|].
    destruct m; quiet_step T Hc.
  - (* IncEntered *)
    injection Hs as <-. destruct m; quiet_step T Hc.
  - (* WaitEntered *)
    destruct (entered_cpus (sh st) <? online_cpus H);
      injection Hs as <-; [exact T|].
    destruct m; quiet_step T Hc.
  - (* Lock2 *)
    destruct (init_lock st); injection Hs as <-; [exact T|].
    destruct m; quiet_step T Hc.
  - (* Elect *)
    destruct (master_cpu_id (sh st) =? INVALID_CPU_ID P).
    + destruct (init_early fuel aid (sh st)) as [s1|] eqn:Ee; [|discriminate].
      apply init_early_effect in Ee.
      destruct Ee as (_ & _ & _ & E4 & r & evs & Htr & Hp).
      injection Hs as <-.
      destruct m;
        (eapply exit_calls_update; [exact T|exact Hc|exact Htr|..];
         rewrite calls_cons;
         cbn [count_if is_shutdown is_restore is_config_commit];
         [ rewrite (plain_no_mark _ _ shutdown_not_plain Hp); reflexivity
         | rewrite (plain_no_mark _ _ restore_not_plain Hp); reflexivity
         | rewrite (plain_no_mark _ _ config_commit_not_plain Hp), E4;
           reflexivity ]).
    + injection Hs as <-. destruct m; quiet_step T Hc.
  - (* CpuInit *)
    destruct (nonzero (error (sh st))) eqn:En; cbn [negb] in Hs.
    + injection Hs as <-. destruct m; quiet_step T Hc.
    + destruct (cpu_init cd (sh st)) as [cd1 s1] eqn:Ec.
      pose proof (cpu_init_effect cd (sh st) einval_nonzero) as Heff.
      rewrite Ec in Heff. cbn [snd] in Heff.
      destruct Heff as (evs & Htr & Hp & _ & _ & E4 & _).
      injection Hs as <-. destruct m; routine_step T Hc Htr Hp E4.
  - (* WaitInitialized *)
    destruct (negb (nonzero (error (sh st))) &&
              (initialized_cpus (sh st) <? online_cpus H));
      injection Hs as <-; [exact T|].
    destruct m; quiet_step T Hc.
  - (* Late *)
    destruct (nonzero (error (sh st))) eqn:En; destruct m; cbn [negb andb] in Hs.
    1, 2, 4: injection Hs as <-; quiet_step T Hc.
    apply nonzero_false in En.
    destruct (init_late_effect (sh st) einval_nonzero En)
      as (evs & (A1 & _ & _ & _ & Htr) & Hcase).
    unfold sync_vars in A1. injection A1 as _ _ _ E4.
    destruct Hcase as [(Herr & Hp)|(Herr & evs0 & cevs & -> & Hp & Hcm)].
    + apply nonzero_true in Herr. rewrite Herr in Hs. cbn [negb] in Hs.
      injection Hs as <-. routine_step T Hc Htr Hp E4.
    + apply nonzero_false in Herr. rewrite Herr in Hs. cbn [negb] in Hs.
      injection Hs as <-.
      destruct (commit_events_exit_marks _ Hcm) as (M1 & M2 & M3).
      assert (Ha : activate (sh st) = false).
      { destruct (activate (sh st)) eqn:Ea; [|reflexivity].
        destruct (inv_activate _ _ I0 Ea) as (_ & _ & Hz).
        pose proof (count_if_zero _ _ _ _ Hz Hc) as Hf. discriminate Hf. }
      eapply exit_calls_update; [exact T|exact Hc|exact Htr|..];
        rewrite calls_app, count_if_app.
      * rewrite M1, (plain_no_mark _ _ shutdown_not_plain Hp). reflexivity.
      * rewrite M2, (plain_no_mark _ _ restore_not_plain Hp). reflexivity.
      * rewrite M3, (plain_no_mark _ _ config_commit_not_plain Hp), Ha.
        reflexivity.
  - (* WaitActivate *)
    destruct (negb (nonzero (error (sh st))) && negb (activate (sh st)));
      injection Hs as <-; [exact T|].
    destruct m; quiet_step T Hc.
  - (* Finish *)
    destruct (nonzero (error (sh st))) eqn:En; destruct m; injection Hs as <-;
      quiet_step T Hc.
  - (* Shutdown *)
    destruct Hxo as (_ & ->). injection Hs as <-. quiet_step T Hc.
  - (* Restore *)
    injection Hs as <-. destruct m; quiet_step T Hc.
Qed.

Lemma reachable_exit_calls st : reachable w0 cpus st -> exit_calls st.
Proof.
  induction 1 as [|st fuel i st' Hr IH Hs]; [apply exit_calls_boot|].
  eapply exit_calls_step; eauto using reachable_inv.
Qed.

(** *** Further properties of the protocol *)

Lemma count_if_all {A} (p : A -> bool) (l : list A) :
  count_if p l = length l <-> Forall (fun x => p x = true) l.
Proof.
  split.
  - intros E. apply Forall_lookup. intros i x Hx. eapply count_if_full; eauto.
  - induction 1 as [|x l Hx _ IH]; simpl; [reflexivity|]. now rewrite Hx, IH.
Qed.

Lemma all_past r (st : state World) :
  inv cpus st -> count_if (past r) (cores st) = length cpus ->
  Forall (fun c => (r <= rank (pc c))%nat) (cores st).
Proof.
  intros I0 E. rewrite <- (inv_length st I0) in E. apply count_if_all in E.
  eapply Forall_impl; [exact E|]. intros c Hc. now apply Nat.leb_le.
Qed.

Lemma some_past r (st : state World) i c :
  cores st !! i = Some c -> (r <= rank (pc c))%nat ->
  (1 <= count_if (past r) (cores st))%nat.
Proof.
  intros Hc Hr. destruct (count_if_update (past r) _ i c c Hc) as (_ & Hge & _).
  unfold past at 1 in Hge. apply Nat.leb_le in Hr. rewrite Hr in Hge. exact Hge.
Qed.

Lemma masters_le_1 st : inv cpus st -> (count_if master (cores st) <= 1)%nat.
Proof.
  intros I0.
  destruct (Z.eq_dec (master_cpu_id (sh st)) (INVALID_CPU_ID P)) as [E|E].
  - destruct (inv_no_master _ _ I0 E) as (-> & _). lia.
  - rewrite (inv_master _ _ I0 E). lia.
Qed.

(** Once a master is elected, every core has entered. *)
Lemma elected_all_entered st :
  inv cpus st -> master_cpu_id (sh st) <> INVALID_CPU_ID P ->
  count_if (past 3) (cores st) = length cpus.
Proof.
  intros I0 Hm. pose proof (inv_master _ _ I0 Hm) as Imas.
  destruct (count_if_exists master (cores st) ltac:(lia)) as (j & cj & Hj & Hmj).
  pose proof (count_if_zero _ _ _ _ (inv_master_elected _ _ I0) Hj) as Hb.
  unfold master_before in Hb. rewrite Hmj, andb_true_r in Hb.
  apply negb_false_iff in Hb. unfold past in Hb. apply Nat.leb_le in Hb.
  pose proof (some_past 4 st j cj Hj ltac:(lia)) as H4.
  destruct (inv_barrier1 _ _ I0) as [Hz|E3]; [lia|exact E3].
Qed.

Lemma core_exit_ok st i c :
  inv cpus st -> cores st !! i = Some c -> exit_ok (sh st) c.
Proof.
  intros I0 Hc. pose proof (inv_exit _ _ I0) as Hexit.
  rewrite Forall_lookup in Hexit. eauto.
Qed.

(** X6. [init_lock] gives mutual exclusion: at no time are two cores
    inside the sections it guards (the increment of [entered_cpus], the
    election with [init_early], and [cpu_init]); the lock is taken exactly
    when some core is inside one, so it is free once every core has left
    [entry]. *)
Theorem mutual_exclusion st :
  reachable w0 cpus st ->
  (forall i j ci cj,
     cores st !! i = Some ci -> cores st !! j = Some cj ->
     locked (pc ci) = true -> locked (pc cj) = true -> i = j) /\
  (init_lock st = true <->
   exists i c, cores st !! i = Some c /\ locked (pc c) = true) /\
  (Forall (fun c => terminal (pc c) = true) (cores st) ->
   init_lock st = false).
Proof.
  intros Hr. pose proof (reachable_inv st Hr) as I0.
  pose proof (inv_lock _ _ I0) as Ilock.
  split; [|split].
  - intros i j ci cj Hi Hj Hli Hlj.
    apply (count_if_unique in_lock (cores st) i j ci cj); auto.
    rewrite Ilock. destruct (init_lock st); simpl; lia.
  - split.
    + intros El. rewrite El in Ilock. apply (count_if_exists in_lock).
      rewrite Ilock. simpl. lia.
    + intros (i & c & Hc & Hl). exact (in_lock_holds st i c I0 Hc Hl).
  - intros Hall. destruct (init_lock st) eqn:El; [|reflexivity]. exfalso.
    cbn [b2n] in Ilock.
    destruct (count_if_exists in_lock (cores st) ltac:(lia)) as (i & c & Hc & Hl).
    rewrite Forall_lookup in Hall. specialize (Hall i c Hc).
    unfold in_lock in Hl. destruct (pc c); discriminate.
Qed.

(** X7. The two barriers hold.  No core is past the first wait loop,
    and [init_early] has not started, unless every core has incremented
    [entered_cpus].  With [error] at zero no core is past the second wait
    loop (so [init_late] has not started), and [activate] is not set,
    unless every core has come out of [cpu_init] and is counted in
    [initialized_cpus]. *)
Theorem barriers_hold st :
  reachable w0 cpus st ->
  ((exists i c, cores st !! i = Some c /\ (4 <= rank (pc c))%nat) ->
   entered_cpus (sh st) = online_cpus H /\
   Forall (fun c => (3 <= rank (pc c))%nat) (cores st)) /\
  (In arch_dbg_write_init (calls (trace (sh st))) ->
   entered_cpus (sh st) = online_cpus H /\
   Forall (fun c => (3 <= rank (pc c))%nat) (cores st)) /\
  ((exists i c, cores st !! i = Some c /\ (8 <= rank (pc c))%nat) ->
   error (sh st) = 0 ->
   initialized_cpus (sh st) = online_cpus H /\
   Forall (fun c => (7 <= rank (pc c))%nat) (cores st)) /\
  (activate (sh st) = true ->
   initialized_cpus (sh st) = online_cpus H /\
   Forall (fun c => (7 <= rank (pc c))%nat) (cores st)).
Proof.
  intros Hr. pose proof (reachable_inv st Hr) as I0.
  pose proof (inv_entered _ _ I0) as Ient.
  pose proof (inv_initialized _ _ I0) as (_ & Iini).
  split; [|split; [|split]].
  - intros (i & c & Hc & Hrank).
    pose proof (some_past 4 st i c Hc Hrank) as H4.
    destruct (inv_barrier1 _ _ I0) as [Hz|E3]; [lia|].
    split; [rewrite Ient, E3, all_online; reflexivity|now apply all_past].
  - intros Hin.
    assert (Hm : master_cpu_id (sh st) <> INVALID_CPU_ID P).
    { intros E. pose proof (tinv_early _ (reachable_trace_inv st Hr)) as T2.
      rewrite E, Z.eqb_refl in T2.
      assert (1 <= count_if is_dbg_write_init (calls (trace (sh st))))%nat; [|lia].
      apply count_if_In. eexists. split; [exact Hin|reflexivity]. }
    pose proof (elected_all_entered st I0 Hm) as E3.
    split; [rewrite Ient, E3, all_online; reflexivity|now apply all_past].
  - intros (i & c & Hc & Hrank) E0.
    pose proof (some_past 8 st i c Hc Hrank) as H8.
    destruct (inv_barrier2 _ _ I0 E0) as [Hz|E7]; [lia|].
    split; [rewrite (Iini E0), E7, all_online; reflexivity|now apply all_past].
  - intros Ha. destruct (inv_activate _ _ I0 Ha) as (E0 & E7 & _).
    split; [rewrite (Iini E0), E7, all_online; reflexivity|now apply all_past].
Qed.

(** X8. The cores agree on the outcome: a boot in which one core has
    switched to the hypervisor has no core on the error path, and all
    cores that returned from [entry] returned the same non-zero code.
    [arch_cpu_restore] has been called once for each core that returned
    and [arch_cpu_activate_vmm] once for each core that switched, so no
    trace holds both. *)
Theorem cores_agree_on_outcome st :
  reachable w0 cpus st ->
  (forall i j ci cj,
     cores st !! i = Some ci -> cores st !! j = Some cj ->
     pc ci = Activated -> (11 <= rank (pc cj))%nat -> pc cj = Activated) /\
  (forall i j ci cj e e',
     cores st !! i = Some ci -> cores st !! j = Some cj ->
     pc ci = Returned e -> pc cj = Returned e' -> e = e' /\ e <> 0) /\
  count_if is_restore (calls (trace (sh st)))
  = count_if is_returned (cores st) /\
  count_if is_activate_vmm (calls (trace (sh st)))
  = count_if is_activated (cores st) /\
  (In arch_cpu_activate_vmm (calls (trace (sh st))) ->
   forall a e, ~ In (arch_cpu_restore a e) (calls (trace (sh st)))).
Proof.
  intros Hr. pose proof (reachable_inv st Hr) as I0.
  pose proof (xc_restore _ (reachable_exit_calls st Hr)) as Hres.
  pose proof (tinv_vmm _ (reachable_trace_inv st Hr)) as Hvmm.
  split; [|split; [|split; [exact Hres|split; [exact Hvmm|]]]].
  - intros i j ci cj Hi Hj Hpi Hrank.
    pose proof (core_exit_ok st i ci I0 Hi) as Hx.
    pose proof (core_exit_ok st j cj I0 Hj) as Hy.
    unfold exit_ok in Hx, Hy. rewrite Hpi in Hx. destruct Hx as (E0 & _).
    destruct (pc cj); cbn in Hrank; try lia; try reflexivity;
      exfalso; intuition.
  - intros i j ci cj e e' Hi Hj Hpi Hpj.
    pose proof (core_exit_ok st i ci I0 Hi) as Hx.
    pose proof (core_exit_ok st j cj I0 Hj) as Hy.
    unfold exit_ok in Hx, Hy. rewrite Hpi in Hx. rewrite Hpj in Hy.
    destruct Hx as (Hne & ->), Hy as (_ & ->). auto.
  - intros Hin a e Hin'.
    assert (H1 : (1 <= count_if is_activate_vmm (calls (trace (sh st))))%nat).
    { apply count_if_In. eexists. split; [exact Hin|reflexivity]. }
    assert (H2 : (1 <= count_if is_restore (calls (trace (sh st))))%nat).
    { apply count_if_In. eexists. split; [exact Hin'|reflexivity]. }
    rewrite Hvmm in H1. rewrite Hres in H2.
    apply count_if_exists in H1, H2.
    destruct H1 as (i & ci & Hi & Hpi), H2 as (j & cj & Hj & Hpj).
    pose proof (core_exit_ok st i ci I0 Hi) as Hx.
    pose proof (core_exit_ok st j cj I0 Hj) as Hy.
    unfold exit_ok in Hx, Hy. unfold is_activated in Hpi. unfold is_returned in Hpj.
    destruct (pc ci); try discriminate. destruct (pc cj); try discriminate.
    intuition.
Qed.

(** X9. The two global actions happen at most once, and never both.
    [config_commit] is in the trace exactly when [activate] is set;
    [shutdown] is called by the master only, with [error] set. *)
Theorem commit_and_shutdown_at_most_once st :
  reachable w0 cpus st ->
  (count_if is_config_commit (calls (trace (sh st))) <= 1)%nat /\
  (count_if is_shutdown (calls (trace (sh st))) <= 1)%nat /\
  (In config_commit (calls (trace (sh st))) <-> activate (sh st) = true) /\
  (In shutdown (calls (trace (sh st))) -> error (sh st) <> 0) /\
  ~ (In config_commit (calls (trace (sh st))) /\
     In shutdown (calls (trace (sh st)))).
Proof.
  intros Hr. pose proof (reachable_inv st Hr) as I0.
  pose proof (reachable_exit_calls st Hr) as [Hshut _ Hcommit].
  assert (Hc : In config_commit (calls (trace (sh st))) <-> activate (sh st) = true).
  { split.
    - intros Hin. destruct (activate (sh st)); [reflexivity|].
      cbn [b2n] in Hcommit.
      assert (1 <= count_if is_config_commit (calls (trace (sh st))))%nat; [|lia].
      apply count_if_In. eexists. split; [exact Hin|reflexivity].
    - intros Ha. rewrite Ha in Hcommit. cbn [b2n] in Hcommit.
      assert (H1 : (1 <= count_if is_config_commit (calls (trace (sh st))))%nat)
        by lia.
      apply count_if_In in H1. destruct H1 as (x & Hx & Hp).
      destruct x; try discriminate. exact Hx. }
  assert (Hs : In shutdown (calls (trace (sh st))) -> error (sh st) <> 0).
  { intros Hin.
    assert (H1 : (1 <= count_if is_shutdown (calls (trace (sh st))))%nat).
    { apply count_if_In. eexists. split; [exact Hin|reflexivity]. }
    rewrite Hshut in H1. apply count_if_exists in H1.
    destruct H1 as (i & c & Hi & Hp).
    pose proof (core_exit_ok st i c I0 Hi) as Hx. unfold exit_ok in Hx.
    unfold has_shut_down in Hp. apply andb_true_iff in Hp. destruct Hp as (_ & Hp).
    destruct (pc c); try discriminate; intuition. }
  split; [rewrite Hcommit; destruct (activate (sh st)); simpl; lia|].
  split.
  { rewrite Hshut. pose proof (masters_le_1 st I0) as Hle.
    pose proof (count_if_mono has_shut_down master (cores st)) as Hmono.
    assert (count_if has_shut_down (cores st) <= count_if master (cores st))%nat; [|lia].
    apply Hmono. intros c Hp. unfold has_shut_down in Hp.
    now apply andb_true_iff in Hp. }
  split; [exact Hc|]. split; [exact Hs|].
  intros (Hin1 & Hin2). apply Hc in Hin1. apply Hs in Hin2.
  destruct (inv_activate _ _ I0 Hin1) as (E0 & _). contradiction.
Qed.

(** X10. The per-CPU records.  From its first statement on, a core's
    record carries the identifier [entry] was called with, so [cpu_init]
    checks and reports that identifier.  As long as [error] is zero, the
    record of every core that has come out of [cpu_init] is linked to the
    root cell and has its own hypervisor page table; in particular this
    holds of every record once [activate] is set. *)
Theorem per_cpu_records_set_up st :
  reachable w0 cpus st ->
  Forall (fun c => (1 <= rank (pc c))%nat -> cpu_id (cpu_data c) = arg_cpu_id c)
    (cores st) /\
  (error (sh st) = 0 ->
   Forall (fun c => (7 <= rank (pc c))%nat -> record_ready (cpu_data c))
     (cores st)) /\
  (activate (sh st) = true ->
   Forall (fun c => cpu_id (cpu_data c) = arg_cpu_id c /\
                    cell (cpu_data c) = Some root_cell /\
                    hv_paging (pg_structs (cpu_data c)) = true /\
                    root_table (pg_structs (cpu_data c))
                    = root_table_page (cpu_data c))
     (cores st)).
Proof.
  intros Hr. pose proof (reachable_inv st Hr) as I0.
  pose proof (reachable_cores_ok st Hr) as Hok.
  split; [|split].
  - eapply Forall_impl; [exact Hok|]. intros c (A & _) Hrank.
    apply A. now apply Nat.leb_le.
  - intros E0. eapply Forall_impl; [exact Hok|]. intros c (_ & B & _) Hrank.
    apply B; [now apply Nat.leb_le|exact E0].
  - intros Ha. destruct (inv_activate _ _ I0 Ha) as (E0 & E7 & _).
    pose proof (all_past 7 st I0 E7) as H7.
    rewrite Forall_lookup in Hok, H7. apply Forall_lookup. intros i c Hc.
    destruct (Hok i c Hc) as (A & B & _). specialize (H7 i c Hc).
    split; [apply A; apply Nat.leb_le; lia|].
    apply B; [now apply Nat.leb_le|exact E0].
Qed.

(** *** The phases of the boot *)

Lemma early_call_marks c :
  early_call c = true ->
  cpu_only c = false /\ late_only c = false /\ is_unit_init c = false /\
  is_arch_cpu_init c = false /\ is_config_commit c = false.
Proof. destruct c; cbv; intros; repeat split; congruence. Qed.

Lemma cpu_call_marks c :
  cpu_call c = true ->
  early_only c = false /\ late_only c = false /\ is_unit_init c = false /\
  is_config_commit c = false.
Proof. destruct c; cbv; intros; repeat split; congruence. Qed.

Lemma late_call_marks c :
  late_call c = true ->
  early_only c = false /\ cpu_only c = false /\ is_arch_cpu_init c = false.
Proof. destruct c; cbv; intros; repeat split; congruence. Qed.

Lemma entry_call_marks c :
  entry_call c = true ->
  early_only c = false /\ cpu_only c = false /\ late_only c = false.
Proof. destruct c; cbv; intros; repeat split; congruence. Qed.

Lemma unit_init_late_only c : is_unit_init c = true -> late_only c = true.
Proof. destruct c; cbv; congruence. Qed.

Lemma only_no_calls R p evs :
  (forall c, R c = true -> p c = false) -> only_calls R evs -> no_calls p evs.
Proof.
  intros HR Hall. eapply Forall_impl; [exact Hall|]. intros e. apply HR.
Qed.

Lemma no_calls_weaken p q evs :
  (forall c, q c = true -> p c = true) -> no_calls p evs -> no_calls q evs.
Proof.
  intros Hpq Hall. eapply Forall_impl; [exact Hall|]. intros e He.
  cbn beta in *. destruct (q (fst e)) eqn:E; [|reflexivity].
  apply Hpq in E. congruence.
Qed.

Lemma no_calls_app p e1 e2 :
  no_calls p (e1 ++ e2) <-> no_calls p e1 /\ no_calls p e2.
Proof. apply Forall_app. Qed.

Lemma no_calls_count p evs : no_calls p evs -> count_if p (calls evs) = 0%nat.
Proof. induction 1 as [|e evs He _ IH]; simpl; [reflexivity|]. now rewrite He, IH. Qed.

Lemma no_calls_filter p evs : no_calls p evs -> List.filter p (calls evs) = [].
Proof. induction 1 as [|e evs He _ IH]; simpl; [reflexivity|]. now rewrite He. Qed.

Lemma no_calls_In p evs c : no_calls p evs -> p c = true -> ~ In c (calls evs).
Proof.
  intros Hn Hp Hin. apply in_map_iff in Hin. destruct Hin as (e & <- & Hin).
  unfold no_calls in Hn. rewrite Forall_forall in Hn.
  apply list_elem_of_In in Hin. rewrite (Hn e Hin) in Hp. discriminate.
Qed.

Lemma app_eq_app_cons {A} (t evs : list A) : forall t1 x t2,
  t ++ evs = t1 ++ x :: t2 ->
  (exists t', t = t1 ++ x :: t' /\ t2 = t' ++ evs) \/
  (exists e1, t1 = t ++ e1 /\ evs = e1 ++ x :: t2).
Proof.
  induction t as [|a t IH]; intros t1 x t2 Heq; simpl in *.
  - right. exists t1. auto.
  - destruct t1 as [|b t1]; simpl in *.
    + injection Heq as -> <-. left. exists t. auto.
    + injection Heq as -> Heq.
      destruct (IH t1 x t2 Heq) as [(t' & -> & ->)|(e1 & -> & ->)];
        [left; exists t'; auto|right; exists e1; auto].
Qed.

Lemma in_order_nil : in_order [].
Proof. intros t1 c r t2 E. destruct t1; discriminate E. Qed.

Lemma in_order_app t evs :
  in_order t ->
  (forall e1 c r e2,
     evs = e1 ++ (c, r) :: e2 ->
     (early_only c = true ->
      no_calls cpu_only (t ++ e1) /\ no_calls late_only (t ++ e1)) /\
     (cpu_only c = true -> no_calls late_only (t ++ e1)) /\
     (cpu_only c = true \/ late_only c = true ->
      In (paging_dump_stats "after early setup") (calls (t ++ e1)))) ->
  in_order (t ++ evs).
Proof.
  intros Ho Hevs t1 c r t2 Heq.
  destruct (app_eq_app_cons t evs t1 (c, r) t2 Heq)
    as [(t' & E1 & _)|(e1 & -> & E2)].
  - exact (Ho t1 c r t' E1).
  - exact (Hevs e1 c r t2 E2).
Qed.

Lemma only_calls_split R evs e1 c r e2 :
  only_calls R evs -> evs = e1 ++ (c, r) :: e2 ->
  only_calls R e1 /\ R c = true.
Proof.
  intros Hall ->. apply Forall_app in Hall. destruct Hall as (H1 & H2).
  apply Forall_cons in H2. destruct H2 as (Hc & _). auto.
Qed.

Lemma in_order_app_entry t evs :
  in_order t -> only_calls entry_call evs -> in_order (t ++ evs).
Proof.
  intros Ho Hall. apply in_order_app; [exact Ho|].
  intros e1 c r e2 E. destruct (only_calls_split _ _ _ _ _ _ Hall E) as (_ & Hc).
  destruct (entry_call_marks c Hc) as (M1 & M2 & M3).
  repeat split; intros; intuition congruence.
Qed.

Lemma in_order_app_early t evs :
  in_order t -> no_calls cpu_only t -> no_calls late_only t ->
  only_calls early_call evs -> in_order (t ++ evs).
Proof.
  intros Ho Hc Hl Hall. apply in_order_app; [exact Ho|].
  intros e1 c r e2 E. destruct (only_calls_split _ _ _ _ _ _ Hall E) as (He1 & Hec).
  destruct (early_call_marks c Hec) as (M1 & M2 & _).
  split; [|split; intros; intuition congruence].
  intros _. split; apply no_calls_app; (split; [assumption|]);
    (eapply only_no_calls; [|exact He1]); intros c' Hc'; apply early_call_marks in Hc';
    intuition.
Qed.

Lemma in_order_app_cpu t evs :
  in_order t -> no_calls late_only t ->
  In (paging_dump_stats "after early setup") (calls t) ->
  only_calls cpu_call evs -> in_order (t ++ evs).
Proof.
  intros Ho Hl Hd Hall. apply in_order_app; [exact Ho|].
  intros e1 c r e2 E. destruct (only_calls_split _ _ _ _ _ _ Hall E) as (He1 & Hec).
  destruct (cpu_call_marks c Hec) as (M1 & M2 & _).
  split; [intros; congruence|]. split.
  - intros _. apply no_calls_app. split; [assumption|].
    eapply only_no_calls; [|exact He1]. intros c' Hc'. apply cpu_call_marks in Hc'.
    intuition.
  - intros _. rewrite calls_app. apply in_or_app. auto.
Qed.

Lemma in_order_app_late t evs :
  in_order t ->
  In (paging_dump_stats "after early setup") (calls t) ->
  only_calls late_call evs -> in_order (t ++ evs).
Proof.
  intros Ho Hd Hall. apply in_order_app; [exact Ho|].
  intros e1 c r e2 E. destruct (only_calls_split _ _ _ _ _ _ Hall E) as (_ & Hec).
  destruct (late_call_marks c Hec) as (M1 & M2 & _).
  split; [intros; congruence|]. split; [intros; congruence|].
  intros _. rewrite calls_app. apply in_or_app. auto.
Qed.

Lemma phase_inv_boot : phase_inv (boot w0 cpus).
Proof.
  constructor; simpl.
  - intros _. split; constructor.
  - intros E. contradiction.
  - left. constructor.
  - apply in_order_nil.
  - exists [], (units X). split; [reflexivity|]. split; [reflexivity|]. intros [].
  - split; lia.
Qed.

(** One step of a core keeps [phase_inv], given what the step appends to
    the trace. *)
Lemma phase_inv_update st i c s' b' c' evs :
  phase_inv st -> cores st !! i = Some c ->
  trace s' = trace (sh st) ++ evs ->
  (past 7 c = true -> past 7 c' = true) ->
  (late_run c = true -> late_run c' = true) ->
  (master_cpu_id s' = INVALID_CPU_ID P ->
   master_cpu_id (sh st) = INVALID_CPU_ID P /\
   no_calls cpu_only evs /\ no_calls late_only evs) ->
  (master_cpu_id s' <> INVALID_CPU_ID P -> error s' = 0 ->
   (master_cpu_id (sh st) <> INVALID_CPU_ID P /\ error (sh st) = 0) \/
   In (paging_dump_stats "after early setup") (calls evs)) ->
  (no_calls late_only evs \/
   (count_if (past 7) (<[i := c']> (cores st)) = length (cores st) /\
    late_run c' = true)) ->
  in_order (trace (sh st) ++ evs) ->
  (no_calls late_only evs \/
   (no_calls late_only (trace (sh st)) /\
    exists done rest,
      units X = done ++ rest /\
      List.filter is_unit_init (calls evs) = map unit_init done /\
      (In config_commit (calls evs) -> rest = []))) ->
  initialized_cpus s'
  <= initialized_cpus (sh st) + Z.of_nat (count_if arch_cpu_init_ok evs) ->
  (count_if is_arch_cpu_init (calls evs) + b2n (past 7 c)
   <= b2n (past 7 c'))%nat ->
  phase_inv (update i s' b' c' st).
Proof.
  intros [T1 T2 T3 T4 T5 T6] Hc Htr Hp7 Hlr O1 O2 O3 O4 O5 O6 O7.
  destruct (count_if_update (past 7) _ i c c' Hc) as (E7 & G7 & _).
  destruct (count_if_update late_run _ i c c' Hc) as (Er & Gr & _).
  pose proof (count_if_le_length (past 7) (<[i := c']> (cores st))) as L7.
  rewrite length_insert in L7.
  assert (M7 : (b2n (past 7 c) <= b2n (past 7 c'))%nat).
  { destruct (past 7 c); [rewrite Hp7 by reflexivity|]; simpl; lia. }
  assert (Mr : (b2n (late_run c) <= b2n (late_run c'))%nat).
  { destruct (late_run c); [rewrite Hlr by reflexivity|]; simpl; lia. }
  constructor; cbn [sh cores update]; rewrite ?Htr.
  - intros E. destruct (O1 E) as (E0 & N1 & N2). destruct (T1 E0) as (A1 & A2).
    split; apply no_calls_app; auto.
  - intros Hm He. rewrite calls_app. apply in_or_app.
    destruct (O2 Hm He) as [(Hm0 & He0)|Hin]; [left; now apply T2|right; exact Hin].
  - destruct T3 as [Hno|(Hall & Hrun)].
    + destruct O3 as [Hno'|(Hall' & Hrun')].
      * left. apply no_calls_app. auto.
      * right. rewrite length_insert. split; [exact Hall'|].
        rewrite Hrun' in Er. cbn [b2n] in Er. lia.
    + right. rewrite length_insert. split; lia.
  - exact O4.
  - destruct T5 as (done & rest & Hu & Hf & Hcm).
    destruct O5 as [Hno|(Hno & done' & rest' & Hu' & Hf' & Hcm')].
    + exists done, rest. split; [exact Hu|].
      rewrite calls_app, List.filter_app.
      rewrite (no_calls_filter is_unit_init evs)
        by (eapply no_calls_weaken; [apply unit_init_late_only|exact Hno]).
      rewrite app_nil_r. split; [exact Hf|].
      intros Hin. apply in_app_or in Hin. destruct Hin as [Hin|Hin]; [auto|].
      exfalso. revert Hin. now apply (no_calls_In late_only).
    + exists done', rest'. split; [exact Hu'|].
      rewrite calls_app, List.filter_app.
      rewrite (no_calls_filter is_unit_init (trace (sh st)))
        by (eapply no_calls_weaken; [apply unit_init_late_only|exact Hno]).
      split; [exact Hf'|].
      intros Hin. apply in_app_or in Hin. destruct Hin as [Hin|Hin]; [|auto].
      exfalso. revert Hin. now apply (no_calls_In late_only).
  - destruct T6 as (C1 & C2). rewrite count_if_app, calls_app, count_if_app.
    split; lia.
Qed.

(** A step whose calls are written out in [step]. *)
Ltac quiet_phase T Hc :=
  eapply phase_inv_update; [exact T|exact Hc|trace_eq|..];
  [ cbn; auto
  | cbn; auto
  | cbn; intros E; split; [exact E|split; repeat constructor]
  | cbn; intros Hm He; left; split; assumption
  | left; repeat constructor
  | apply in_order_app_entry; [apply (ph_order _ T)|repeat constructor]
  | left; repeat constructor
  | cbn; lia
  | cbn; lia ].

Lemma phase_inv_step st fuel i st' :
  inv cpus st -> phase_inv st -> step fuel i st = Some st' -> phase_inv st'.
Proof.
  intros I0 T Hs. unfold step in Hs.
  destruct (cores st !! i) as [c|] eqn:Hc; [|discriminate].
  pose proof (inv_valid_id st i c I0 Hc) as Hid.
  assert (Hmas : (6 <= rank (pc c))%nat ->
                 master_cpu_id (sh st) <> INVALID_CPU_ID P).
  { intros Hrk E. destruct (inv_no_master _ _ I0 E) as (_ & Hz & _).
    pose proof (some_past 6 st i c Hc Hrk). lia. }
  destruct c as [aid cd m l].
  cbn [pc arg_cpu_id master cpu_data rank] in Hs, Hid, Hmas.
  destruct l; try discriminate.
  - (* Start *)
    injection Hs as <-. destruct m; quiet_phase T Hc.
  - (* Lock1 *)
    destruct (init_lock st); injection Hs as <-; [exact T|].
    destruct m; quiet_phase T Hc.
  - (* IncEntered *)
    injection Hs as <-. destruct m; quiet_phase T Hc.
  - (* WaitEntered *)
    destruct (entered_cpus (sh st) <? online_cpus H);
      injection Hs as <-; [exact T|].
    destruct m; quiet_phase T Hc.
  - (* Lock2 *)
    destruct (init_lock st); injection Hs as <-; [exact T|].
    destruct m; quiet_phase T Hc.
  - (* Elect *)
    destruct (Z.eqb_spec (master_cpu_id (sh st)) (INVALID_CPU_ID P)) as [Em|Em].
    + destruct (init_early fuel aid (sh st)) as [s1|] eqn:Ee; [|discriminate].
      pose proof (init_early_effect _ _ _ _ Ee) as (E1 & _ & E3 & _).
      destruct (init_early_calls _ _ _ _ Ee) as (evs & Htr & Hcalls & Hdone).
      injection Hs as <-. destruct (ph_none _ T Em) as (N1 & N2).
      destruct m;
        (eapply phase_inv_update; [exact T|exact Hc|exact Htr|..];
         [ cbn; auto
         | cbn; auto
         | intros E; congruence
         | intros _ He; right; exact (Hdone He)
         | left; eapply only_no_calls; [|exact Hcalls];
           intros c' Hc'; apply early_call_marks in Hc'; intuition
         | apply in_order_app_early; [apply (ph_order _ T)|assumption..]
         | left; eapply only_no_calls; [|exact Hcalls];
           intros c' Hc'; apply early_call_marks in Hc'; intuition
         | rewrite E3; lia
         | rewrite (no_calls_count is_arch_cpu_init evs)
             by (eapply only_no_calls; [|exact Hcalls];
                 intros c' Hc'; apply early_call_marks in Hc'; intuition);
           cbn; lia ]).
    + injection Hs as <-. destruct m; quiet_phase T Hc.
  - (* CpuInit *)
    specialize (Hmas ltac:(cbn; lia)).
    destruct (nonzero (error (sh st))) eqn:En; cbn [negb] in Hs.
    + injection Hs as <-. destruct m; quiet_phase T Hc.
    + apply nonzero_false in En.
      pose proof (cpu_init_effect cd (sh st) einval_nonzero) as Heff.
      destruct (cpu_init_calls cd (sh st)) as (evs & Htr & Hcalls & Hone & Hcnt).
      destruct (cpu_init cd (sh st)) as [cd1 s1] eqn:Ec.
      cbn [snd] in Heff, Htr, Hcnt.
      destruct Heff as (_ & _ & _ & E1 & _ & _ & _).
      injection Hs as <-.
      assert (Hnl : no_calls late_only (trace (sh st))).
      { destruct (ph_late _ T) as [Hno|(Hall & _)]; [exact Hno|]. exfalso.
        pose proof (count_if_full _ _ _ _ Hall Hc) as Hf. discriminate Hf. }
      pose proof (ph_early_done _ T Hmas En) as Hd.
      pose proof (inv_initialized _ _ I0) as ((Hi0 & _) & _).
      destruct m;
        (eapply phase_inv_update; [exact T|exact Hc|exact Htr|..];
         [ cbn; auto
         | cbn; auto
         | intros E; congruence
         | intros _ _; left; split; assumption
         | left; eapply only_no_calls; [|exact Hcalls];
           intros c' Hc'; apply cpu_call_marks in Hc'; intuition
         | apply in_order_app_cpu; [apply (ph_order _ T)|assumption..]
         | left; eapply only_no_calls; [|exact Hcalls];
           intros c' Hc'; apply cpu_call_marks in Hc'; intuition
         | destruct Hcnt as [(-> & ->)| ->];
           [unfold wrap32;
            pose proof (Z.mod_le (initialized_cpus (sh st) + 1) (2 ^ 32));
            lia|lia]
         | cbn; lia ]).
  - (* WaitInitialized *)
    destruct (negb (nonzero (error (sh st))) &&
              (initialized_cpus (sh st) <? online_cpus H));
      injection Hs as <-; [exact T|].
    destruct m; quiet_phase T Hc.
  - (* Late *)
    specialize (Hmas ltac:(cbn; lia)).
    destruct (nonzero (error (sh st))) eqn:En; destruct m; cbn [negb andb] in Hs.
    1, 2, 4: injection Hs as <-; quiet_phase T Hc.
    apply nonzero_false in En.
    destruct (init_late_effect (sh st) einval_nonzero En) as (evs0 & (A1 & _) & _).
    unfold sync_vars in A1. injection A1 as E1 _ E3 _.
    destruct (init_late_calls (sh st))
      as (evs & done & rest & Htr & Hcalls & Hu & Hf & Hcm).
    pose proof (ph_early_done _ T Hmas En) as Hd.
    assert (Hnl : no_calls late_only (trace (sh st))).
    { destruct (ph_late _ T) as [Hno|(_ & Hrun)]; [exact Hno|]. exfalso.
      destruct (count_if_exists late_run _ Hrun) as (j & cj & Hj & Hlj).
      unfold late_run in Hlj. apply andb_true_iff in Hlj. destruct Hlj as (Hmj & Hpj).
      assert (j = i)
        by (eapply (count_if_unique master); eauto using masters_le_1).
      subst j. rewrite Hc in Hj. injection Hj as <-. discriminate Hpj. }
    assert (H7 : count_if (past 7) (cores st) = length (cores st)).
    { rewrite (inv_length st I0).
      pose proof (some_past 8 st i _ Hc ltac:(cbn; lia)) as H8.
      destruct (inv_barrier2 _ _ I0 En) as [Hz|E7]; [lia|exact E7]. }
    assert (H7' : forall c',
              past 7 c' = true ->
              count_if (past 7) (<[i := c']> (cores st)) = length (cores st)).
    { intros c' Hc'. destruct (count_if_update (past 7) _ i _ c' Hc) as (E & _).
      rewrite Hc' in E. cbn in E. lia. }
    assert (Hupd : forall s',
              trace s' = trace (sh st) ++ evs ->
              master_cpu_id s' = master_cpu_id (sh st) ->
              initialized_cpus s' = initialized_cpus (sh st) ->
              phase_inv (update i s' (init_lock st)
                           (at_pc Finish
                              {| arg_cpu_id := aid; cpu_data := cd;
                                 master := true; pc := Late |}) st)).
    { intros s' Htr' Em' Ei'.
      eapply phase_inv_update; [exact T|exact Hc|exact Htr'|..].
      - cbn; auto.
      - cbn; auto.
      - intros E; congruence.
      - intros _ _. left. split; assumption.
      - right. split; [apply H7'; reflexivity|reflexivity].
      - apply in_order_app_late; [apply (ph_order _ T)|assumption..].
      - right. split; [exact Hnl|]. exists done, rest. auto.
      - rewrite Ei'. lia.
      - rewrite (no_calls_count is_arch_cpu_init evs)
          by (eapply only_no_calls; [|exact Hcalls];
              intros c' Hc'; apply late_call_marks in Hc'; intuition).
        cbn. lia. }
    destruct (negb (nonzero (error (init_late (sh st))))); injection Hs as <-;
      apply Hupd; cbn; auto.
  - (* WaitActivate *)
    destruct (negb (nonzero (error (sh st))) && negb (activate (sh st)));
      injection Hs as <-; [exact T|].
    destruct m; quiet_phase T Hc.
  - (* Finish *)
    destruct (nonzero (error (sh st))) eqn:En; destruct m; injection Hs as <-;
      quiet_phase T Hc.
  - (* Shutdown *)
    injection Hs as <-. destruct m; quiet_phase T Hc.
  - (* Restore *)
    injection Hs as <-. destruct m; quiet_phase T Hc.
Qed.

Lemma reachable_phase_inv st : reachable w0 cpus st -> phase_inv st.
Proof.
  induction 1 as [|st fuel i st' Hr IH Hs]; [apply phase_inv_boot|].
  eapply phase_inv_step; eauto using reachable_inv.
Qed.


(** X15. The phases of the boot do not interleave in the trace.  No call
    that only [init_early] makes comes after a call that only [cpu_init]
    or only [init_late] makes, and no call that only [cpu_init] makes
    comes after one that only [init_late] makes; every such call of
    [cpu_init] or [init_late] comes after [init_early] printed its final
    statistics, that is after [init_early] ran to its end.  Once
    [init_late] has made such a call, every core has come out of
    [cpu_init]. *)
Theorem phases_in_order st :
  reachable w0 cpus st ->
  (forall t1 c r t2,
     trace (sh st) = t1 ++ (c, r) :: t2 ->
     (early_only c = true -> no_calls cpu_only t1 /\ no_calls late_only t1) /\
     (cpu_only c = true -> no_calls late_only t1) /\
     (cpu_only c = true \/ late_only c = true ->
      In (paging_dump_stats "after early setup") (calls t1))) /\
  (forall c,
     In c (calls (trace (sh st))) -> late_only c = true ->
     Forall (fun x => (7 <= rank (pc x))%nat) (cores st)).
Proof.
  intros Hr. pose proof (reachable_phase_inv st Hr) as T.
  split; [exact (ph_order _ T)|].
  intros c Hin Hl. destruct (ph_late _ T) as [Hno|(Hall & _)].
  - exfalso. revert Hin. now apply (no_calls_In late_only).
  - apply count_if_all in Hall. eapply Forall_impl; [exact Hall|].
    intros x Hx. now apply Nat.leb_le.
Qed.


(** *** Progress *)

Lemma update_advances (st : state World) i c s b c' :
  cores st !! i = Some c -> (rank (pc c) < rank (pc c'))%nat ->
  (remaining (cores (update i s b c' st)) < remaining (cores st))%nat.
Proof.
  intros Hc Hlt. cbn [cores update].
  pose proof (remaining_update (cores st) i c c' Hc) as Hrem.
  pose proof (rank_le_13 (pc c')). lia.
Qed.

Ltac advance_by Hc :=
  eexists; split; [reflexivity|]; cbv zeta;
  apply (update_advances _ _ _ _ _ _ Hc); cbn; lia.

(** A step either leaves the machine as it is (the core spins) or moves
    the core forward. *)
Lemma step_stutters_or_advances st fuel i st' :
  step fuel i st = Some st' ->
  st' = st \/ (remaining (cores st') < remaining (cores st))%nat.
Proof.
  unfold step. destruct (cores st !! i) as [c|] eqn:Hc; [|discriminate].
  destruct c as [aid cd m l]. cbn [pc arg_cpu_id master cpu_data].
  assert (Hgo : forall s b c',
            (rank l < rank (pc c'))%nat ->
            (remaining (cores (update i s b c' st)) < remaining (cores st))%nat).
  { intros s b c' Hlt. now apply (update_advances _ _ _ _ _ _ Hc). }
  intros Hs.
  destruct l; try discriminate; destruct m;
    repeat match type of Hs with
           | (if ?b then _ else _) = _ => destruct b
           | match ?x with Some _ => _ | None => _ end = _ => destruct x
           | (let (_, _) := ?x in _) = _ => destruct x
           end;
    try discriminate; injection Hs as <-;
    first [left; reflexivity | right; apply Hgo; cbn; lia].
Qed.

Lemma remaining_le (l : list core) : (remaining l <= 13 * length l)%nat.
Proof. induction l as [|c l IH]; simpl; lia. Qed.

Lemma remaining_zero (l : list core) :
  remaining l = 0%nat -> count_if running l = 0%nat.
Proof.
  induction l as [|c l IH]; simpl; [reflexivity|]. intros E.
  rewrite IH by lia. unfold running.
  destruct (pc c); simpl in *; try lia; reflexivity.
Qed.

Lemma all_terminal (l : list core) :
  count_if running l = 0%nat <-> Forall (fun c => terminal (pc c) = true) l.
Proof.
  split.
  - intros E. apply count_if_none in E. eapply Forall_impl; [exact E|].
    intros c Hc. unfold running in Hc. now apply negb_false_iff in Hc.
  - induction 1 as [|c l Hc _ IH]; simpl; [reflexivity|].
    unfold running at 1. now rewrite Hc, IH.
Qed.

Lemma done_no_step fuel i st :
  count_if running (cores st) = 0%nat -> step fuel i st = None.
Proof.
  intros E. unfold step. destruct (cores st !! i) as [c|] eqn:Hc; [|reflexivity].
  pose proof (count_if_zero running _ i c E Hc) as Hf. unfold running in Hf.
  destruct (pc c); try discriminate; reflexivity.
Qed.

Lemma step_or_stay_reachable fuel i st :
  reachable w0 cpus st -> reachable w0 cpus (step_or_stay fuel i st).
Proof.
  intros Hr. unfold step_or_stay. destruct (step fuel i st) eqn:Hs; [|exact Hr].
  eapply reachable_step; eauto.
Qed.

Lemma step_or_stay_le fuel i st :
  (remaining (cores (step_or_stay fuel i st)) <= remaining (cores st))%nat.
Proof.
  unfold step_or_stay. destruct (step fuel i st) as [st'|] eqn:Hs; [|lia].
  destruct (step_stutters_or_advances st fuel i st' Hs) as [->|Hlt]; lia.
Qed.

Lemma run_any_app fuel s1 s2 : forall st,
  run_any fuel (s1 ++ s2) st = run_any fuel s2 (run_any fuel s1 st).
Proof. induction s1 as [|i s1 IH]; intros st; simpl; [reflexivity|apply IH]. Qed.

Lemma run_any_reachable fuel sched : forall st,
  reachable w0 cpus st -> reachable w0 cpus (run_any fuel sched st).
Proof.
  induction sched as [|i sched IH]; intros st Hr; simpl; [exact Hr|].
  apply IH. now apply step_or_stay_reachable.
Qed.

Lemma run_any_le fuel sched : forall st,
  (remaining (cores (run_any fuel sched st)) <= remaining (cores st))%nat.
Proof.
  induction sched as [|i sched IH]; intros st; simpl; [lia|].
  pose proof (IH (step_or_stay fuel i st)).
  pose proof (step_or_stay_le fuel i st). lia.
Qed.

Lemma run_any_done fuel sched : forall st,
  count_if running (cores st) = 0%nat -> run_any fuel sched st = st.
Proof.
  induction sched as [|i sched IH]; intros st E; simpl; [reflexivity|].
  unfold step_or_stay. rewrite (done_no_step fuel i st E). now apply IH.
Qed.

Lemma min_rank_core (l : list core) :
  l <> [] ->
  exists i c,
    l !! i = Some c /\ Forall (fun x => (rank (pc c) <= rank (pc x))%nat) l.
Proof.
  induction l as [|a l IH]; [congruence|]. intros _.
  destruct l as [|b l].
  - exists 0%nat, a. split; [reflexivity|]. constructor; [lia|constructor].
  - destruct (IH ltac:(discriminate)) as (i & c & Hc & Hmin).
    destruct (le_lt_dec (rank (pc a)) (rank (pc c))) as [Hle|Hlt].
    + exists 0%nat, a. split; [reflexivity|]. constructor; [lia|].
      eapply Forall_impl; [exact Hmin|]. intros x Hx. simpl in Hx. lia.
    + exists (S i), c. split; [exact Hc|]. constructor; [lia|exact Hmin].
Qed.

(** Some core that has not left [entry] can always advance: the holder of
    the lock if it is taken, else the core that is furthest behind. *)
Lemma some_core_advances fuel st :
  backing_fits fuel -> reachable w0 cpus st ->
  (1 <= count_if running (cores st))%nat ->
  exists i st',
    step fuel i st = Some st' /\
    (remaining (cores st') < remaining (cores st))%nat.
Proof.
  intros Hfit Hr Hrun. pose proof (reachable_inv st Hr) as I0.
  pose proof (reachable_cores_ok st Hr) as Hok.
  pose proof (inv_lock _ _ I0) as Ilock.
  pose proof (inv_length st I0) as Hlen.
  destruct (init_lock st) eqn:El; cbn [b2n] in Ilock.
  - destruct (count_if_exists in_lock (cores st) ltac:(lia)) as (i & c & Hc & Hl).
    exists i. unfold step. rewrite Hc. destruct c as [aid cd m l].
    unfold in_lock in Hl. cbn [pc arg_cpu_id master cpu_data] in *.
    destruct l; try discriminate Hl.
    + advance_by Hc.
    + destruct (master_cpu_id (sh st) =? INVALID_CPU_ID P).
      * destruct (init_early_total fuel Hfit aid (sh st)) as (s1 & ->).
        advance_by Hc.
      * advance_by Hc.
    + destruct (negb (nonzero (error (sh st))));
        [destruct (cpu_init cd (sh st)) as [cd1 s1]|]; advance_by Hc.
  - assert (Hne : cores st <> []).
    { intros E. rewrite E in Hrun. simpl in Hrun. lia. }
    destruct (min_rank_core (cores st) Hne) as (i & c & Hc & Hmin).
    pose proof (count_if_zero in_lock _ i c Ilock Hc) as Hfree.
    assert (Hall : forall r, (r <= rank (pc c))%nat ->
              count_if (past r) (cores st) = length cpus).
    { intros r Hrk. rewrite <- Hlen. apply count_if_all.
      eapply Forall_impl; [exact Hmin|]. intros x Hx. cbn beta in Hx.
      apply Nat.leb_le. lia. }
    assert (Hent : (3 <= rank (pc c))%nat ->
              (entered_cpus (sh st) <? online_cpus H) = false).
    { intros Hrk. rewrite (inv_entered _ _ I0), (Hall 3%nat Hrk), all_online.
      apply Z.ltb_irrefl. }
    assert (Hini : (7 <= rank (pc c))%nat -> error (sh st) = 0 ->
              (initialized_cpus (sh st) <? online_cpus H) = false).
    { intros Hrk E0. destruct (inv_initialized _ _ I0) as (_ & Iini).
      rewrite (Iini E0), (Hall 7%nat Hrk), all_online. apply Z.ltb_irrefl. }
    assert (Hact : (9 <= rank (pc c))%nat -> error (sh st) = 0 ->
              activate (sh st) = true).
    { intros Hrk E0. destruct (activate (sh st)) eqn:Ea; [reflexivity|]. exfalso.
      assert (Hm : master_cpu_id (sh st) <> INVALID_CPU_ID P).
      { intros E. destruct (inv_no_master _ _ I0 E) as (_ & Hz & _).
        pose proof (some_past 6 st i c Hc ltac:(lia)). lia. }
      pose proof (inv_master _ _ I0 Hm) as Imas.
      destruct (count_if_exists master (cores st) ltac:(lia)) as (j & cj & Hj & Hmj).
      rewrite Forall_lookup in Hmin, Hok. pose proof (Hmin j cj Hj) as Hrj.
      destruct (Hok j cj Hj) as (_ & _ & Cj).
      pose proof (core_exit_ok st j cj I0 Hj) as Hx. unfold exit_ok in Hx.
      cbn beta in Hrj.
      destruct (pc cj) eqn:Epc; cbn in Hrj; try lia;
        try (apply (Cj eq_refl Hmj); exact E0); intuition congruence. }
    assert (Hterm : (13 <= rank (pc c))%nat -> False).
    { intros Hrk.
      assert (count_if running (cores st) = 0%nat); [|lia].
      apply all_terminal. eapply Forall_impl; [exact Hmin|].
      intros x Hx. cbn beta in Hx. destruct (pc x); cbn in Hx; try lia; reflexivity. }
    exists i. unfold step. rewrite Hc. destruct c as [aid cd m l].
    unfold in_lock in Hfree. cbn [pc arg_cpu_id master cpu_data] in *.
    destruct l; try discriminate Hfree; cbn [rank] in Hent, Hini, Hact, Hterm.
    + advance_by Hc.
    + rewrite El. advance_by Hc.
    + rewrite (Hent ltac:(lia)). advance_by Hc.
    + rewrite El. advance_by Hc.
    + destruct (nonzero (error (sh st))) eqn:En; cbn [negb andb];
        [advance_by Hc|].
      apply nonzero_false in En. rewrite (Hini ltac:(lia) En). advance_by Hc.
    + destruct (negb (nonzero (error (sh st))) && m); advance_by Hc.
    + destruct (nonzero (error (sh st))) eqn:En; cbn [negb andb];
        [advance_by Hc|].
      apply nonzero_false in En. rewrite (Hact ltac:(lia) En). cbn [negb].
      advance_by Hc.
    + destruct (nonzero (error (sh st))); destruct m; advance_by Hc.
    + advance_by Hc.
    + advance_by Hc.
    + exfalso. apply Hterm. lia.
    + exfalso. apply Hterm. lia.
Qed.

(** A stretch of the schedule in which a core that can advance gets a
    turn moves the machine forward. *)
Lemma round_advances fuel round : forall st i0 st1,
  In i0 round -> step fuel i0 st = Some st1 ->
  (remaining (cores st1) < remaining (cores st))%nat ->
  (remaining (cores (run_any fuel round st)) < remaining (cores st))%nat.
Proof.
  induction round as [|j round IH]; intros st i0 st1 Hin Hs Hlt; [destruct Hin|].
  cbn [run_any].
  pose proof (run_any_le fuel round (step_or_stay fuel j st)) as Hle.
  unfold step_or_stay in *. destruct (step fuel j st) as [st2|] eqn:Hj.
  - destruct (step_stutters_or_advances _ _ _ _ Hj) as [->|Hlt2]; [|lia].
    destruct Hin as [->|Hin]; [rewrite Hs in Hj; injection Hj as ->; lia|].
    eapply IH; eauto.
  - destruct Hin as [->|Hin]; [congruence|]. eapply IH; eauto.
Qed.

Lemma rounds_complete fuel rounds : forall st,
  backing_fits fuel -> reachable w0 cpus st ->
  Forall (covering (length cpus)) rounds ->
  (remaining (cores st) <= length rounds)%nat ->
  count_if running (cores (run_any fuel (concat rounds) st)) = 0%nat.
Proof.
  induction rounds as [|round rounds IH]; intros st Hfit Hr Hcov Hrem.
  - simpl in *. apply remaining_zero. lia.
  - apply Forall_cons in Hcov. destruct Hcov as (Hround & Hcov).
    simpl concat. rewrite run_any_app.
    destruct (count_if running (cores st)) eqn:E.
    + rewrite (run_any_done fuel round st E).
      rewrite (run_any_done fuel (concat rounds) st E). exact E.
    + destruct (some_core_advances fuel st Hfit Hr ltac:(lia))
        as (i0 & st1 & Hs & Hlt).
      assert (Hi0 : In i0 round).
      { apply Hround. rewrite <- (inv_length st (reachable_inv st Hr)).
        unfold step in Hs. destruct (cores st !! i0) eqn:Hc; [|discriminate].
        eapply lookup_lt_Some; eauto. }
      pose proof (round_advances fuel round st i0 st1 Hi0 Hs Hlt) as Hadv.
      apply IH; [assumption|now apply run_any_reachable|assumption|].
      simpl in Hrem. lia.
Qed.

(** X11. [entry] never deadlocks.  A core whose step changes nothing is
    spinning on [init_lock] while another core holds it, or in one of the
    three wait loops with its condition still true; and as long as some
    core has not left [entry], some core can take a step that moves it
    forward.  ([init_early] is given the fuel its loop needs.) *)
Theorem entry_never_deadlocks fuel st :
  backing_fits fuel -> reachable w0 cpus st ->
  (forall i,
     step fuel i st = Some st ->
     exists c,
       cores st !! i = Some c /\
       (((pc c = Lock1 \/ pc c = Lock2) /\ init_lock st = true) \/
        (pc c = WaitEntered /\ entered_cpus (sh st) < online_cpus H) \/
        (pc c = WaitInitialized /\ error (sh st) = 0 /\
         initialized_cpus (sh st) < online_cpus H) \/
        (pc c = WaitActivate /\ error (sh st) = 0 /\
         activate (sh st) = false))) /\
  ((exists i c, cores st !! i = Some c /\ terminal (pc c) = false) ->
   exists i st',
     step fuel i st = Some st' /\
     (remaining (cores st') < remaining (cores st))%nat).
Proof.
  intros Hfit Hr. split.
  - intros i Hs. unfold step in Hs.
    destruct (cores st !! i) as [c|] eqn:Hc; [|discriminate].
    exists c. split; [reflexivity|].
    assert (Hgo : forall s b c',
              (rank (pc c) < rank (pc c'))%nat -> update i s b c' st <> st).
    { intros s b c' Hlt E.
      pose proof (update_advances st i c s b c' Hc Hlt) as Hadv.
      rewrite E in Hadv. lia. }
    destruct c as [aid cd m l]. cbn [pc arg_cpu_id master cpu_data] in *.
    destruct l; try discriminate.
    1, 3, 12, 13: exfalso; injection Hs as Hs; revert Hs; apply Hgo; cbn; lia.
    + destruct (init_lock st) eqn:El; [left; auto|].
      exfalso; injection Hs as Hs; revert Hs; apply Hgo; cbn; lia.
    + destruct (Z.ltb_spec (entered_cpus (sh st)) (online_cpus H));
        [right; left; auto|].
      exfalso; injection Hs as Hs; revert Hs; apply Hgo; cbn; lia.
    + destruct (init_lock st) eqn:El; [left; auto|].
      exfalso; injection Hs as Hs; revert Hs; apply Hgo; cbn; lia.
    + exfalso. destruct (master_cpu_id (sh st) =? INVALID_CPU_ID P);
        [destruct (init_early fuel aid (sh st)); [|discriminate]|];
        injection Hs as Hs; revert Hs; apply Hgo; cbn; lia.
    + exfalso. destruct (negb (nonzero (error (sh st))));
        [destruct (cpu_init cd (sh st))|];
        injection Hs as Hs; revert Hs; apply Hgo; cbn; lia.
    + destruct (nonzero (error (sh st))) eqn:En; cbn [negb andb] in Hs.
      { exfalso; injection Hs as Hs; revert Hs; apply Hgo; cbn; lia. }
      apply nonzero_false in En.
      destruct (Z.ltb_spec (initialized_cpus (sh st)) (online_cpus H));
        [right; right; left; auto|].
      exfalso; injection Hs as Hs; revert Hs; apply Hgo; cbn; lia.
    + exfalso. destruct (negb (nonzero (error (sh st))) && m);
        injection Hs as Hs; revert Hs; apply Hgo; cbn; lia.
    + destruct (nonzero (error (sh st))) eqn:En; cbn [negb andb] in Hs.
      { exfalso; injection Hs as Hs; revert Hs; apply Hgo; cbn; lia. }
      apply nonzero_false in En.
      destruct (activate (sh st)) eqn:Ea; cbn [negb] in Hs;
        [|right; right; right; auto].
      exfalso; injection Hs as Hs; revert Hs; apply Hgo; cbn; lia.
    + exfalso. destruct (nonzero (error (sh st))); destruct m;
        injection Hs as Hs; revert Hs; apply Hgo; cbn; lia.
  - intros (i & c & Hc & Ht). apply (some_core_advances fuel st Hfit Hr).
    destruct (count_if_update running _ i c c Hc) as (_ & Hge & _).
    unfold running at 1 in Hge. rewrite Ht in Hge. exact Hge.
Qed.

(** X12. The boot completes under every fair schedule.  Let the schedule
    be cut into stretches in each of which every core gets at least one
    turn, in any order and any number of times.  From any reachable state,
    after [13] times the number of cores such stretches every core has
    left [entry], and they all left the same way: either [error] is zero
    and every core has switched to the hypervisor, or every core has
    returned the non-zero [error]. *)
Theorem boot_completes_under_fair_scheduling fuel rounds st :
  backing_fits fuel -> reachable w0 cpus st ->
  Forall (covering (length cpus)) rounds ->
  (13 * length cpus <= length rounds)%nat ->
  let st' := run_any fuel (concat rounds) st in
  reachable w0 cpus st' /\
  Forall (fun c => terminal (pc c) = true) (cores st') /\
  ((error (sh st') = 0 /\
    Forall (fun c => pc c = Activated) (cores st')) \/
   (error (sh st') <> 0 /\
    Forall (fun c => pc c = Returned (error (sh st'))) (cores st'))).
Proof.
  intros Hfit Hr Hcov Hlen st'.
  assert (Hr' : reachable w0 cpus st') by now apply run_any_reachable.
  assert (Hdone : count_if running (cores st') = 0%nat).
  { apply rounds_complete; try assumption.
    pose proof (remaining_le (cores st)).
    rewrite (inv_length st (reachable_inv st Hr)) in *. lia. }
  apply all_terminal in Hdone.
  split; [exact Hr'|]. split; [exact Hdone|].
  pose proof (inv_exit _ _ (reachable_inv st' Hr')) as Hexit.
  destruct (Z.eq_dec (error (sh st')) 0) as [E0|Hne]; [left|right];
    (split; [assumption|]);
    rewrite Forall_lookup in Hexit, Hdone; apply Forall_lookup;
    intros i c Hc; specialize (Hexit i c Hc); specialize (Hdone i c Hc);
    unfold exit_ok in Hexit; destruct (pc c); try discriminate;
    intuition congruence.
Qed.

End Protocol.

End Setup.

(** ** The header and the configuration *)

Lemma wrap64_add_r a b : wrap64 (a + wrap64 b) = wrap64 (a + b).
Proof. unfold wrap64. now rewrite Z.add_mod_idemp_r by lia. Qed.

(** X13. With the header [setup.c] defines, [init_early] looks for the
    system configuration right behind the per-CPU area that starts at
    [__page_pool]: [system_config] is [__page_pool + max_cpus *
    sizeof(struct per_cpu)] (in 64 bits), whatever [JAILHOUSE_BASE] is,
    and [virtual_console] is the flag of the configuration found there. *)
Theorem system_config_follows_per_cpu_area {World : Type} (P : platform)
    (X : collaborators World) page_pool max online dbg fuel cpu s s' :
  init_early P (hypervisor_header P page_pool max online dbg) X fuel cpu s
  = Some s' ->
  system_config s' = wrap64 (page_pool + sizeof_per_cpu P * max) /\
  virtual_console s'
  = SYS_FLAGS_VIRTUAL_DEBUG_CONSOLE P
      (sys_flags (config_at X (wrap64 (page_pool + sizeof_per_cpu P * max)))).
Proof.
  intros Hs. apply init_early_config in Hs.
  assert (E : system_config_address P (hypervisor_header P page_pool max online dbg)
              = wrap64 (page_pool + sizeof_per_cpu P * max)).
  { unfold system_config_address, hypervisor_header. cbn [core_size max_cpus].
    rewrite wrap64_add_r, Z.add_assoc, wrap64_add_r.
    replace (JAILHOUSE_BASE P + wrap64 (page_pool - JAILHOUSE_BASE P)
             + sizeof_per_cpu P * max)
      with (JAILHOUSE_BASE P + sizeof_per_cpu P * max
            + wrap64 (page_pool - JAILHOUSE_BASE P)) by lia.
    rewrite wrap64_add_r. f_equal. lia. }
  rewrite E in Hs. exact Hs.
Qed.

(** ** The claims on a concrete machine *)

(** The configuration of the specification's example: a hypervisor region
    of three pages at [0x1000], no virtual console.  All three pages are
    backed by the empty page (at [0x3000] here), with read permission. *)
Example init_early_three_empty_pages :
  option_map (fun s => (error s, mappings (trace s)))
    (init_early demo_platform (demo_header 2) demo_ok 10 0
       (boot_shared demo_platform 0%nat))
  = Some (0,
          [ {| mem_phys_start := 0x3000; mem_virt_start := 0x1000;
               mem_size := 4096; mem_flags := 1 |};
            {| mem_phys_start := 0x3000; mem_virt_start := 0x2000;
               mem_size := 4096; mem_flags := 1 |};
            {| mem_phys_start := 0x3000; mem_virt_start := 0x3000;
               mem_size := 4096; mem_flags := 1 |} ]).
Proof. vm_compute. reflexivity. Qed.

(** The same region with the virtual console enabled and the console page
    at [0x2000], the second page: the second mapping is the console page
    itself, with read permission. *)
Example init_early_console_page :
  option_map (fun s => (error s, mappings (trace s)))
    (init_early demo_platform (demo_header 2) demo_console 10 0
       (boot_shared demo_platform 0%nat))
  = Some (0,
          [ {| mem_phys_start := 0x3000; mem_virt_start := 0x1000;
               mem_size := 4096; mem_flags := 1 |};
            {| mem_phys_start := 0x2000; mem_virt_start := 0x2000;
               mem_size := 4096; mem_flags := 1 |};
            {| mem_phys_start := 0x3000; mem_virt_start := 0x3000;
               mem_size := 4096; mem_flags := 1 |} ]).
Proof. vm_compute. reflexivity. Qed.

(** A failing mapping stops [init_early] at once: here every
    [arch_map_memory_region] fails and only the first page is tried. *)
Example init_early_stops_at_first_failure :
  option_map (fun s => (error s, mappings (trace s)))
    (init_early demo_platform (demo_header 2)
       (demo_collaborators is_region_call 0 [0; 1] demo_regions [])
       10 0 (boot_shared demo_platform 0%nat))
  = Some (-12,
          [ {| mem_phys_start := 0x3000; mem_virt_start := 0x1000;
               mem_size := 4096; mem_flags := 1 |} ]).
Proof. vm_compute. reflexivity. Qed.

(** Two cores taking turns, every collaborator succeeding: both switch
    mode, core 0 is the master. *)
Example boot_succeeds :
  option_map
    (fun st => (map pc (cores st), map master (cores st), sync_vars (sh st),
                error (sh st)))
    (run demo_platform (demo_header 2) demo_ok 10
       (round_robin 13 ++ [1%nat]) (boot demo_platform 0%nat demo_cpus))
  = Some ([Activated; Activated], [true; false], (0, 2, 2, true), 0).
Proof. vm_compute. reflexivity. Qed.

(** The same with [arch_cpu_init] failing on the first core that runs
    [cpu_init]: both cores return the error, the second without having
    run [cpu_init]. *)
Example boot_fails :
  option_map
    (fun st => (map pc (cores st), map master (cores st), sync_vars (sh st),
                error (sh st)))
    (run demo_platform (demo_header 2) demo_fail 10
       (round_robin 13 ++ [0; 1; 1]%nat) (boot demo_platform 0%nat demo_cpus))
  = Some ([Returned (-12); Returned (-12)], [true; false], (0, 2, 0, false),
          -12).
Proof. vm_compute. reflexivity. Qed.

(** The assumptions of the protocol hold on the concrete machine. *)
Lemma demo_valid_ids :
  Forall (fun a : Z * per_cpu => fst a <> INVALID_CPU_ID demo_platform) demo_cpus.
Proof. repeat constructor; simpl; lia. Defined.

Lemma demo_all_online : online_cpus (demo_header 2) = Z.of_nat (length demo_cpus).
Proof. reflexivity. Defined.

Lemma demo_online_u32 : online_cpus (demo_header 2) < 2 ^ 32.
Proof. reflexivity. Defined.

Lemma demo_einval : EINVAL demo_platform <> 0.
Proof. simpl. lia. Defined.

(** Two cores that both switch mode: one master. *)
Lemma exactly_one_master_witness :
  exists st,
    run demo_platform (demo_header 2) demo_ok 10
      (round_robin 13 ++ [1%nat]) (boot demo_platform 0%nat demo_cpus) = Some st /\
    Forall (fun a : Z * per_cpu => fst a <> INVALID_CPU_ID demo_platform) demo_cpus /\
    online_cpus (demo_header 2) = Z.of_nat (length demo_cpus) /\
    online_cpus (demo_header 2) < 2 ^ 32 /\
    EINVAL demo_platform <> 0 /\
    reachable demo_platform (demo_header 2) demo_ok 0%nat demo_cpus st /\
    (masters st <= 1)%nat /\ masters st = 1%nat.
Proof.
  assert (Hv : option_map (fun st => master_cpu_id (sh st))
                 (run demo_platform (demo_header 2) demo_ok 10
                    (round_robin 13 ++ [1%nat])
                    (boot demo_platform 0%nat demo_cpus)) = Some 0)
    by (vm_compute; reflexivity).
  destruct (run demo_platform (demo_header 2) demo_ok 10
              (round_robin 13 ++ [1%nat]) (boot demo_platform 0%nat demo_cpus))
    as [st|] eqn:E; [|discriminate Hv].
  injection Hv as Hv.
  exists st. split; [reflexivity|].
  assert (Hr : reachable demo_platform (demo_header 2) demo_ok 0%nat demo_cpus st)
    by (exact (run_reachable demo_platform (demo_header 2) demo_ok 0%nat
                 demo_cpus 10 _ _ st (reachable_boot _ _ _ _ _) E)).
  destruct (exactly_one_master demo_platform (demo_header 2) demo_ok 0%nat
              demo_cpus demo_valid_ids demo_all_online demo_online_u32
              demo_einval st Hr)
    as (Hle & _ & Hiff & _).
  split; [exact demo_valid_ids|]. split; [exact demo_all_online|].
  split; [exact demo_online_u32|]. split; [exact demo_einval|].
  split; [exact Hr|]. split; [exact Hle|].
  apply Hiff. rewrite Hv. simpl. lia.
Defined.

(** The same run: the gate is set and [init_late] ran to its end. *)
Lemma activation_gate_witness :
  exists st,
    run demo_platform (demo_header 2) demo_ok 10
      (round_robin 13 ++ [1%nat]) (boot demo_platform 0%nat demo_cpus) = Some st /\
    Forall (fun a : Z * per_cpu => fst a <> INVALID_CPU_ID demo_platform) demo_cpus /\
    online_cpus (demo_header 2) = Z.of_nat (length demo_cpus) /\
    online_cpus (demo_header 2) < 2 ^ 32 /\
    EINVAL demo_platform <> 0 /\
    reachable demo_platform (demo_header 2) demo_ok 0%nat demo_cpus st /\
    activate (sh st) = true /\ error (sh st) = 0 /\
    In (paging_dump_stats "after late setup") (calls (trace (sh st))).
Proof.
  assert (Hv : option_map (fun st => activate (sh st))
                 (run demo_platform (demo_header 2) demo_ok 10
                    (round_robin 13 ++ [1%nat])
                    (boot demo_platform 0%nat demo_cpus)) = Some true)
    by (vm_compute; reflexivity).
  destruct (run demo_platform (demo_header 2) demo_ok 10
              (round_robin 13 ++ [1%nat]) (boot demo_platform 0%nat demo_cpus))
    as [st|] eqn:E; [|discriminate Hv].
  injection Hv as Hv.
  exists st. split; [reflexivity|].
  assert (Hr : reachable demo_platform (demo_header 2) demo_ok 0%nat demo_cpus st)
    by (exact (run_reachable demo_platform (demo_header 2) demo_ok 0%nat
                 demo_cpus 10 _ _ st (reachable_boot _ _ _ _ _) E)).
  destruct (activation_gate demo_platform (demo_header 2) demo_ok 0%nat
              demo_cpus demo_valid_ids demo_all_online demo_online_u32
              demo_einval st Hr)
    as (Hiff & Hz & _).
  split; [exact demo_valid_ids|]. split; [exact demo_all_online|].
  split; [exact demo_online_u32|]. split; [exact demo_einval|].
  split; [exact Hr|]. split; [exact Hv|].
  split; [exact (Hz Hv)|]. apply Hiff. exact Hv.
Defined.

(** A failing [arch_cpu_init]: no core switches mode. *)
Lemma error_aborts_boot_witness :
  exists st,
    run demo_platform (demo_header 2) demo_fail 10
      (round_robin 13 ++ [0; 1; 1]%nat) (boot demo_platform 0%nat demo_cpus)
    = Some st /\
    Forall (fun a : Z * per_cpu => fst a <> INVALID_CPU_ID demo_platform) demo_cpus /\
    online_cpus (demo_header 2) = Z.of_nat (length demo_cpus) /\
    online_cpus (demo_header 2) < 2 ^ 32 /\
    EINVAL demo_platform <> 0 /\
    reachable demo_platform (demo_header 2) demo_fail 0%nat demo_cpus st /\
    error (sh st) <> 0 /\
    ~ In arch_cpu_activate_vmm (calls (trace (sh st))) /\
    (forall i c, cores st !! i = Some c -> pc c <> Activated).
Proof.
  assert (Hv : option_map (fun st => error (sh st))
                 (run demo_platform (demo_header 2) demo_fail 10
                    (round_robin 13 ++ [0; 1; 1]%nat)
                    (boot demo_platform 0%nat demo_cpus)) = Some (-12))
    by (vm_compute; reflexivity).
  destruct (run demo_platform (demo_header 2) demo_fail 10
              (round_robin 13 ++ [0; 1; 1]%nat)
              (boot demo_platform 0%nat demo_cpus))
    as [st|] eqn:E; [|discriminate Hv].
  injection Hv as Hv.
  exists st. split; [reflexivity|].
  assert (Hr : reachable demo_platform (demo_header 2) demo_fail 0%nat demo_cpus st)
    by (exact (run_reachable demo_platform (demo_header 2) demo_fail 0%nat
                 demo_cpus 10 _ _ st (reachable_boot _ _ _ _ _) E)).
  assert (He : error (sh st) <> 0) by (rewrite Hv; lia).
  destruct (error_aborts_boot demo_platform (demo_header 2) demo_fail 0%nat
              demo_cpus demo_valid_ids demo_all_online demo_online_u32
              demo_einval st Hr He)
    as (Hno & Hact & _).
  split; [exact demo_valid_ids|]. split; [exact demo_all_online|].
  split; [exact demo_online_u32|]. split; [exact demo_einval|].
  split; [exact Hr|]. split; [exact He|]. split; [exact Hno|exact Hact].
Defined.

(** After the failure, [error] keeps its value to the end of the run. *)
Lemma error_write_once_witness :
  exists st st',
    run demo_platform (demo_header 2) demo_fail 10 (round_robin 8)
      (boot demo_platform 0%nat demo_cpus) = Some st /\
    Forall (fun a : Z * per_cpu => fst a <> INVALID_CPU_ID demo_platform) demo_cpus /\
    online_cpus (demo_header 2) = Z.of_nat (length demo_cpus) /\
    online_cpus (demo_header 2) < 2 ^ 32 /\
    EINVAL demo_platform <> 0 /\
    reachable demo_platform (demo_header 2) demo_fail 0%nat demo_cpus st /\
    run demo_platform (demo_header 2) demo_fail 10
      (round_robin 5 ++ [0; 1; 1]%nat) st = Some st' /\
    error (sh st) <> 0 /\
    error (sh st') = error (sh st).
Proof.
  assert (Hv : option_map (fun st => error (sh st))
                 (run demo_platform (demo_header 2) demo_fail 10 (round_robin 8)
                    (boot demo_platform 0%nat demo_cpus)) = Some (-12))
    by (vm_compute; reflexivity).
  assert (Hw : run demo_platform (demo_header 2) demo_fail 10
                 (round_robin 8 ++ (round_robin 5 ++ [0; 1; 1]%nat))
                 (boot demo_platform 0%nat demo_cpus) <> None)
    by (vm_compute; discriminate).
  rewrite run_app in Hw.
  destruct (run demo_platform (demo_header 2) demo_fail 10 (round_robin 8)
              (boot demo_platform 0%nat demo_cpus))
    as [st|] eqn:E; [|discriminate Hv].
  injection Hv as Hv.
  destruct (run demo_platform (demo_header 2) demo_fail 10
              (round_robin 5 ++ [0; 1; 1]%nat) st)
    as [st'|] eqn:E'; [|contradiction].
  exists st, st'. split; [reflexivity|].
  assert (Hr : reachable demo_platform (demo_header 2) demo_fail 0%nat demo_cpus st)
    by (exact (run_reachable demo_platform (demo_header 2) demo_fail 0%nat
                 demo_cpus 10 _ _ st (reachable_boot _ _ _ _ _) E)).
  assert (He : error (sh st) <> 0) by (rewrite Hv; lia).
  destruct (error_write_once demo_platform (demo_header 2) demo_fail 0%nat
              demo_cpus demo_valid_ids demo_all_online demo_online_u32
              demo_einval st 10%nat _ st' Hr E' He)
    as (Hkeep & _).
  split; [exact demo_valid_ids|]. split; [exact demo_all_online|].
  split; [exact demo_online_u32|]. split; [exact demo_einval|].
  split; [exact Hr|]. split; [exact E'|]. split; [exact He|exact Hkeep].
Defined.



(** In the failing run [init_early] ran once and its caller stays the
    master. *)
Lemma failed_coordinator_stays_master_witness :
  exists st,
    run demo_platform (demo_header 2) demo_fail 10
      (round_robin 13 ++ [0; 1; 1]%nat) (boot demo_platform 0%nat demo_cpus)
    = Some st /\
    Forall (fun a : Z * per_cpu => fst a <> INVALID_CPU_ID demo_platform) demo_cpus /\
    online_cpus (demo_header 2) = Z.of_nat (length demo_cpus) /\
    online_cpus (demo_header 2) < 2 ^ 32 /\
    EINVAL demo_platform <> 0 /\
    reachable demo_platform (demo_header 2) demo_fail 0%nat demo_cpus st /\
    error (sh st) <> 0 /\
    master_cpu_id (sh st) <> INVALID_CPU_ID demo_platform /\
    masters st = 1%nat /\
    In arch_dbg_write_init (calls (trace (sh st))) /\
    (count_if is_dbg_write_init (calls (trace (sh st))) <= 1)%nat.
Proof.
  assert (Hv : option_map (fun st => error (sh st))
                 (run demo_platform (demo_header 2) demo_fail 10
                    (round_robin 13 ++ [0; 1; 1]%nat)
                    (boot demo_platform 0%nat demo_cpus)) = Some (-12))
    by (vm_compute; reflexivity).
  destruct (run demo_platform (demo_header 2) demo_fail 10
              (round_robin 13 ++ [0; 1; 1]%nat)
              (boot demo_platform 0%nat demo_cpus))
    as [st|] eqn:E; [|discriminate Hv].
  injection Hv as Hv.
  exists st. split; [reflexivity|].
  assert (Hr : reachable demo_platform (demo_header 2) demo_fail 0%nat demo_cpus st)
    by (exact (run_reachable demo_platform (demo_header 2) demo_fail 0%nat
                 demo_cpus 10 _ _ st (reachable_boot _ _ _ _ _) E)).
  assert (He : error (sh st) <> 0) by (rewrite Hv; lia).
  destruct (failed_coordinator_stays_master demo_platform (demo_header 2)
              demo_fail 0%nat demo_cpus demo_valid_ids demo_all_online
              demo_online_u32 demo_einval st Hr)
    as (_ & Hle & Hiff & Hset & Herr).
  destruct (Herr He) as (Hm & _). destruct (Hset Hm) as (Hone & _).
  split; [exact demo_valid_ids|]. split; [exact demo_all_online|].
  split; [exact demo_online_u32|]. split; [exact demo_einval|].
  split; [exact Hr|]. split; [exact He|]. split; [exact Hm|].
  split; [exact Hone|]. split; [apply Hiff; exact Hm|exact Hle].
Defined.


(** [online_cpus = 4] with three CPUs in the root cell. *)
Lemma init_late_cpu_count_mismatch_witness :
  Z.of_nat (length (root_cell_cpu_set demo_three
                      (world (boot_shared demo_platform 0%nat)))) < 2 ^ 32 /\
  online_cpus (demo_header 4)
  <> Z.of_nat (length (root_cell_cpu_set demo_three
                         (world (boot_shared demo_platform 0%nat)))) /\
  error (init_late demo_platform (demo_header 4) demo_three
           (boot_shared demo_platform 0%nat)) = -22 /\
  calls (trace (init_late demo_platform (demo_header 4) demo_three
                  (boot_shared demo_platform 0%nat)))
  = [printk "%s:%d: returning error %s\n"
       [PStr "setup.c"; PInt 186; PStr "-EINVAL"]].
Proof.
  assert (h1 : Z.of_nat (length (root_cell_cpu_set demo_three
                                   (world (boot_shared demo_platform 0%nat))))
               < 2 ^ 32) by reflexivity.
  assert (h2 : online_cpus (demo_header 4)
               <> Z.of_nat (length (root_cell_cpu_set demo_three
                                      (world (boot_shared demo_platform 0%nat)))))
    by (vm_compute; discriminate).
  destruct (init_late_cpu_count_mismatch demo_platform (demo_header 4)
              demo_three (boot_shared demo_platform 0%nat) h1 h2)
    as (He & _ & r & Ht).
  split; [exact h1|]. split; [exact h2|]. split; [exact He|].
  rewrite Ht. reflexivity.
Defined.

(** [cpu_init] on a record whose [cpu_id] is 7, outside the CPU set. *)
Lemma cpu_init_invalid_id_witness :
  cpu_id_valid demo_platform (cpu_id (set_cpu_id 7 (demo_per_cpu 0))) = false /\
  fst (cpu_init demo_platform (demo_header 2) demo_ok
         (set_cpu_id 7 (demo_per_cpu 0)) (boot_shared demo_platform 0%nat))
  = set_cpu_id 7 (demo_per_cpu 0) /\
  error (snd (cpu_init demo_platform (demo_header 2) demo_ok
                (set_cpu_id 7 (demo_per_cpu 0))
                (boot_shared demo_platform 0%nat))) = -22 /\
  initialized_cpus (snd (cpu_init demo_platform (demo_header 2) demo_ok
                           (set_cpu_id 7 (demo_per_cpu 0))
                           (boot_shared demo_platform 0%nat))) = 0.
Proof.
  assert (h1 : cpu_id_valid demo_platform
                 (cpu_id (set_cpu_id 7 (demo_per_cpu 0))) = false)
    by reflexivity.
  destruct (cpu_init_invalid_id demo_platform (demo_header 2) demo_ok
              (set_cpu_id 7 (demo_per_cpu 0))
              (boot_shared demo_platform 0%nat) h1)
    as (r1 & r2 & Hcd & He & _ & Hi & _).
  split; [exact h1|]. split; [exact Hcd|]. split; [exact He|exact Hi].
Defined.

(** ** The further properties on the concrete machine *)

(** [init_early] with every collaborator succeeding runs to its end. *)
Lemma init_early_succeeds_iff_it_completes_witness :
  exists s',
    init_early demo_platform (demo_header 2) demo_ok 4 0
      (boot_shared demo_platform 0%nat) = Some s' /\
    error s' = 0 /\
    In (paging_dump_stats "after early setup") (calls (trace s')).
Proof.
  destruct (init_early demo_platform (demo_header 2) demo_ok 4 0
              (boot_shared demo_platform 0%nat)) as [s'|] eqn:E;
    [|vm_compute in E; discriminate E].
  exists s'. split; [reflexivity|].
  destruct (init_early_succeeds_iff_it_completes demo_platform (demo_header 2)
              demo_ok 4 0 (boot_shared demo_platform 0%nat) s' E)
    as (evs & Htr & Hiff & _).
  assert (He : error s' = 0)
    by (vm_compute in E; injection E as <-; reflexivity).
  split; [exact He|]. rewrite Htr. apply Hiff. exact He.
Defined.

(** The three-page region of the concrete machine fits, and four
    iterations are enough. *)
Lemma demo_backing_fits : backing_fits demo_platform (demo_header 2) demo_ok 4.
Proof.
  unfold backing_fits.
  split; [reflexivity|]. split; [vm_compute; discriminate|].
  split; [vm_compute; discriminate|]. split; [vm_compute; reflexivity|].
  vm_compute. lia.
Defined.

Lemma init_early_terminates_witness :
  backing_fits demo_platform (demo_header 2) demo_ok 4 /\
  exists s' evs,
    init_early demo_platform (demo_header 2) demo_ok 4 0
      (boot_shared demo_platform 0%nat) = Some s' /\
    trace s' = evs /\ (length (mappings evs) <= 3)%nat.
Proof.
  split; [exact demo_backing_fits|].
  destruct (init_early_terminates demo_platform (demo_header 2) demo_ok 4 0
              (boot_shared demo_platform 0%nat) demo_backing_fits)
    as (s' & evs & E & Htr & Hlen).
  exists s', evs. split; [exact E|]. split; [exact Htr|exact Hlen].
Defined.

(** An empty hypervisor region: nothing is mapped and [init_early]
    succeeds. *)
Lemma init_early_maps_nothing_for_empty_region_witness :
  1%nat <> 0%nat /\
  wrap64 (0x1000 + 0) <= 0x1000 /\
  exists s',
    init_early demo_platform (demo_header 2) demo_empty 1 0
      (boot_shared demo_platform 0%nat) = Some s' /\
    mappings (trace s') = [] /\ error s' = 0.
Proof.
  assert (h1 : 1%nat <> 0%nat) by discriminate.
  assert (h2 : wrap64 (0x1000 + 0) <= 0x1000) by (vm_compute; discriminate).
  split; [exact h1|]. split; [exact h2|].
  destruct (init_early_maps_nothing_for_empty_region demo_platform (demo_header 2)
              demo_empty 1 0 (boot_shared demo_platform 0%nat) h1 h2)
    as (s' & evs & E & Htr & Hmap & _).
  exists s'. split; [exact E|]. split; [rewrite Htr; exact Hmap|].
  vm_compute in E. injection E as <-. reflexivity.
Defined.

(** [arch_cpu_init] fails on a valid CPU: its code is in [error] and it is
    the last step performed. *)
Lemma cpu_init_stops_at_first_failure_witness :
  cpu_id_valid demo_platform (cpu_id (set_cpu_id 1 (demo_per_cpu 1))) = true /\
  error (snd (cpu_init demo_platform (demo_header 2) demo_fail
                (set_cpu_id 1 (demo_per_cpu 1))
                (boot_shared demo_platform 0%nat))) = -12 /\
  exists evs done c,
    trace (snd (cpu_init demo_platform (demo_header 2) demo_fail
                  (set_cpu_id 1 (demo_per_cpu 1))
                  (boot_shared demo_platform 0%nat))) = evs /\
    work evs = succeeded done ++ [(c, -12)].
Proof.
  assert (h1 : cpu_id_valid demo_platform
                 (cpu_id (set_cpu_id 1 (demo_per_cpu 1))) = true)
    by reflexivity.
  assert (He : error (snd (cpu_init demo_platform (demo_header 2) demo_fail
                             (set_cpu_id 1 (demo_per_cpu 1))
                             (boot_shared demo_platform 0%nat))) = -12)
    by (vm_compute; reflexivity).
  split; [exact h1|]. split; [exact He|].
  destruct (cpu_init_stops_at_first_failure demo_platform (demo_header 2)
              demo_fail (set_cpu_id 1 (demo_per_cpu 1))
              (boot_shared demo_platform 0%nat) h1)
    as (_ & _ & _ & evs & Htr & [(_ & _ & _ & Herr)|Hfail]).
  { exfalso. rewrite He in Herr. discriminate Herr. }
  destruct Hfail as (done & c & rest & _ & Hw & _).
  rewrite He in Hw.
  exists evs, done, c. split; [exact Htr|exact Hw].
Defined.

(** A core inside the first locked section holds the lock. *)
Lemma mutual_exclusion_witness :
  exists st,
    run demo_platform (demo_header 2) demo_ok 10 [0; 0]%nat
      (boot demo_platform 0%nat demo_cpus) = Some st /\
    Forall (fun a : Z * per_cpu => fst a <> INVALID_CPU_ID demo_platform) demo_cpus /\
    online_cpus (demo_header 2) = Z.of_nat (length demo_cpus) /\
    online_cpus (demo_header 2) < 2 ^ 32 /\
    EINVAL demo_platform <> 0 /\
    reachable demo_platform (demo_header 2) demo_ok 0%nat demo_cpus st /\
    init_lock st = true /\
    exists i c, cores st !! i = Some c /\ locked (pc c) = true.
Proof.
  assert (Hv : option_map (fun st => init_lock st)
                 (run demo_platform (demo_header 2) demo_ok 10 [0; 0]%nat
                    (boot demo_platform 0%nat demo_cpus)) = Some true)
    by (vm_compute; reflexivity).
  destruct (run demo_platform (demo_header 2) demo_ok 10 [0; 0]%nat
              (boot demo_platform 0%nat demo_cpus))
    as [st|] eqn:E; [|discriminate Hv].
  injection Hv as Hv.
  exists st. split; [reflexivity|].
  assert (Hr : reachable demo_platform (demo_header 2) demo_ok 0%nat demo_cpus st)
    by (exact (run_reachable demo_platform (demo_header 2) demo_ok 0%nat
                 demo_cpus 10 _ _ st (reachable_boot _ _ _ _ _) E)).
  destruct (mutual_exclusion demo_platform (demo_header 2) demo_ok 0%nat
              demo_cpus demo_valid_ids demo_all_online demo_online_u32
              demo_einval st Hr)
    as (_ & Hiff & _).
  split; [exact demo_valid_ids|]. split; [exact demo_all_online|].
  split; [exact demo_online_u32|]. split; [exact demo_einval|].
  split; [exact Hr|]. split; [exact Hv|]. apply Hiff. exact Hv.
Defined.

(** At the end of the successful run both cores are counted. *)
Lemma barriers_hold_witness :
  exists st,
    run demo_platform (demo_header 2) demo_ok 10
      (round_robin 13 ++ [1%nat]) (boot demo_platform 0%nat demo_cpus) = Some st /\
    Forall (fun a : Z * per_cpu => fst a <> INVALID_CPU_ID demo_platform) demo_cpus /\
    online_cpus (demo_header 2) = Z.of_nat (length demo_cpus) /\
    online_cpus (demo_header 2) < 2 ^ 32 /\
    EINVAL demo_platform <> 0 /\
    reachable demo_platform (demo_header 2) demo_ok 0%nat demo_cpus st /\
    activate (sh st) = true /\
    initialized_cpus (sh st) = 2 /\
    Forall (fun c => (7 <= rank (pc c))%nat) (cores st).
Proof.
  assert (Hv : option_map (fun st => activate (sh st))
                 (run demo_platform (demo_header 2) demo_ok 10
                    (round_robin 13 ++ [1%nat])
                    (boot demo_platform 0%nat demo_cpus)) = Some true)
    by (vm_compute; reflexivity).
  destruct (run demo_platform (demo_header 2) demo_ok 10
              (round_robin 13 ++ [1%nat]) (boot demo_platform 0%nat demo_cpus))
    as [st|] eqn:E; [|discriminate Hv].
  injection Hv as Hv.
  exists st. split; [reflexivity|].
  assert (Hr : reachable demo_platform (demo_header 2) demo_ok 0%nat demo_cpus st)
    by (exact (run_reachable demo_platform (demo_header 2) demo_ok 0%nat
                 demo_cpus 10 _ _ st (reachable_boot _ _ _ _ _) E)).
  destruct (barriers_hold demo_platform (demo_header 2) demo_ok 0%nat
              demo_cpus demo_valid_ids demo_all_online demo_online_u32
              demo_einval st Hr)
    as (_ & _ & _ & Hact).
  destruct (Hact Hv) as (Hini & Hall).
  split; [exact demo_valid_ids|]. split; [exact demo_all_online|].
  split; [exact demo_online_u32|]. split; [exact demo_einval|].
  split; [exact Hr|]. split; [exact Hv|]. split; [exact Hini|exact Hall].
Defined.

(** At the end of the failing run each core has restored once and no core
    has switched. *)
Lemma cores_agree_on_outcome_witness :
  exists st,
    run demo_platform (demo_header 2) demo_fail 10
      (round_robin 13 ++ [0; 1; 1]%nat) (boot demo_platform 0%nat demo_cpus)
    = Some st /\
    Forall (fun a : Z * per_cpu => fst a <> INVALID_CPU_ID demo_platform) demo_cpus /\
    online_cpus (demo_header 2) = Z.of_nat (length demo_cpus) /\
    online_cpus (demo_header 2) < 2 ^ 32 /\
    EINVAL demo_platform <> 0 /\
    reachable demo_platform (demo_header 2) demo_fail 0%nat demo_cpus st /\
    count_if is_restore (calls (trace (sh st))) = count_if is_returned (cores st) /\
    count_if is_activate_vmm (calls (trace (sh st)))
    = count_if is_activated (cores st).
Proof.
  assert (Hw : run demo_platform (demo_header 2) demo_fail 10
                 (round_robin 13 ++ [0; 1; 1]%nat)
                 (boot demo_platform 0%nat demo_cpus) <> None)
    by (vm_compute; discriminate).
  destruct (run demo_platform (demo_header 2) demo_fail 10
              (round_robin 13 ++ [0; 1; 1]%nat)
              (boot demo_platform 0%nat demo_cpus))
    as [st|] eqn:E; [|contradiction].
  exists st. split; [reflexivity|].
  assert (Hr : reachable demo_platform (demo_header 2) demo_fail 0%nat demo_cpus st)
    by (exact (run_reachable demo_platform (demo_header 2) demo_fail 0%nat
                 demo_cpus 10 _ _ st (reachable_boot _ _ _ _ _) E)).
  destruct (cores_agree_on_outcome demo_platform (demo_header 2) demo_fail 0%nat
              demo_cpus demo_valid_ids demo_all_online demo_online_u32
              demo_einval st Hr)
    as (_ & _ & Hres & Hvmm & _).
  split; [exact demo_valid_ids|]. split; [exact demo_all_online|].
  split; [exact demo_online_u32|]. split; [exact demo_einval|].
  split; [exact Hr|]. split; [exact Hres|exact Hvmm].
Defined.

(** The failing run shuts down once and commits nothing. *)
Lemma commit_and_shutdown_at_most_once_witness :
  exists st,
    run demo_platform (demo_header 2) demo_fail 10
      (round_robin 13 ++ [0; 1; 1]%nat) (boot demo_platform 0%nat demo_cpus)
    = Some st /\
    Forall (fun a : Z * per_cpu => fst a <> INVALID_CPU_ID demo_platform) demo_cpus /\
    online_cpus (demo_header 2) = Z.of_nat (length demo_cpus) /\
    online_cpus (demo_header 2) < 2 ^ 32 /\
    EINVAL demo_platform <> 0 /\
    reachable demo_platform (demo_header 2) demo_fail 0%nat demo_cpus st /\
    (count_if is_shutdown (calls (trace (sh st))) <= 1)%nat /\
    ~ In config_commit (calls (trace (sh st))).
Proof.
  assert (Hv : option_map (fun st => activate (sh st))
                 (run demo_platform (demo_header 2) demo_fail 10
                    (round_robin 13 ++ [0; 1; 1]%nat)
                    (boot demo_platform 0%nat demo_cpus)) = Some false)
    by (vm_compute; reflexivity).
  destruct (run demo_platform (demo_header 2) demo_fail 10
              (round_robin 13 ++ [0; 1; 1]%nat)
              (boot demo_platform 0%nat demo_cpus))
    as [st|] eqn:E; [|discriminate Hv].
  injection Hv as Hv.
  exists st. split; [reflexivity|].
  assert (Hr : reachable demo_platform (demo_header 2) demo_fail 0%nat demo_cpus st)
    by (exact (run_reachable demo_platform (demo_header 2) demo_fail 0%nat
                 demo_cpus 10 _ _ st (reachable_boot _ _ _ _ _) E)).
  destruct (commit_and_shutdown_at_most_once demo_platform (demo_header 2)
              demo_fail 0%nat demo_cpus demo_valid_ids demo_all_online
              demo_online_u32 demo_einval st Hr)
    as (_ & Hshut & Hiff & _).
  split; [exact demo_valid_ids|]. split; [exact demo_all_online|].
  split; [exact demo_online_u32|]. split; [exact demo_einval|].
  split; [exact Hr|]. split; [exact Hshut|].
  intros Hin. apply Hiff in Hin. rewrite Hv in Hin. discriminate Hin.
Defined.

(** At the end of the successful run both records are set up. *)
Lemma per_cpu_records_set_up_witness :
  exists st,
    run demo_platform (demo_header 2) demo_ok 10
      (round_robin 13 ++ [1%nat]) (boot demo_platform 0%nat demo_cpus) = Some st /\
    Forall (fun a : Z * per_cpu => fst a <> INVALID_CPU_ID demo_platform) demo_cpus /\
    online_cpus (demo_header 2) = Z.of_nat (length demo_cpus) /\
    online_cpus (demo_header 2) < 2 ^ 32 /\
    EINVAL demo_platform <> 0 /\
    reachable demo_platform (demo_header 2) demo_ok 0%nat demo_cpus st /\
    activate (sh st) = true /\
    Forall (fun c => cpu_id (cpu_data c) = arg_cpu_id c /\
                     cell (cpu_data c) = Some root_cell /\
                     hv_paging (pg_structs (cpu_data c)) = true /\
                     root_table (pg_structs (cpu_data c))
                     = root_table_page (cpu_data c))
      (cores st).
Proof.
  assert (Hv : option_map (fun st => activate (sh st))
                 (run demo_platform (demo_header 2) demo_ok 10
                    (round_robin 13 ++ [1%nat])
                    (boot demo_platform 0%nat demo_cpus)) = Some true)
    by (vm_compute; reflexivity).
  destruct (run demo_platform (demo_header 2) demo_ok 10
              (round_robin 13 ++ [1%nat]) (boot demo_platform 0%nat demo_cpus))
    as [st|] eqn:E; [|discriminate Hv].
  injection Hv as Hv.
  exists st. split; [reflexivity|].
  assert (Hr : reachable demo_platform (demo_header 2) demo_ok 0%nat demo_cpus st)
    by (exact (run_reachable demo_platform (demo_header 2) demo_ok 0%nat
                 demo_cpus 10 _ _ st (reachable_boot _ _ _ _ _) E)).
  destruct (per_cpu_records_set_up demo_platform (demo_header 2) demo_ok 0%nat
              demo_cpus demo_valid_ids demo_all_online demo_online_u32
              demo_einval st Hr)
    as (_ & _ & Hact).
  split; [exact demo_valid_ids|]. split; [exact demo_all_online|].
  split; [exact demo_online_u32|]. split; [exact demo_einval|].
  split; [exact Hr|]. split; [exact Hv|exact (Hact Hv)].
Defined.

(** With a core spinning on the lock, some core can advance. *)
Lemma entry_never_deadlocks_witness :
  exists st,
    run demo_platform (demo_header 2) demo_ok 4 [0; 0; 1; 1]%nat
      (boot demo_platform 0%nat demo_cpus) = Some st /\
    Forall (fun a : Z * per_cpu => fst a <> INVALID_CPU_ID demo_platform) demo_cpus /\
    online_cpus (demo_header 2) = Z.of_nat (length demo_cpus) /\
    online_cpus (demo_header 2) < 2 ^ 32 /\
    EINVAL demo_platform <> 0 /\
    backing_fits demo_platform (demo_header 2) demo_ok 4 /\
    reachable demo_platform (demo_header 2) demo_ok 0%nat demo_cpus st /\
    step demo_platform (demo_header 2) demo_ok 4 1 st = Some st /\
    exists i st',
      step demo_platform (demo_header 2) demo_ok 4 i st = Some st' /\
      (remaining (cores st') < remaining (cores st))%nat.
Proof.
  assert (Hv : option_map (fun st => (init_lock st, map pc (cores st)))
                 (run demo_platform (demo_header 2) demo_ok 4 [0; 0; 1; 1]%nat
                    (boot demo_platform 0%nat demo_cpus))
               = Some (true, [IncEntered; Lock1]))
    by (vm_compute; reflexivity).
  destruct (run demo_platform (demo_header 2) demo_ok 4 [0; 0; 1; 1]%nat
              (boot demo_platform 0%nat demo_cpus))
    as [st|] eqn:E; [|discriminate Hv].
  injection Hv as Hl Hpcs.
  exists st. split; [reflexivity|].
  assert (Hr : reachable demo_platform (demo_header 2) demo_ok 0%nat demo_cpus st)
    by (exact (run_reachable demo_platform (demo_header 2) demo_ok 0%nat
                 demo_cpus 4 _ _ st (reachable_boot _ _ _ _ _) E)).
  destruct (entry_never_deadlocks demo_platform (demo_header 2) demo_ok 0%nat
              demo_cpus demo_valid_ids demo_all_online demo_online_u32
              demo_einval 4%nat st demo_backing_fits Hr)
    as (_ & Hgo).
  split; [exact demo_valid_ids|]. split; [exact demo_all_online|].
  split; [exact demo_online_u32|]. split; [exact demo_einval|].
  split; [exact demo_backing_fits|]. split; [exact Hr|].
  destruct (cores st) as [|c0 [|c1 [|c2 l]]] eqn:Ec; try discriminate Hpcs.
  injection Hpcs as Hp0 Hp1.
  split.
  - unfold step. rewrite Ec. cbn [lookup list_lookup]. rewrite Hp1, Hl. reflexivity.
  - apply Hgo. exists 1%nat, c1. split; [reflexivity|]. rewrite Hp1. reflexivity.
Defined.

Lemma demo_covering : covering 2 [0; 1]%nat.
Proof. intros [|[|i]] Hi; simpl; auto. lia. Defined.

(** Twenty-six rounds in which the two cores take turns complete the
    boot of the concrete machine: both cores switch to the hypervisor. *)
Lemma boot_completes_under_fair_scheduling_witness :
  Forall (fun a : Z * per_cpu => fst a <> INVALID_CPU_ID demo_platform) demo_cpus /\
  online_cpus (demo_header 2) = Z.of_nat (length demo_cpus) /\
  online_cpus (demo_header 2) < 2 ^ 32 /\
  EINVAL demo_platform <> 0 /\
  backing_fits demo_platform (demo_header 2) demo_ok 4 /\
  reachable demo_platform (demo_header 2) demo_ok 0%nat demo_cpus
    (boot demo_platform 0%nat demo_cpus) /\
  Forall (covering (length demo_cpus)) (List.repeat [0; 1]%nat 26) /\
  (13 * length demo_cpus <= length (List.repeat [0; 1]%nat 26))%nat /\
  Forall (fun c => pc c = Activated)
    (cores (run_any demo_platform (demo_header 2) demo_ok 4
              (concat (List.repeat [0; 1]%nat 26))
              (boot demo_platform 0%nat demo_cpus))).
Proof.
  assert (Hr : reachable demo_platform (demo_header 2) demo_ok 0%nat demo_cpus
                 (boot demo_platform 0%nat demo_cpus))
    by apply reachable_boot.
  assert (Hcov : Forall (covering (length demo_cpus)) (List.repeat [0; 1]%nat 26)).
  { apply List.Forall_forall. intros r Hin. apply repeat_spec in Hin. subst r.
    exact demo_covering. }
  assert (Hlen : (13 * length demo_cpus <= length (List.repeat [0; 1]%nat 26))%nat)
    by (vm_compute; lia).
  assert (He : error (sh (run_any demo_platform (demo_header 2) demo_ok 4
                            (concat (List.repeat [0; 1]%nat 26))
                            (boot demo_platform 0%nat demo_cpus))) = 0)
    by (vm_compute; reflexivity).
  destruct (boot_completes_under_fair_scheduling demo_platform (demo_header 2)
              demo_ok 0%nat demo_cpus demo_valid_ids demo_all_online
              demo_online_u32 demo_einval 4%nat (List.repeat [0; 1]%nat 26)
              (boot demo_platform 0%nat demo_cpus) demo_backing_fits Hr Hcov Hlen)
    as (_ & _ & [(_ & Hall)|(Hne & _)]); [|contradiction].
  split; [exact demo_valid_ids|]. split; [exact demo_all_online|].
  split; [exact demo_online_u32|]. split; [exact demo_einval|].
  split; [exact demo_backing_fits|]. split; [exact Hr|].
  split; [exact Hcov|]. split; [exact Hlen|exact Hall].
Defined.

(** With the page pool [0x4000] above [JAILHOUSE_BASE] and four per-CPU
    areas of [0x8000] bytes, the configuration is looked up [0x24000]
    above [JAILHOUSE_BASE]. *)
Lemma system_config_follows_per_cpu_area_witness :
  exists s',
    init_early demo_platform
      (hypervisor_header demo_platform 0xfffffffff0004000 4 2 0) demo_ok 4 0
      (boot_shared demo_platform 0%nat) = Some s' /\
    system_config s' = 0xfffffffff0024000.
Proof.
  destruct (init_early demo_platform
              (hypervisor_header demo_platform 0xfffffffff0004000 4 2 0)
              demo_ok 4 0 (boot_shared demo_platform 0%nat)) as [s'|] eqn:E;
    [|vm_compute in E; discriminate E].
  exists s'. split; [reflexivity|].
  destruct (system_config_follows_per_cpu_area demo_platform demo_ok
              0xfffffffff0004000 4 2 0 4 0 (boot_shared demo_platform 0%nat)
              s' E) as (Hcfg & _).
  rewrite Hcfg. vm_compute. reflexivity.
Defined.

(** At the end of the successful run the configuration is committed and
    both cores are past [cpu_init]. *)
Lemma phases_in_order_witness :
  exists st,
    run demo_platform (demo_header 2) demo_ok 10
      (round_robin 13 ++ [1%nat]) (boot demo_platform 0%nat demo_cpus) = Some st /\
    Forall (fun a : Z * per_cpu => fst a <> INVALID_CPU_ID demo_platform) demo_cpus /\
    online_cpus (demo_header 2) = Z.of_nat (length demo_cpus) /\
    online_cpus (demo_header 2) < 2 ^ 32 /\
    EINVAL demo_platform <> 0 /\
    reachable demo_platform (demo_header 2) demo_ok 0%nat demo_cpus st /\
    In config_commit (calls (trace (sh st))) /\
    Forall (fun x => (7 <= rank (pc x))%nat) (cores st).
Proof.
  assert (Hv : option_map
                 (fun st => existsb is_config_commit (calls (trace (sh st))))
                 (run demo_platform (demo_header 2) demo_ok 10
                    (round_robin 13 ++ [1%nat])
                    (boot demo_platform 0%nat demo_cpus)) = Some true)
    by (vm_compute; reflexivity).
  destruct (run demo_platform (demo_header 2) demo_ok 10
              (round_robin 13 ++ [1%nat]) (boot demo_platform 0%nat demo_cpus))
    as [st|] eqn:E; [|discriminate Hv].
  injection Hv as Hv. apply existsb_exists in Hv. destruct Hv as (x & Hx & Hp).
  destruct x; try discriminate Hp.
  exists st. split; [reflexivity|].
  assert (Hr : reachable demo_platform (demo_header 2) demo_ok 0%nat demo_cpus st)
    by (exact (run_reachable demo_platform (demo_header 2) demo_ok 0%nat
                 demo_cpus 10 _ _ st (reachable_boot _ _ _ _ _) E)).
  destruct (phases_in_order demo_platform (demo_header 2) demo_ok 0%nat
              demo_cpus demo_valid_ids demo_all_online demo_online_u32
              demo_einval st Hr)
    as (_ & Hlate).
  split; [exact demo_valid_ids|]. split; [exact demo_all_online|].
  split; [exact demo_online_u32|]. split; [exact demo_einval|].
  split; [exact Hr|]. split; [exact Hx|exact (Hlate config_commit Hx eq_refl)].
Defined.

